(** * Browserbase MCP server ([src/puppeteer/index.ts]): session registry,
    tool dispatch and resource catalog.

    The TypeScript module is embedded shallowly.  The three process-wide
    stores ([browsers], [consoleLogs], [screenshots]) become fields of a
    [State] record that is threaded through a state-and-exception monad;
    a JavaScript [throw] is the [Throw] completion.  The remote browser
    (puppeteer over Browserbase) and the Notion client are outside the
    module: their answers are read from a [World] of oracles indexed by a
    logical clock, and every request sent to them is recorded in a trace. *)

From stdpp Require Import gmap strings list sorting.
From Stdlib Require Import ZArith Ascii DecimalString.

Local Open Scope Z_scope.

(** ** JavaScript strings *)

Module Js.

(** Template-literal interpolation of a possibly [undefined] string. *)
Definition str (o : option string) : string :=
  match o with
  | Some s => s
  | None => "undefined"
  end.

(** The integers a JavaScript number holds exactly,
    [Number.isSafeInteger]. *)
Definition isSafeInteger (z : Z) : bool :=
  (- 9007199254740991 <=? z) && (z <=? 9007199254740991).

(** Interpolation of a number that is a safe integer: its decimal
    digits.  Beyond them a number no longer holds every integer, and
    from [1e21] on JavaScript prints an exponent, which [num] does not
    give: what is stated of this text is stated of safe integers. *)
Definition num (z : Z) : string := NilZero.string_of_int (Z.to_int z).

(** Truthiness of a possibly [undefined] string: [undefined] and the
    empty string are falsy. *)
Definition truthy (o : option string) : bool :=
  match o with
  | Some s => negb (String.eqb s "")
  | None => false
  end.

(** [a || b] on strings. *)
Definition or_else (o : option string) (d : string) : string :=
  if truthy o then str o else d.

(** The line feed written \n in the source's literals. *)
Definition newline : string := String (ascii_of_nat 10) "".

(** [Array.prototype.join]. *)
Fixpoint join (sep : string) (l : list string) : string :=
  match l with
  | [] => ""
  | [s] => s
  | s :: l' => s +:+ sep +:+ join sep l'
  end.

(** [String.prototype.startsWith]. *)
Definition startsWith (s p : string) : bool := String.prefix p s.

(** [String.prototype.split] with a non-empty separator.  [skip] counts
    the characters of a separator just found that are still to be
    passed over; [cur] is the piece being collected. *)
Fixpoint split_go (sep : string) (skip : nat) (cur s : string) : list string :=
  match s with
  | EmptyString => [cur]
  | String c s' =>
      match skip with
      | S k => split_go sep k cur s'
      | O =>
          if String.prefix sep s
          then cur :: split_go sep (String.length sep - 1) "" s'
          else split_go sep 0 (cur +:+ String c "") s'
      end
  end.

Definition split (s sep : string) : list string := split_go sep 0 "" s.

(** [s.replace(/-/g, '')]. *)
Fixpoint removeDashes (s : string) : string :=
  match s with
  | EmptyString => ""
  | String c s' =>
      if Ascii.eqb c "-"%char then removeDashes s' else String c (removeDashes s')
  end.

(** The character class [[a-zA-Z0-9]]. *)
Definition isAlnum (c : ascii) : bool :=
  let n := nat_of_ascii c in
  ((48 <=? n) && (n <=? 57) || (65 <=? n) && (n <=? 90)
   || (97 <=? n) && (n <=? 122))%nat.

(** [[a-zA-Z0-9]{n}] at the head of [s]: the matched text and the rest. *)
Fixpoint alnums (n : nat) (s : string) : option (string * string) :=
  match n with
  | O => Some ("", s)
  | S n' =>
      match s with
      | String c s' =>
          if isAlnum c
          then match alnums n' s' with
               | Some (m, r) => Some (String c m, r)
               | None => None
               end
          else None
      | EmptyString => None
      end
  end.

(** The key of an array index, which an object lists before its other
    keys: the canonical decimal form of an integer below [2^32 - 1]. *)
Definition arrayIndex (key : string) : option N :=
  match NilZero.uint_of_string key with
  | Some u =>
      let n := N.of_uint u in
      if String.eqb (NilZero.string_of_uint (N.to_uint n)) key && (n <? 4294967295)%N
      then Some n
      else None
  | None => None
  end.

(** [-?] at the head of [s].  The class that follows never matches a
    dash, so taking the dash when it is there loses no match. *)
Definition optDash (s : string) : string * string :=
  match s with
  | String c s' => if Ascii.eqb c "-"%char then ("-", s') else ("", s)
  | EmptyString => ("", s)
  end.

End Js.

(** ** JSON values and [JSON.stringify(v, null, 2)] *)

#[local] Set Warnings "-register-all".

Inductive Json :=
| JUndefined
| JNull
| JBool (b : bool)
| JNum (literal : string)
| JStr (s : string)
| JArr (items : list Json)
| JObj (props : list (string * Json)).

Module JSON.

Definition hexDigit (n : nat) : ascii :=
  ascii_of_nat (if (n <? 10)%nat then 48 + n else 87 + n).

(** One character inside a JSON string literal. *)
Definition dquote : ascii := ascii_of_nat 34.
Definition backslash : ascii := ascii_of_nat 92.

Definition quoteChar (c : ascii) : string :=
  let n := nat_of_ascii c in
  if (n =? 34)%nat then String backslash (String dquote "")
  else if (n =? 92)%nat then String backslash (String backslash "")
  else if (n =? 8)%nat then "\b"
  else if (n =? 9)%nat then "\t"
  else if (n =? 10)%nat then "\n"
  else if (n =? 12)%nat then "\f"
  else if (n =? 13)%nat then "\r"
  else if (n <? 32)%nat
       then "\u00" +:+ String (hexDigit (n / 16)) (String (hexDigit (n mod 16)) "")
       else String c "".

Fixpoint quoteChars (s : string) : string :=
  match s with
  | EmptyString => ""
  | String c s' => quoteChar c +:+ quoteChars s'
  end.

Definition quote (s : string) : string :=
  String dquote (quoteChars s +:+ String dquote "").

(** Serialisation at indentation [indent] with a gap of two spaces.
    [None] is JavaScript's [undefined]: an [undefined] array item is
    written [null], an [undefined] property is left out. *)
Fixpoint serialize (indent : string) (v : Json) : option string :=
  let inner := indent +:+ "  " in
  let wrap (l r : string) (parts : list string) : string :=
    match parts with
    | [] => l +:+ r
    | _ => l +:+ Js.newline +:+ inner
             +:+ Js.join ("," +:+ Js.newline +:+ inner) parts
             +:+ Js.newline +:+ indent +:+ r
    end in
  match v with
  | JUndefined => None
  | JNull => Some "null"
  | JBool b => Some (if b then "true" else "false")
  | JNum literal => Some literal
  | JStr s => Some (quote s)
  | JArr items =>
      Some (wrap "[" "]"
              (List.map (fun i => default "null" (serialize inner i)) items))
  | JObj props =>
      Some (wrap "{" "}"
              (omap (fun kv =>
                       match serialize inner (snd kv) with
                       | Some s => Some (quote (fst kv) +:+ ": " +:+ s)
                       | None => None
                       end) props))
  end.

(** [`${JSON.stringify(v, null, 2)}`]. *)
Definition stringify (v : Json) : string := Js.str (serialize "" v).

End JSON.

(** ** Handles of the capability provider *)

(** A [Browser] is the object [puppeteer.connect] resolves to; every
    connection yields a fresh one, numbered in the order the connections
    were requested.  A [Page] is an element of [browser.pages()]. *)
Definition Browser := nat.

Record Page := { pageBrowser : Browser; pageIndex : nat }.

#[global] Instance Page_eq_dec : EqDecision Page.
Proof. solve_decision. Defined.

#[global] Instance Page_countable : Countable Page :=
  inj_countable' (fun p => (pageBrowser p, pageIndex p))
                 (fun bi => {| pageBrowser := fst bi; pageIndex := snd bi |})
                 (fun p => match p with Build_Page _ _ => eq_refl end).

(** The functions the module ships to the page through [page.evaluate]. *)
Inductive PageFunction :=
| RunScript        (* puppeteer_evaluate: eval with console capture *)
| FindJson         (* puppeteer_get_json *)
| ElementsText     (* puppeteer_get_content, with or without selector *)
| BodyInnerText.   (* puppeteer_parallel_sessions *)

(** Requests sent to the remote browser and to the Notion client. *)
Inductive Call :=
| Connect
| Pages (b : Browser)
| Goto (p : Page) (url : option string)
| SetViewport (p : Page) (width height : Z)
| Query (p : Page) (selector : string)
| ElementScreenshot (p : Page) (selector : string)
| PageScreenshot (p : Page)
| Click (p : Page) (selector : option string)
| WaitForSelector (p : Page) (selector : option string)
| TypeText (p : Page) (selector value : option string)
| Evaluate (p : Page) (fn : PageFunction) (arg : option string)
| ListChildren (block_id : string)
| AppendChildren (block_id content : option string)
| ListComments (block_id : option string)
| CreateComment (page_id comment : option string)
| CreatePage (database_id : string) (properties : Json) (children : option string).

(** ** Completions *)

(** How an awaited call ends: with a value, or with a thrown [Error]
    carrying a message.  The providers reject with [Error]s; the one
    request whose rejection may carry a value of the caller's is the
    evaluation of the caller's script, see [ScriptOutcome]. *)
Inductive Completion (A : Type) :=
| Return (a : A)
| Throw (message : string).
Arguments Return {A} a.
Arguments Throw {A} message.

(** [null] and [undefined], the two values no property can be read
    from. *)
Inductive Nullish := JsNull | JsUndefined.

(** How [page.evaluate] of the page function of [puppeteer_evaluate]
    settles.  The page function throws again whatever the caller's
    script throws, and puppeteer hands a thrown value that is no [Error]
    back as it is: the promise is fulfilled with [{ result, logs }], or
    rejected with a reason whose [message] interpolates to a string (an
    [Error]; a number or a string, whose [message] is [undefined]), or
    rejected with [null] or [undefined]. *)
Inductive ScriptOutcome :=
| Evaluated (result : Json) (logs : list string)
| ScriptError (message : string)
| ScriptThrewNullish (reason : Nullish).

Definition Time := nat.

(** The world outside the module.  Each oracle gives the completion of
    one kind of request issued at a given instant (the number of requests
    issued before it), so answers may change over time.  [schedule] is the
    event loop's choice, at an instant and with a number of turns left,
    of which suspended task runs next. *)
Record World := {
  connect : Time -> Completion unit;
  pages : Time -> Browser -> Completion nat;
  goto : Time -> Page -> option string -> Completion unit;
  setViewport : Time -> Page -> Z -> Z -> Completion unit;
  query : Time -> Page -> string -> Completion bool;
  elementScreenshot : Time -> Page -> string -> Completion string;
  pageScreenshot : Time -> Page -> Completion string;
  click : Time -> Page -> option string -> Completion unit;
  waitForSelector : Time -> Page -> option string -> Completion unit;
  typeText : Time -> Page -> option string -> option string -> Completion unit;
  evaluateScript : Time -> Page -> option string -> ScriptOutcome;
  evaluateJson : Time -> Page -> option string -> Completion Json;
  evaluateContent : Time -> Page -> option string -> Completion (list string);
  evaluateInnerText : Time -> Page -> Completion string;
  listChildren : Time -> string -> Completion Json;
  appendChildren : Time -> option string -> option string -> Completion unit;
  listComments : Time -> option string -> Completion Json;
  createComment : Time -> option string -> option string -> Completion unit;
  createPage : Time -> string -> Json -> option string -> Completion string;
  env_NOTION_PAGE_URL : option string;
  env_NOTION_DATABASE_ID : option string;
  schedule : Time -> nat -> nat
}.

(** ** JavaScript [Map] *)

(** [Map.prototype.set], [get] and [keys] on the list of entries in
    insertion order: an existing key keeps its place and takes the new
    value, a new key goes last. *)
Module JsMap.
Section Ops.
Context {K V : Type} `{EqDecision K}.

Fixpoint set (k : K) (v : V) (m : list (K * V)) : list (K * V) :=
  match m with
  | [] => [(k, v)]
  | (k', v') :: m' =>
      if decide (k' = k) then (k', v) :: m' else (k', v') :: set k v m'
  end.

Fixpoint get (k : K) (m : list (K * V)) : option V :=
  match m with
  | [] => None
  | (k', v') :: m' => if decide (k' = k) then Some v' else get k m'
  end.

Definition keys (m : list (K * V)) : list K := List.map fst m.
End Ops.
End JsMap.

(** ** Global state *)

Record Session := { browser : Browser; page : option Page }.

Inductive Notification :=
| CloudMessage (message : string)   (* notifications/cloud/message, type console_log *)
| ResourcesListChanged.             (* notifications/resources/list_changed *)

(** [browsers], [consoleLogs] and [screenshots] are the module's three
    stores; a key [None] is the key [undefined].  [screenshots] keeps its
    entries in insertion order.  [handlers] are the console listeners
    installed with [page.on], each with the [sessionId] its closure
    captured; [notifications] are the messages handed to
    [server.notification]; [viewports] is the viewport last set on each
    page; [trace] lists the requests issued so far, each with whether it
    succeeded. *)
Record State := {
  browsers : gmap (option string) Session;
  consoleLogs : list string;
  screenshots : list (option string * string);
  handlers : list (Page * option string);
  notifications : list Notification;
  viewports : gmap Page (Z * Z);
  trace : list (Call * bool)
}.

Definition initial : State :=
  {| browsers := ∅; consoleLogs := []; screenshots := []; handlers := [];
     notifications := []; viewports := ∅; trace := [] |}.

Definition clock (st : State) : Time := length (trace st).

Definition isConnect (e : Call * bool) : bool :=
  match fst e with
  | Connect => true
  | _ => false
  end.

(** Connections requested so far, and those among them that were opened. *)
Definition requested (st : State) : nat :=
  length (List.filter isConnect (trace st)).
Definition opened (st : State) : nat :=
  length (List.filter (fun e => isConnect e && snd e) (trace st)).

Definition with_browsers (f : gmap (option string) Session -> gmap (option string) Session)
    (st : State) : State :=
  {| browsers := f (browsers st); consoleLogs := consoleLogs st;
     screenshots := screenshots st; handlers := handlers st;
     notifications := notifications st; viewports := viewports st;
     trace := trace st |}.

Definition with_consoleLogs (f : list string -> list string) (st : State) : State :=
  {| browsers := browsers st; consoleLogs := f (consoleLogs st);
     screenshots := screenshots st; handlers := handlers st;
     notifications := notifications st; viewports := viewports st;
     trace := trace st |}.

Definition with_screenshots
    (f : list (option string * string) -> list (option string * string))
    (st : State) : State :=
  {| browsers := browsers st; consoleLogs := consoleLogs st;
     screenshots := f (screenshots st); handlers := handlers st;
     notifications := notifications st; viewports := viewports st;
     trace := trace st |}.

Definition with_handlers
    (f : list (Page * option string) -> list (Page * option string))
    (st : State) : State :=
  {| browsers := browsers st; consoleLogs := consoleLogs st;
     screenshots := screenshots st; handlers := f (handlers st);
     notifications := notifications st; viewports := viewports st;
     trace := trace st |}.

Definition with_notifications (f : list Notification -> list Notification)
    (st : State) : State :=
  {| browsers := browsers st; consoleLogs := consoleLogs st;
     screenshots := screenshots st; handlers := handlers st;
     notifications := f (notifications st); viewports := viewports st;
     trace := trace st |}.

Definition with_viewports (f : gmap Page (Z * Z) -> gmap Page (Z * Z))
    (st : State) : State :=
  {| browsers := browsers st; consoleLogs := consoleLogs st;
     screenshots := screenshots st; handlers := handlers st;
     notifications := notifications st; viewports := f (viewports st);
     trace := trace st |}.

Definition with_trace (f : list (Call * bool) -> list (Call * bool))
    (st : State) : State :=
  {| browsers := browsers st; consoleLogs := consoleLogs st;
     screenshots := screenshots st; handlers := handlers st;
     notifications := notifications st; viewports := viewports st;
     trace := f (trace st) |}.

(** ** The monad of asynchronous code: state and thrown errors *)

Definition M (A : Type) : Type := State -> Completion A * State.

Definition ret {A} (a : A) : M A := fun st => (Return a, st).

Definition throw {A} (message : string) : M A := fun st => (Throw message, st).

Definition bind {A B} (m : M A) (k : A -> M B) : M B :=
  fun st =>
    match m st with
    | (Return a, st') => k a st'
    | (Throw e, st') => (Throw e, st')
    end.

(** [try { m } catch (error) { handler error.message }]. *)
Definition try_catch {A} (m : M A) (handler : string -> M A) : M A :=
  fun st =>
    match m st with
    | (Return a, st') => (Return a, st')
    | (Throw e, st') => handler e st'
    end.

Definition modify (f : State -> State) : M unit := fun st => (Return tt, f st).

Notation "'let*' x := m 'in' k" := (bind m (fun x => k))
  (at level 10, x name, m at level 100, k at level 200, only parsing).

Definition succeeded {A} (r : Completion A) : bool :=
  match r with
  | Return _ => true
  | Throw _ => false
  end.

Definition fulfilled (outcome : ScriptOutcome) : bool :=
  match outcome with
  | Evaluated _ _ => true
  | _ => false
  end.

(** Issue a request: it is recorded, and its eventual completion is the
    oracle's answer at the instant of issue. *)
Definition issue {A} (c : Call) (answer : Time -> Completion A) : M (Completion A) :=
  fun st =>
    let r := answer (clock st) in
    (Return r, with_trace (fun tr => tr ++ [(c, succeeded r)]) st).

(** [await] on a completion. *)
Definition settle {A} (r : Completion A) : M A :=
  match r with
  | Return a => ret a
  | Throw e => throw e
  end.

(** [await] on a freshly issued request. *)
Definition request {A} (c : Call) (answer : Time -> Completion A) : M A :=
  let* r := issue c answer in settle r.

(** The [TypeError] of a method call on [undefined]. *)
Definition typeError (property : string) : string :=
  "Cannot read properties of undefined (reading '" +:+ property +:+ "')".

(** The [TypeError] of reading a property of [null] or [undefined]. *)
Definition typeErrorOn (v : Nullish) (property : string) : string :=
  match v with
  | JsNull => "Cannot read properties of null (reading '" +:+ property +:+ "')"
  | JsUndefined => typeError property
  end.

(** ** Helper functions *)

(** The pattern of [extractNotionPageId] at the head of [s]: five groups
    of 8, 4, 4, 4 and 12 alphanumerics, a dash allowed between groups. *)
Definition pageIdHere (s : string) : option string :=
  match Js.alnums 8 s with
  | Some (g1, s1) =>
      let '(d1, s1) := Js.optDash s1 in
      match Js.alnums 4 s1 with
      | Some (g2, s2) =>
          let '(d2, s2) := Js.optDash s2 in
          match Js.alnums 4 s2 with
          | Some (g3, s3) =>
              let '(d3, s3) := Js.optDash s3 in
              match Js.alnums 4 s3 with
              | Some (g4, s4) =>
                  let '(d4, s4) := Js.optDash s4 in
                  match Js.alnums 12 s4 with
                  | Some (g5, _) =>
                      Some (g1 +:+ d1 +:+ g2 +:+ d2 +:+ g3 +:+ d3 +:+ g4 +:+ d4 +:+ g5)
                  | None => None
                  end
              | None => None
              end
          | None => None
          end
      | None => None
      end
  | None => None
  end.

(** [url.match(...)]: the leftmost match. *)
Fixpoint pageIdMatch (s : string) : option string :=
  match pageIdHere s with
  | Some m => Some m
  | None =>
      match s with
      | EmptyString => None
      | String _ s' => pageIdMatch s'
      end
  end.

Definition extractNotionPageId (url : string) : Completion string :=
  match pageIdMatch url with
  | None => Throw "Could not extract page ID from Notion URL"
  | Some m => Return (Js.removeDashes m)
  end.

(** ** Tool definitions *)

Record Tool := {
  name : string;
  description : string;
  inputProperties : list string;   (* keys of inputSchema.properties *)
  required : list string           (* inputSchema.required *)
}.

Definition TOOLS : list Tool := [
  {| name := "puppeteer_create_session";
     description := "Create a new cloud browser session using Browserbase";
     inputProperties := []; required := [] |};
  {| name := "puppeteer_navigate";
     description := "Navigate to a URL";
     inputProperties := ["url"]; required := ["url"] |};
  {| name := "puppeteer_screenshot";
     description := "Take a screenshot of the current page or a specific element";
     inputProperties := ["name"; "selector"; "width"; "height"];
     required := ["name"] |};
  {| name := "puppeteer_click";
     description := "Click an element on the page";
     inputProperties := ["selector"]; required := ["selector"] |};
  {| name := "puppeteer_fill";
     description := "Fill out an input field";
     inputProperties := ["selector"; "value"]; required := ["selector"; "value"] |};
  {| name := "puppeteer_evaluate";
     description := "Execute JavaScript in the browser console";
     inputProperties := ["script"]; required := ["script"] |};
  {| name := "puppeteer_get_content";
     description := "Extract all content from the current page";
     inputProperties := ["selector"]; required := [] |};
  {| name := "puppeteer_parallel_sessions";
     description := "Create multiple browser sessions and navigate to different URLs";
     inputProperties := ["sessions"]; required := ["sessions"] |};
  {| name := "notion_read_page";
     description := "Read content from a Notion page";
     inputProperties := ["pageUrl"]; required := [] |};
  {| name := "notion_update_page";
     description := "Update content in a Notion page";
     inputProperties := ["pageId"; "content"]; required := ["pageId"; "content"] |};
  {| name := "notion_append_content";
     description := "Append content to a Notion page";
     inputProperties := ["pageId"; "content"]; required := ["pageId"; "content"] |};
  {| name := "notion_read_comments";
     description := "Read comments from a Notion page";
     inputProperties := ["pageId"]; required := ["pageId"] |};
  {| name := "notion_add_comment";
     description := "Add a comment to a Notion page";
     inputProperties := ["pageId"; "comment"]; required := ["pageId"; "comment"] |};
  {| name := "notion_add_to_database";
     description := "Add a new entry to a Notion database";
     inputProperties := ["databaseId"; "title"; "tags"; "properties"; "content"];
     required := ["title"] |}
].

(** ** Arguments and results of a tool call *)

Record SessionItem := { item_url : option string; item_id : option string }.

(** The argument payload, [args: any]: the fields the handler reads, each
    possibly [undefined] ([None]), with the types the tool schemas give
    them; [width] and [height] are taken to be integers. *)
Record Args := {
  arg_sessionId : option string;
  arg_url : option string;
  arg_name : option string;
  arg_selector : option string;
  arg_width : option Z;
  arg_height : option Z;
  arg_value : option string;
  arg_script : option string;
  arg_sessions : option (list SessionItem);
  arg_pageUrl : option string;
  arg_pageId : option string;
  arg_content : option string;
  arg_comment : option string;
  arg_databaseId : option string;
  arg_title : option string;
  arg_tags : option (list string);
  arg_properties : option (list (string * Json))
}.

(** The payload with only [sessionId] set. *)
Definition noArgs (sessionId : option string) : Args :=
  {| arg_sessionId := sessionId; arg_url := None; arg_name := None;
     arg_selector := None; arg_width := None; arg_height := None;
     arg_value := None; arg_script := None; arg_sessions := None;
     arg_pageUrl := None; arg_pageId := None; arg_content := None;
     arg_comment := None; arg_databaseId := None; arg_title := None;
     arg_tags := None; arg_properties := None |}.

Inductive Content :=
| TextContent (text : string)
| ImageContent (data mimeType : string).

Record CallToolResult := { content : list Content; isError : bool }.

Record ToolResponse := { toolResult : CallToolResult }.

(** The envelope with a single text item. *)
Definition textResult (text : string) (isError : bool) : ToolResponse :=
  {| toolResult := {| content := [TextContent text]; isError := isError |} |}.

(** One element of the array the bulk tool reports. *)
Inductive Entry :=
| Loaded (id url : option string) (content : string)
| Failed (id url : option string) (error : string).

Definition jsonOfString (o : option string) : Json :=
  match o with
  | Some s => JStr s
  | None => JUndefined
  end.

Definition jsonOfEntry (e : Entry) : Json :=
  match e with
  | Loaded id url content =>
      JObj [("id", jsonOfString id); ("url", jsonOfString url); ("content", JStr content)]
  | Failed id url error =>
      JObj [("id", jsonOfString id); ("url", jsonOfString url); ("error", JStr error)]
  end.

(** A suspended or settled run of the bulk tool's per-item function: the
    request it awaits with that request's completion, or its outcome. *)
Inductive Task :=
| AwaitConnect (b : Browser) (r : Completion unit)
| AwaitPages (b : Browser) (r : Completion nat)
| AwaitGoto (p : Page) (r : Completion unit)
| AwaitEvaluate (r : Completion string)
| Fulfilled (e : Entry)
| Rejected (message : string).

(** ** Session creation *)

(** The listener [createNewBrowserSession] installs with [page.on]: one
    log entry and one notification per console message. *)
Definition consoleListener (sessionId : option string) (msgType msgText : string)
    (st : State) : State :=
  let logEntry :=
    "[Session " +:+ Js.str sessionId +:+ "][" +:+ msgType +:+ "] " +:+ msgText in
  with_notifications (fun sent => sent ++ [CloudMessage logEntry])
    (with_consoleLogs (fun logs => logs ++ [logEntry]) st).

(** A console message on page [p] runs every listener installed on [p],
    in the order they were installed. *)
Definition pageConsole (p : Page) (msgType msgText : string) (st : State) : State :=
  fold_left
    (fun st' h =>
       if decide (fst h = p) then consoleListener (snd h) msgType msgText st' else st')
    (handlers st) st.

(** [(await browser.pages())[0]]. *)
Definition firstPage (b : Browser) (count : nat) : option Page :=
  match count with
  | O => None
  | S _ => Some {| pageBrowser := b; pageIndex := 0 |}
  end.

(** [createNewBrowserSession] after its two awaits: store the pair, then
    install the listener, which throws when there is no page. *)
Definition registerSession (sessionId : option string) (b : Browser) (count : nat)
    : M Session :=
  let page := firstPage b count in
  let* _ := modify (with_browsers <[sessionId := {| browser := b; page := page |}]>) in
  match page with
  | None => throw (typeError "on")
  | Some p =>
      let* _ := modify (with_handlers (fun hs => hs ++ [(p, sessionId)])) in
      ret {| browser := b; page := page |}
  end.

Section Server.

Context (w : World).

Definition NOTION_PAGE_URL : string :=
  Js.or_else (env_NOTION_PAGE_URL w) "https://www.notion.so/default-page".

Definition NOTION_DATABASE_ID : string :=
  Js.or_else (env_NOTION_DATABASE_ID w) "default-database-id".

(** The call [puppeteer.connect(...)]: the handle the connection will
    have, and how the connection attempt ends. *)
Definition issueConnect : M (Browser * Completion unit) :=
  fun st =>
    match issue Connect (connect w) st with
    | (Return r, st') => (Return (requested st, r), st')
    | (Throw e, st') => (Throw e, st')
    end.

Definition createNewBrowserSession (sessionId : option string) : M Session :=
  let* c := issueConnect in
  let* _ := settle (snd c) in
  let* count := request (Pages (fst c)) (fun t => pages w t (fst c)) in
  registerSession sessionId (fst c) count.

(** ** Bulk navigation: one task per item under [Promise.all] *)

(** The per-item function up to its first await. *)
Definition startTask (s : SessionItem) : M Task :=
  let* c := issueConnect in
  ret (AwaitConnect (fst c) (snd c)).

Fixpoint startAll (items : list SessionItem) : M (list (SessionItem * Task)) :=
  match items with
  | [] => ret []
  | s :: rest =>
      let* t := startTask s in
      let* ts := startAll rest in
      ret ((s, t) :: ts)
  end.

(** The per-item function from one await to the next.  The first two
    awaits belong to [createNewBrowserSession], outside the item's
    [try]; the last two are inside it. *)
Definition resumeBody (s : SessionItem) (t : Task) : M Task :=
  match t with
  | AwaitConnect b r =>
      let* _ := settle r in
      let* r' := issue (Pages b) (fun t => pages w t b) in
      ret (AwaitPages b r')
  | AwaitPages b r =>
      let* count := settle r in
      let* session := registerSession (item_id s) b count in
      match page session with
      | Some p =>
          let* r' := issue (Goto p (item_url s)) (fun t => goto w t p (item_url s)) in
          ret (AwaitGoto p r')
      | None => ret (Fulfilled (Failed (item_id s) (item_url s) (typeError "goto")))
      end
  | AwaitGoto p r =>
      try_catch
        (let* _ := settle r in
         let* r' := issue (Evaluate p BodyInnerText None)
                          (fun t => evaluateInnerText w t p) in
         ret (AwaitEvaluate r'))
        (fun e => ret (Fulfilled (Failed (item_id s) (item_url s) e)))
  | AwaitEvaluate r =>
      try_catch
        (let* content := settle r in
         ret (Fulfilled (Loaded (item_id s) (item_url s) content)))
        (fun e => ret (Fulfilled (Failed (item_id s) (item_url s) e)))
  | Fulfilled _ | Rejected _ => ret t
  end.

(** An error that escapes the per-item function rejects its promise. *)
Definition resume (s : SessionItem) (t : Task) (st : State) : Task * State :=
  match resumeBody s t st with
  | (Return t', st') => (t', st')
  | (Throw e, st') => (Rejected e, st')
  end.

Definition settled (t : Task) : bool :=
  match t with
  | Fulfilled _ | Rejected _ => true
  | _ => false
  end.

Definition pendingCount (ts : list (SessionItem * Task)) : nat :=
  length (List.filter (fun st => negb (settled (snd st))) ts).

(** Resume the [k]-th task that is still suspended. *)
Fixpoint resumeNth (k : nat) (ts : list (SessionItem * Task)) (st : State)
    : list (SessionItem * Task) * State :=
  match ts with
  | [] => ([], st)
  | (s, t) :: ts' =>
      if settled t
      then let '(ts'', st') := resumeNth k ts' st in ((s, t) :: ts'', st')
      else match k with
           | O => let '(t', st') := resume s t st in ((s, t') :: ts', st')
           | S k' => let '(ts'', st') := resumeNth k' ts' st in ((s, t) :: ts'', st')
           end
  end.

(** The reason of the rejected task, if there is one. *)
Fixpoint rejection (ts : list (SessionItem * Task)) : option string :=
  match ts with
  | [] => None
  | (_, Rejected e) :: _ => Some e
  | _ :: ts' => rejection ts'
  end.

(** The values of the fulfilled tasks, in item order. *)
Definition fulfilments (ts : list (SessionItem * Task)) : list Entry :=
  omap (fun st => match snd st with
                  | Fulfilled e => Some e
                  | _ => None
                  end) ts.

(** The event loop until [Promise.all] settles: it stops at the first
    rejection, or when no task is suspended any more. *)
Fixpoint runTasks (turns : nat) (ts : list (SessionItem * Task)) (st : State)
    : list (SessionItem * Task) * State :=
  match turns with
  | O => (ts, st)
  | S turns' =>
      match rejection ts, pendingCount ts with
      | Some _, _ => (ts, st)
      | None, O => (ts, st)
      | None, S n =>
          let '(ts', st') :=
            resumeNth (schedule w (clock st) turns mod S n) ts st in
          runTasks turns' ts' st'
      end
  end.

(** The tasks of [Promise.all(args.sessions.map(async (session) => ...))]
    at the moment it settles: every task is started, then the event
    loop runs them.  Every task settles within four resumptions. *)
Definition settleAll (items : list SessionItem) : M (list (SessionItem * Task)) :=
  fun st =>
    match startAll items st with
    | (Return ts0, st0) =>
        let '(ts, st') := runTasks (4 * length items) ts0 st0 in
        (Return ts, st')
    | (Throw e, st0) => (Throw e, st0)
    end.

(** [await Promise.all(...)]: the reason of the rejected task, or the
    values of the tasks. *)
Definition promiseAll (items : list SessionItem) : M (list Entry) :=
  let* ts := settleAll items in
  match rejection ts with
  | Some e => throw e
  | None => ret (fulfilments ts)
  end.

(** ** Tool handler *)

(** The first statement of [handleToolCall]: every tool but the bulk
    one takes the registered session of [args.sessionId], or creates
    it. *)
Definition resolveDefault (name : string) (args : Args) : M (option Session) :=
  if negb (String.eqb name "puppeteer_parallel_sessions")
  then fun st =>
         match browsers st !! arg_sessionId args with
         | Some session => (Return (Some session), st)
         | None =>
             (let* session := createNewBrowserSession (arg_sessionId args) in
              ret (Some session)) st
         end
  else ret None.

(** [defaultSession!.page], about to be used for [method]. *)
Definition pageOf (defaultSession : option Session) (method : string) : M Page :=
  match defaultSession with
  | None => throw "Cannot read properties of null (reading 'page')"
  | Some session =>
      match page session with
      | None => throw (typeError method)
      | Some p => ret p
      end
  end.

Definition case_create_session (args : Args) (defaultSession : option Session)
    : M ToolResponse :=
  try_catch
    (let* _ := createNewBrowserSession (arg_sessionId args) in
     ret (textResult "Created new browser session" false))
    (fun e => ret (textResult ("Failed to create browser session: " +:+ e) true)).

Definition case_navigate (args : Args) (defaultSession : option Session)
    : M ToolResponse :=
  let* p := pageOf defaultSession "goto" in
  let* _ := request (Goto p (arg_url args)) (fun t => goto w t p (arg_url args)) in
  ret (textResult ("Navigated to " +:+ Js.str (arg_url args)) false).

(** [page.setViewport]: a request that, when it succeeds, changes the
    page's viewport. *)
Definition page_setViewport (p : Page) (width height : Z) : M unit :=
  let* _ := request (SetViewport p width height)
                    (fun t => setViewport w t p width height) in
  modify (with_viewports <[p := (width, height)]>).

Definition case_screenshot (args : Args) (defaultSession : option Session)
    : M ToolResponse :=
  let width := default 800 (arg_width args) in
  let height := default 600 (arg_height args) in
  let* p := pageOf defaultSession "setViewport" in
  let* _ := page_setViewport p width height in
  let* screenshot :=
    (if Js.truthy (arg_selector args)
     then
       let selector := Js.str (arg_selector args) in
       let* found := request (Query p selector) (fun t => query w t p selector) in
       if found : bool
       then let* data := request (ElementScreenshot p selector)
                                 (fun t => elementScreenshot w t p selector) in
            ret (Some data)
       else ret None
     else
       let* data := request (PageScreenshot p) (fun t => pageScreenshot w t p) in
       ret (Some data)) in
  if Js.truthy screenshot
  then
    let* _ := modify (with_screenshots
                        (JsMap.set (arg_name args) (Js.str screenshot))) in
    let* _ := modify (with_notifications
                        (fun sent => sent ++ [ResourcesListChanged])) in
    ret {| toolResult :=
             {| content :=
                  [TextContent ("Screenshot '" +:+ Js.str (arg_name args)
                                +:+ "' taken at " +:+ Js.num width
                                +:+ "x" +:+ Js.num height);
                   ImageContent (Js.str screenshot) "image/png"];
                isError := false |} |}
  else
    ret (textResult
           (if Js.truthy (arg_selector args)
            then "Element not found: " +:+ Js.str (arg_selector args)
            else "Screenshot failed")
           true).

Definition case_click (args : Args) (defaultSession : option Session)
    : M ToolResponse :=
  try_catch
    (let* p := pageOf defaultSession "click" in
     let* _ := request (Click p (arg_selector args))
                       (fun t => click w t p (arg_selector args)) in
     ret (textResult ("Clicked: " +:+ Js.str (arg_selector args)) false))
    (fun e =>
       ret (textResult ("Failed to click " +:+ Js.str (arg_selector args)
                        +:+ ": " +:+ e) true)).

Definition case_fill (args : Args) (defaultSession : option Session)
    : M ToolResponse :=
  try_catch
    (let* p := pageOf defaultSession "waitForSelector" in
     let* _ := request (WaitForSelector p (arg_selector args))
                       (fun t => waitForSelector w t p (arg_selector args)) in
     let* _ := request (TypeText p (arg_selector args) (arg_value args))
                       (fun t => typeText w t p (arg_selector args) (arg_value args)) in
     ret (textResult ("Filled " +:+ Js.str (arg_selector args) +:+ " with: "
                      +:+ Js.str (arg_value args)) false))
    (fun e =>
       ret (textResult ("Failed to fill " +:+ Js.str (arg_selector args)
                        +:+ ": " +:+ e) true)).

(** [page.evaluate] of the caller's script: the request is recorded
    with whether its promise was fulfilled. *)
Definition issueScript (p : Page) (script : option string) : M ScriptOutcome :=
  fun st =>
    let outcome := evaluateScript w (clock st) p script in
    (Return outcome,
     with_trace (fun tr => tr ++ [(Evaluate p RunScript script, fulfilled outcome)]) st).

(** The [catch] block reads [(error as Error).message].  Every other
    tool awaits requests that are rejected with an [Error]; here the
    reason may be the [null] or [undefined] the caller's script threw,
    and reading [message] from it throws a [TypeError] out of the
    handler: [inr] carries that reason past the [catch]. *)
Definition case_evaluate (args : Args) (defaultSession : option Session)
    : M ToolResponse :=
  let* caught :=
    try_catch
      (let* p := pageOf defaultSession "evaluate" in
       let* outcome := issueScript p (arg_script args) in
       match outcome with
       | Evaluated result logs =>
           ret (inl (textResult
                       ("Execution result:" +:+ Js.newline +:+ JSON.stringify result
                        +:+ Js.newline +:+ Js.newline +:+ "Console output:"
                        +:+ Js.newline +:+ Js.join Js.newline logs)
                       false))
       | ScriptError e => throw e
       | ScriptThrewNullish reason => ret (inr reason)
       end)
      (fun e => ret (inl (textResult ("Script execution failed: " +:+ e) true))) in
  match caught with
  | inl response => ret response
  | inr reason => throw (typeErrorOn reason "message")
  end.

Definition case_get_json (args : Args) (defaultSession : option Session)
    : M ToolResponse :=
  try_catch
    (let* p := pageOf defaultSession "evaluate" in
     let* result := request (Evaluate p FindJson (arg_selector args))
                            (fun t => evaluateJson w t p (arg_selector args)) in
     ret (textResult
            ("Found JSON content:" +:+ Js.newline +:+ JSON.stringify result) false))
    (fun e => ret (textResult ("Failed to extract JSON: " +:+ e) true)).

Definition case_get_content (args : Args) (defaultSession : option Session)
    : M ToolResponse :=
  try_catch
    (let selector :=
       if Js.truthy (arg_selector args) then arg_selector args else None in
     let* p := pageOf defaultSession "evaluate" in
     let* content := request (Evaluate p ElementsText selector)
                             (fun t => evaluateContent w t p selector) in
     ret (textResult
            ("Extracted content:" +:+ Js.newline
             +:+ JSON.stringify (JArr (List.map JStr content))) false))
    (fun e => ret (textResult ("Failed to extract content: " +:+ e) true)).

Definition case_parallel_sessions (args : Args) (defaultSession : option Session)
    : M ToolResponse :=
  try_catch
    (let* items :=
       match arg_sessions args with
       | Some items => ret items
       | None => throw (typeError "length")
       end in
     let* results := promiseAll items in
     ret (textResult
            ("Parallel sessions results:" +:+ Js.newline
             +:+ JSON.stringify (JArr (List.map jsonOfEntry results))) false))
    (fun e => ret (textResult ("Failed to execute parallel sessions: " +:+ e) true)).

Definition case_notion_read_page (args : Args) (defaultSession : option Session)
    : M ToolResponse :=
  try_catch
    (let pageUrl := Js.or_else (arg_pageUrl args) NOTION_PAGE_URL in
     let* pageId := settle (extractNotionPageId pageUrl) in
     let* pageContent := request (ListChildren pageId)
                                 (fun t => listChildren w t pageId) in
     ret (textResult (JSON.stringify pageContent) false))
    (fun e => ret (textResult ("Failed to read page: " +:+ e) true)).

Definition case_notion_update_page (args : Args) (defaultSession : option Session)
    : M ToolResponse :=
  try_catch
    (let* _ := request (AppendChildren (arg_pageId args) (arg_content args))
                       (fun t => appendChildren w t (arg_pageId args) (arg_content args)) in
     ret (textResult "Page updated successfully" false))
    (fun e => ret (textResult ("Failed to update page: " +:+ e) true)).

Definition case_notion_append_content (args : Args) (defaultSession : option Session)
    : M ToolResponse :=
  try_catch
    (let* _ := request (AppendChildren (arg_pageId args) (arg_content args))
                       (fun t => appendChildren w t (arg_pageId args) (arg_content args)) in
     ret (textResult "Content appended successfully" false))
    (fun e => ret (textResult ("Failed to append content: " +:+ e) true)).

Definition case_notion_read_comments (args : Args) (defaultSession : option Session)
    : M ToolResponse :=
  try_catch
    (let* comments := request (ListComments (arg_pageId args))
                              (fun t => listComments w t (arg_pageId args)) in
     ret (textResult (JSON.stringify comments) false))
    (fun e => ret (textResult ("Failed to read comments: " +:+ e) true)).

Definition case_notion_add_comment (args : Args) (defaultSession : option Session)
    : M ToolResponse :=
  try_catch
    (let* _ := request (CreateComment (arg_pageId args) (arg_comment args))
                       (fun t => createComment w t (arg_pageId args) (arg_comment args)) in
     ret (textResult "Comment added successfully" false))
    (fun e => ret (textResult ("Failed to add comment: " +:+ e) true)).

(** [target[key] = value] on the own properties of an ordinary object,
    listed in the order they were created.  The key [__proto__], unless
    the object has it as an own property, reaches the setter of
    [Object.prototype]: the prototype changes or nothing happens, and no
    own property is created. *)
Definition setProperty (key : string) (value : Json) (o : list (string * Json))
    : list (string * Json) :=
  if String.eqb key "__proto__" && negb (bool_decide (is_Some (JsMap.get key o)))
  then o
  else JsMap.set key value o.

(** [Object.assign(target, source)]: every own property of the source
    is set on the target. *)
Definition assign (target source : list (string * Json)) : list (string * Json) :=
  fold_left (fun o kv => setProperty (fst kv) (snd kv) o) source target.

Definition isIndex (kv : string * Json) : Prop := is_Some (Js.arrayIndex (fst kv)).

Definition indexLe (kv1 kv2 : string * Json) : Prop :=
  (default 0 (Js.arrayIndex (fst kv1)) <= default 0 (Js.arrayIndex (fst kv2)))%N.

#[global] Instance indexLe_dec kv1 kv2 : Decision (indexLe kv1 kv2).
Proof. unfold indexLe. apply _. Defined.

(** The own properties in the order the object lists them, as
    [JSON.stringify] and [Object.keys] do: the array indices in
    ascending order, then the other keys in the order they were
    created. *)
Definition ownProperties (created : list (string * Json)) : list (string * Json) :=
  merge_sort indexLe (filter isIndex created)
  ++ filter (fun kv => ~ isIndex kv) created.

(** The [properties] object [notion_add_to_database] builds. *)
Definition databaseProperties (args : Args) : list (string * Json) :=
  let named :=
    [("Name",
      JObj [("title",
             JArr [JObj [("text",
                          JObj [("content", jsonOfString (arg_title args))])]])])] in
  let tagged :=
    match arg_tags args with
    | Some (tag :: tags) =>
        named ++ [("Tags",
                   JObj [("multi_select",
                          JArr (List.map (fun t => JObj [("name", JStr t)])
                                         (tag :: tags)))])]
    | _ => named
    end in
  ownProperties
    match arg_properties args with
    | Some extra => assign tagged extra
    | None => tagged
    end.

Definition case_notion_add_to_database (args : Args) (defaultSession : option Session)
    : M ToolResponse :=
  try_catch
    (let properties := JObj (databaseProperties args) in
     let database_id := Js.or_else (arg_databaseId args) NOTION_DATABASE_ID in
     let children :=
       if Js.truthy (arg_content args) then arg_content args else None in
     let* id := request (CreatePage database_id properties children)
                        (fun t => createPage w t database_id properties children) in
     ret (textResult
            ("Created database entry: https://notion.so/" +:+ Js.removeDashes id)
            false))
    (fun e => ret (textResult ("Failed to create database entry: " +:+ e) true)).

(** The [case] labels of the [switch], each with its body. *)
Definition cases : list (string * (Args -> option Session -> M ToolResponse)) := [
  ("puppeteer_create_session", case_create_session);
  ("puppeteer_navigate", case_navigate);
  ("puppeteer_screenshot", case_screenshot);
  ("puppeteer_click", case_click);
  ("puppeteer_fill", case_fill);
  ("puppeteer_evaluate", case_evaluate);
  ("puppeteer_get_json", case_get_json);
  ("puppeteer_get_content", case_get_content);
  ("puppeteer_parallel_sessions", case_parallel_sessions);
  ("notion_read_page", case_notion_read_page);
  ("notion_update_page", case_notion_update_page);
  ("notion_append_content", case_notion_append_content);
  ("notion_read_comments", case_notion_read_comments);
  ("notion_add_comment", case_notion_add_comment);
  ("notion_add_to_database", case_notion_add_to_database)
].

(** The names the [switch] has a [case] for. *)
Definition dispatched : list string := JsMap.keys cases.

Definition case_default (name : string) : M ToolResponse :=
  ret (textResult ("Unknown tool: " +:+ name) true).

Definition handleToolCall (name : string) (args : Args) : M ToolResponse :=
  let* defaultSession := resolveDefault name args in
  match JsMap.get name cases with
  | Some body => body args defaultSession
  | None => case_default name
  end.

End Server.

(** ** Resource handlers *)

Record Resource := { uri : string; res_mimeType : string; res_name : string }.

(** The handler of [ListResourcesRequestSchema]. *)
Definition listResources (st : State) : list Resource :=
  {| uri := "console://logs"; res_mimeType := "text/plain";
     res_name := "Browser console logs" |}
  :: List.map (fun name =>
                 {| uri := "screenshot://" +:+ Js.str name;
                    res_mimeType := "image/png";
                    res_name := "Screenshot: " +:+ Js.str name |})
              (JsMap.keys (screenshots st)).

Inductive ResourceContents :=
| TextResource (uri mimeType text : string)
| BlobResource (uri mimeType blob : string).

(** The handler of [ReadResourceRequestSchema]; it returns an object
    with the one-element array [contents]. *)
Definition readResource (st : State) (uri : string) : Completion ResourceContents :=
  if String.eqb uri "console://logs"
  then Return (TextResource uri "text/plain" (Js.join Js.newline (consoleLogs st)))
  else
    let notFound := Throw ("Resource not found: " +:+ uri) in
    if Js.startsWith uri "screenshot://"
    then
      let name := Js.split uri "://" !! 1%nat in
      match JsMap.get name (screenshots st) with
      | Some screenshot =>
          if Js.truthy (Some screenshot)
          then Return (BlobResource uri "image/png" screenshot)
          else notFound
      | None => notFound
      end
    else notFound.

(** The handler of [ListToolsRequestSchema]. *)
Definition listTools : list Tool := TOOLS.


(** ** Sequences of captures *)

(** The screenshot map after a sequence of successful captures, each a
    name with its payload, starting from the empty map. *)
Definition captured (captures : list (option string * string))
    : list (option string * string) :=
  fold_left (fun m c => JsMap.set (fst c) (snd c) m) captures [].

(** Whether [sep] occurs somewhere in [s]. *)
Fixpoint occurs (sep s : string) : bool :=
  String.prefix sep s
  || match s with
     | EmptyString => false
     | String _ s' => occurs sep s'
     end.

(** ** Measures and invariants of the bulk tool's tasks *)

(** Resumptions a task may still need. *)
Definition rank (t : Task) : nat :=
  match t with
  | AwaitConnect _ _ => 4
  | AwaitPages _ _ => 3
  | AwaitGoto _ _ => 2
  | AwaitEvaluate _ => 1
  | Fulfilled _ | Rejected _ => 0
  end.

Fixpoint totalRank (ts : list (SessionItem * Task)) : nat :=
  match ts with
  | [] => 0
  | (_, t) :: ts' => rank t + totalRank ts'
  end.





(** A task whose connection failed with [e], before and after it
    learns of it. *)
Definition doomed (e : string) (t : Task) : Prop :=
  match t with
  | AwaitConnect _ r => r = Throw e
  | Rejected e' => e' = e
  | _ => False
  end.

(** Requests that set up a session, and requests that look for or
    capture what is to be photographed. *)
Definition isSessionCall (e : Call * bool) : bool :=
  match fst e with
  | Connect | Pages _ => true
  | _ => false
  end.


(** ** Sample worlds and payloads *)

(** A world in which every request succeeds: a browser has one page, no
    selector matches an element, and the event loop always resumes the
    first suspended task. *)
Definition calm : World := {|
  connect := fun _ => Return tt;
  pages := fun _ _ => Return 1%nat;
  goto := fun _ _ _ => Return tt;
  setViewport := fun _ _ _ _ => Return tt;
  query := fun _ _ _ => Return false;
  elementScreenshot := fun _ _ _ => Return "ZWxlbWVudA==";
  pageScreenshot := fun _ _ => Return "cGFnZQ==";
  click := fun _ _ _ => Return tt;
  waitForSelector := fun _ _ _ => Return tt;
  typeText := fun _ _ _ _ => Return tt;
  evaluateScript := fun _ _ _ => Evaluated (JNum "2") [];
  evaluateJson := fun _ _ _ => Return (JObj []);
  evaluateContent := fun _ _ _ => Return [];
  evaluateInnerText := fun _ _ => Return "Example Domain";
  listChildren := fun _ _ => Return (JObj []);
  appendChildren := fun _ _ _ => Return tt;
  listComments := fun _ _ => Return (JObj []);
  createComment := fun _ _ _ => Return tt;
  createPage := fun _ _ _ _ => Return "59833787-2cf9-4fdf-8782-e53db20768a5";
  env_NOTION_PAGE_URL := None;
  env_NOTION_DATABASE_ID := None;
  schedule := fun _ _ => O
|}.

Definition withConnect (f : Time -> Completion unit) (w : World) : World := {|
  connect := f;
  pages := pages w; goto := goto w; setViewport := setViewport w;
  query := query w; elementScreenshot := elementScreenshot w;
  pageScreenshot := pageScreenshot w; click := click w;
  waitForSelector := waitForSelector w; typeText := typeText w;
  evaluateScript := evaluateScript w; evaluateJson := evaluateJson w;
  evaluateContent := evaluateContent w; evaluateInnerText := evaluateInnerText w;
  listChildren := listChildren w; appendChildren := appendChildren w;
  listComments := listComments w; createComment := createComment w;
  createPage := createPage w; env_NOTION_PAGE_URL := env_NOTION_PAGE_URL w;
  env_NOTION_DATABASE_ID := env_NOTION_DATABASE_ID w; schedule := schedule w
|}.

Definition withGoto (f : Time -> Page -> option string -> Completion unit)
    (w : World) : World := {|
  goto := f;
  connect := connect w; pages := pages w; setViewport := setViewport w;
  query := query w; elementScreenshot := elementScreenshot w;
  pageScreenshot := pageScreenshot w; click := click w;
  waitForSelector := waitForSelector w; typeText := typeText w;
  evaluateScript := evaluateScript w; evaluateJson := evaluateJson w;
  evaluateContent := evaluateContent w; evaluateInnerText := evaluateInnerText w;
  listChildren := listChildren w; appendChildren := appendChildren w;
  listComments := listComments w; createComment := createComment w;
  createPage := createPage w; env_NOTION_PAGE_URL := env_NOTION_PAGE_URL w;
  env_NOTION_DATABASE_ID := env_NOTION_DATABASE_ID w; schedule := schedule w
|}.

Definition withSetViewport (f : Time -> Page -> Z -> Z -> Completion unit)
    (w : World) : World := {|
  setViewport := f;
  connect := connect w; pages := pages w; goto := goto w;
  query := query w; elementScreenshot := elementScreenshot w;
  pageScreenshot := pageScreenshot w; click := click w;
  waitForSelector := waitForSelector w; typeText := typeText w;
  evaluateScript := evaluateScript w; evaluateJson := evaluateJson w;
  evaluateContent := evaluateContent w; evaluateInnerText := evaluateInnerText w;
  listChildren := listChildren w; appendChildren := appendChildren w;
  listComments := listComments w; createComment := createComment w;
  createPage := createPage w; env_NOTION_PAGE_URL := env_NOTION_PAGE_URL w;
  env_NOTION_DATABASE_ID := env_NOTION_DATABASE_ID w; schedule := schedule w
|}.

Definition withSchedule (f : Time -> nat -> nat) (w : World) : World := {|
  schedule := f;
  connect := connect w; pages := pages w; goto := goto w;
  setViewport := setViewport w;
  query := query w; elementScreenshot := elementScreenshot w;
  pageScreenshot := pageScreenshot w; click := click w;
  waitForSelector := waitForSelector w; typeText := typeText w;
  evaluateScript := evaluateScript w; evaluateJson := evaluateJson w;
  evaluateContent := evaluateContent w; evaluateInnerText := evaluateInnerText w;
  listChildren := listChildren w; appendChildren := appendChildren w;
  listComments := listComments w; createComment := createComment w;
  createPage := createPage w; env_NOTION_PAGE_URL := env_NOTION_PAGE_URL w;
  env_NOTION_DATABASE_ID := env_NOTION_DATABASE_ID w
|}.

(** The provider cannot be reached. *)
Definition unreachable : World :=
  withConnect (fun _ => Throw "connect ECONNREFUSED") calm.

(** Navigation fails for the URL [bad://] and succeeds for any other. *)
Definition picky : World :=
  withGoto (fun _ _ url =>
              if decide (url = Some "bad://")
              then Throw "net::ERR_ABORTED at bad://"
              else Return tt) calm.

(** The browser refuses a viewport with a negative side. *)
Definition strict : World :=
  withSetViewport (fun _ _ width height =>
                     if (width <? 0) || (height <? 0)
                     then Throw "Protocol error (Emulation.setDeviceMetricsOverride): Invalid parameters"
                     else Return tt) calm.

(** The second connection that is requested fails, and the event loop
    resumes the last suspended task first. *)
Definition flaky : World :=
  withSchedule (fun _ _ => 1%nat)
    (withConnect (fun t => if (t =? 1)%nat then Throw "connect ECONNREFUSED" else Return tt)
                 calm).

Definition navigateArgs (sessionId url : string) : Args :=
  {| arg_sessionId := Some sessionId; arg_url := Some url; arg_name := None;
     arg_selector := None; arg_width := None; arg_height := None;
     arg_value := None; arg_script := None; arg_sessions := None;
     arg_pageUrl := None; arg_pageId := None; arg_content := None;
     arg_comment := None; arg_databaseId := None; arg_title := None;
     arg_tags := None; arg_properties := None |}.

Definition screenshotArgs (sessionId name : string) (selector : option string)
    (width height : option Z) : Args :=
  {| arg_sessionId := Some sessionId; arg_url := None; arg_name := Some name;
     arg_selector := selector; arg_width := width; arg_height := height;
     arg_value := None; arg_script := None; arg_sessions := None;
     arg_pageUrl := None; arg_pageId := None; arg_content := None;
     arg_comment := None; arg_databaseId := None; arg_title := None;
     arg_tags := None; arg_properties := None |}.

Definition bulkArgs (items : list SessionItem) : Args :=
  {| arg_sessionId := None; arg_url := None; arg_name := None;
     arg_selector := None; arg_width := None; arg_height := None;
     arg_value := None; arg_script := None; arg_sessions := Some items;
     arg_pageUrl := None; arg_pageId := None; arg_content := None;
     arg_comment := None; arg_databaseId := None; arg_title := None;
     arg_tags := None; arg_properties := None |}.


(** The first page of the first browser, the session made of them, and
    the state once that session is registered as [s1]. *)
Definition page0 : Page := {| pageBrowser := 0%nat; pageIndex := 0 |}.

Definition session0 : Session := {| browser := 0%nat; page := Some page0 |}.

Definition oneSession : State :=
  {| browsers := {[ Some "s1" := session0 ]}; consoleLogs := [];
     screenshots := []; handlers := [(page0, Some "s1")]; notifications := [];
     viewports := ∅; trace := [(Connect, true); (Pages 0%nat, true)] |}.

(** The two items of the bulk example. *)
Definition twoItems : list SessionItem :=
  [ {| item_url := Some "https://x"; item_id := Some "a" |};
    {| item_url := Some "bad://"; item_id := Some "b" |} ].

(** ** Start-up validation *)

(** The three variables the module refuses to start without. *)
Record Env := {
  NOTION_API_KEY : option string;
  BROWSERBASE_API_KEY : option string;
  BROWSERBASE_PROJECT_ID : option string
}.

Definition requiredEnvVars (env : Env) : list (string * option string) :=
  [ ("NOTION_API_KEY", NOTION_API_KEY env);
    ("BROWSERBASE_API_KEY", BROWSERBASE_API_KEY env);
    ("BROWSERBASE_PROJECT_ID", BROWSERBASE_PROJECT_ID env) ].

(** [entries.forEach(([name, value]) => { if (!value) throw ... })]. *)
Fixpoint validate (entries : list (string * option string)) : Completion unit :=
  match entries with
  | [] => Return tt
  | (name, value) :: rest =>
      if Js.truthy value
      then validate rest
      else Throw (name +:+ " environment variable is required")
  end.

Definition validateEnv (env : Env) : Completion unit :=
  validate (requiredEnvVars env).

(** ** The request handler of [CallToolRequestSchema] *)

(** [handleToolCall(request.params.name, request.params.arguments ?? {})]. *)
Definition callTool (w : World) (name : string) (arguments : option Args)
    : M ToolResponse :=
  handleToolCall w name (default (noArgs None) arguments).

(** ** Runs of the server *)

(** The tasks a tool call leaves suspended when it answers.  The bulk
    tool answers as soon as its [Promise.all] settles; when that is a
    rejection, the tasks of the other items may still await a request,
    and they run on after the answer.  The tasks are those of the
    [Promise.all] of the call: the bulk tool skips the session
    resolution and reaches it in the state in which it was called. *)
Definition abandoned (w : World) (name : string) (args : Args) (st : State)
    : list (SessionItem * Task) :=
  if String.eqb name "puppeteer_parallel_sessions"
  then match arg_sessions args with
       | Some items =>
           match settleAll w items st with
           | (Return ts, _) => List.filter (fun it => negb (settled (snd it))) ts
           | (Throw _, _) => []
           end
       | None => []
       end
  else [].

(** The server between two events: the module's state, and the tasks
    that earlier bulk calls left suspended. *)
Record Process := {
  memory : State;
  suspended : list (SessionItem * Task)
}.

(** What happens to the server: a tool call arrives, a page emits a
    console message, or the event loop resumes one of the suspended
    tasks, the [k]-th of those that still await a request.  A tool call
    runs to its answer before the next event is taken. *)
Inductive Event :=
| ToolCall (name : string) (arguments : option Args)
| ConsoleMessage (p : Page) (msgType msgText : string)
| Resumption (k : nat).

Definition step (w : World) (pr : Process) (e : Event) : Process :=
  match e with
  | ToolCall name arguments =>
      {| memory := snd (callTool w name arguments (memory pr));
         suspended := suspended pr
                      ++ abandoned w name (default (noArgs None) arguments) (memory pr) |}
  | ConsoleMessage p msgType msgText =>
      {| memory := pageConsole p msgType msgText (memory pr);
         suspended := suspended pr |}
  | Resumption k =>
      let '(ts, st) := resumeNth w k (suspended pr) (memory pr) in
      {| memory := st; suspended := ts |}
  end.

(** The server after the events, from a fresh start. *)
Definition runProcess (w : World) (events : list Event) : Process :=
  fold_left (step w) events {| memory := initial; suspended := [] |}.

(** The state after the events. *)
Definition run (w : World) (events : list Event) : State :=
  memory (runProcess w events).



(** ** Page identifiers *)

Fixpoint allAlnum (s : string) : bool :=
  match s with
  | EmptyString => true
  | String c s' => Js.isAlnum c && allAlnum s'
  end.

(** A dash, or nothing. *)
Definition dashOrNot (dash : bool) : string := if dash then "-" else "".

(** ** Payloads that differ in one field *)

Definition withSelector (selector : option string) (args : Args) : Args :=
  {| arg_sessionId := arg_sessionId args; arg_url := arg_url args;
     arg_name := arg_name args; arg_selector := selector;
     arg_width := arg_width args; arg_height := arg_height args;
     arg_value := arg_value args; arg_script := arg_script args;
     arg_sessions := arg_sessions args; arg_pageUrl := arg_pageUrl args;
     arg_pageId := arg_pageId args; arg_content := arg_content args;
     arg_comment := arg_comment args; arg_databaseId := arg_databaseId args;
     arg_title := arg_title args; arg_tags := arg_tags args;
     arg_properties := arg_properties args |}.

(** ** More sample worlds *)

Definition withPages (f : Time -> Browser -> Completion nat) (w : World) : World := {|
  pages := f;
  connect := connect w; goto := goto w; setViewport := setViewport w;
  query := query w; elementScreenshot := elementScreenshot w;
  pageScreenshot := pageScreenshot w; click := click w;
  waitForSelector := waitForSelector w; typeText := typeText w;
  evaluateScript := evaluateScript w; evaluateJson := evaluateJson w;
  evaluateContent := evaluateContent w; evaluateInnerText := evaluateInnerText w;
  listChildren := listChildren w; appendChildren := appendChildren w;
  listComments := listComments w; createComment := createComment w;
  createPage := createPage w; env_NOTION_PAGE_URL := env_NOTION_PAGE_URL w;
  env_NOTION_DATABASE_ID := env_NOTION_DATABASE_ID w; schedule := schedule w
|}.

(** Browsers that report no page. *)
Definition pageless : World := withPages (fun _ _ => Return O) calm.

(** The provider answers the first two requests, then is out of reach. *)
Definition outage : World :=
  withConnect (fun t => if (t <? 2)%nat then Return tt
                        else Throw "connect ECONNREFUSED") calm.

(** A screenshot of the viewport, with no selector, named [home]. *)
Definition homeArgs : Args := screenshotArgs "s1" "home" None None None.

(** ** What a computation does to the state *)

(** [m] takes every state to one related to it by [R], however it ends. *)
Definition preserves (R : State -> State -> Prop) {A : Type} (m : M A) : Prop :=
  forall st, R st (snd (m st)).

Definition isCloudMessage (n : Notification) : bool :=
  match n with
  | CloudMessage _ => true
  | ResourcesListChanged => false
  end.

(** What every tool call leaves of the state: the console log and the
    console notifications as they were, every registered [sessionId]
    still registered, the listeners and the trace with, at most, more at
    their end, and every listener that was added installed for a
    registered [sessionId]. *)
Definition Extends (st st' : State) : Prop :=
  consoleLogs st' = consoleLogs st
  /\ List.filter isCloudMessage (notifications st')
     = List.filter isCloudMessage (notifications st)
  /\ (forall k, is_Some (browsers st !! k) -> is_Some (browsers st' !! k))
  /\ (exists added,
        handlers st' = handlers st ++ added
        /\ Forall (fun h => is_Some (browsers st' !! snd h)) added)
  /\ (exists more, trace st' = trace st ++ more).


(** The screenshot map is a map, and holds no empty payload. *)
Definition catalogWellFormed (st : State) : Prop :=
  NoDup (JsMap.keys (screenshots st))
  /\ Forall (fun kv => snd kv <> "") (screenshots st).

(** The screenshot map stays well formed. *)
Definition keepsCatalog (st st' : State) : Prop :=
  catalogWellFormed st -> catalogWellFormed st'.

(** Every listener was installed for a [sessionId] that is registered. *)
Definition listenersRegistered (st : State) : Prop :=
  Forall (fun h => is_Some (browsers st !! snd h)) (handlers st).

(** Every log entry has the form the listener of an installed
    [sessionId] gives it. *)
Definition logAttributable (st : State) : Prop :=
  Forall (fun entry =>
            exists h msgType msgText,
              h ∈ handlers st
              /\ entry = "[Session " +:+ Js.str (snd h) +:+ "][" +:+ msgType +:+ "] "
                         +:+ msgText)
         (consoleLogs st).

(** ** Listeners and connections *)

(** The browsers whose page carries a listener, in the order the
    listeners were installed. *)
Definition listenerBrowsers (st : State) : list Browser :=
  List.map (fun h => pageBrowser (fst h)) (handlers st).

(** The browser a suspended task has still to register. *)
Definition awaited (t : Task) : list Browser :=
  match t with
  | AwaitConnect b _ | AwaitPages b _ => [b]
  | _ => []
  end.

Definition awaitedAll (ts : list (SessionItem * Task)) : list Browser :=
  flat_map (fun it => awaited (snd it)) ts.

(** The listeners added from [st] to [st'] are on browsers whose
    connection was requested in between, one listener a browser. *)
Definition Fresh (st st' : State) : Prop :=
  (requested st <= requested st')%nat
  /\ exists added,
       listenerBrowsers st' = listenerBrowsers st ++ added
       /\ NoDup added
       /\ Forall (fun b => (requested st <= b < requested st')%nat) added.

(** The browsers that carry a listener or that a suspended task will
    give one are pairwise distinct, and the connection of each was
    requested. *)
Definition listenersApart (pr : Process) : Prop :=
  NoDup (listenerBrowsers (memory pr) ++ awaitedAll (suspended pr))
  /\ Forall (fun b => (b < requested (memory pr))%nat)
            (listenerBrowsers (memory pr) ++ awaitedAll (suspended pr)).



Definition withWaitForSelector (f : Time -> Page -> option string -> Completion unit)
    (w : World) : World := {|
  waitForSelector := f;
  connect := connect w; pages := pages w; goto := goto w;
  setViewport := setViewport w; query := query w;
  elementScreenshot := elementScreenshot w; pageScreenshot := pageScreenshot w;
  click := click w; typeText := typeText w;
  evaluateScript := evaluateScript w; evaluateJson := evaluateJson w;
  evaluateContent := evaluateContent w; evaluateInnerText := evaluateInnerText w;
  listChildren := listChildren w; appendChildren := appendChildren w;
  listComments := listComments w; createComment := createComment w;
  createPage := createPage w; env_NOTION_PAGE_URL := env_NOTION_PAGE_URL w;
  env_NOTION_DATABASE_ID := env_NOTION_DATABASE_ID w; schedule := schedule w
|}.

Definition withEvaluateScript (f : Time -> Page -> option string -> ScriptOutcome)
    (w : World) : World := {|
  evaluateScript := f;
  connect := connect w; pages := pages w; goto := goto w;
  setViewport := setViewport w; query := query w;
  elementScreenshot := elementScreenshot w; pageScreenshot := pageScreenshot w;
  click := click w; waitForSelector := waitForSelector w; typeText := typeText w;
  evaluateJson := evaluateJson w;
  evaluateContent := evaluateContent w; evaluateInnerText := evaluateInnerText w;
  listChildren := listChildren w; appendChildren := appendChildren w;
  listComments := listComments w; createComment := createComment w;
  createPage := createPage w; env_NOTION_PAGE_URL := env_NOTION_PAGE_URL w;
  env_NOTION_DATABASE_ID := env_NOTION_DATABASE_ID w; schedule := schedule w
|}.

(** Every script throws [null]. *)
Definition throwsNull : World :=
  withEvaluateScript (fun _ _ _ => ScriptThrewNullish JsNull) calm.

(** No selector ever shows up. *)
Definition blank : World :=
  withWaitForSelector (fun _ _ _ => Throw "Waiting for selector failed: timeout") calm.

(** A fill of the field [#q] with [rocq]. *)
Definition fillArgs : Args :=
  {| arg_sessionId := Some "s1"; arg_url := None; arg_name := None;
     arg_selector := Some "#q"; arg_width := None; arg_height := None;
     arg_value := Some "rocq"; arg_script := None; arg_sessions := None;
     arg_pageUrl := None; arg_pageId := None; arg_content := None;
     arg_comment := None; arg_databaseId := None; arg_title := None;
     arg_tags := None; arg_properties := None |}.

(** ** Facts about [JsMap] *)

Section JsMapFacts.
Context {K V : Type} `{EqDecision K}.
Implicit Types (m : list (K * V)) (k : K) (v : V).

Lemma get_None m k : JsMap.get k m = None <-> k ∉ JsMap.keys m.
Proof.
  induction m as [|[k' v'] m IH]; simpl.
  - split; [intros _; apply not_elem_of_nil | done].
  - destruct (decide (k' = k)) as [->|Hne].
    + split; [done | intros Hn; exfalso; apply Hn; left].
    + rewrite IH, not_elem_of_cons. split; [by intros ?; split | by intros [_ ?]].
Qed.

Lemma get_set_eq m k v : JsMap.get k (JsMap.set k v m) = Some v.
Proof.
  induction m as [|[k' v'] m IH]; simpl.
  - by rewrite decide_True.
  - destruct (decide (k' = k)) as [->|Hne]; simpl.
    + by rewrite decide_True.
    + by rewrite decide_False.
Qed.

Lemma get_set_ne m k k' v : k ≠ k' -> JsMap.get k' (JsMap.set k v m) = JsMap.get k' m.
Proof.
  intros Hne. induction m as [|[k0 v0] m IH]; simpl.
  - by rewrite decide_False.
  - destruct (decide (k0 = k)) as [->|Hne0]; simpl.
    + by rewrite !decide_False.
    + by rewrite IH.
Qed.

Lemma keys_set m k v :
  JsMap.keys (JsMap.set k v m)
  = if decide (k ∈ JsMap.keys m) then JsMap.keys m else JsMap.keys m ++ [k].
Proof.
  unfold JsMap.keys.
  induction m as [|[k' v'] m IH]; cbn [JsMap.set List.map fst app].
  - destruct (decide (k ∈ [])) as [Hin|_]; [by apply elem_of_nil in Hin | done].
  - destruct (decide (k' = k)) as [->|Hne]; cbn [List.map fst].
    + destruct (decide (k ∈ k :: _)) as [_|Hin]; [done | exfalso; apply Hin; left].
    + rewrite IH. destruct (decide (k ∈ List.map fst m)) as [Hin|Hnin].
      * destruct (decide (k ∈ k' :: _)) as [_|Hin']; [done |].
        exfalso; apply Hin'; by right.
      * destruct (decide (k ∈ k' :: _)) as [Hin'|_]; [| done].
        apply elem_of_cons in Hin' as [->|?]; done.
Qed.

Lemma NoDup_keys_set m k v : NoDup (JsMap.keys m) -> NoDup (JsMap.keys (JsMap.set k v m)).
Proof.
  intros Hnd. rewrite keys_set. case_decide; [done |].
  apply NoDup_app. split_and!; [done | | apply NoDup_singleton].
  intros x Hx Hk. apply list_elem_of_singleton in Hk. by subst.
Qed.

Lemma Forall_values_set (Q : V -> Prop) m k v :
  Forall (fun kv => Q (snd kv)) m -> Q v ->
  Forall (fun kv => Q (snd kv)) (JsMap.set k v m).
Proof.
  intros Hm Hv. induction m as [|[k' v'] m IH]; cbn [JsMap.set].
  - by repeat constructor.
  - apply Forall_cons in Hm as [Hhead Htail].
    destruct (decide (k' = k)); apply Forall_cons; split; auto.
Qed.

End JsMapFacts.

(** ** The tool list and the dispatch table *)

(** C9.  The names with a [case] in the [switch] are the names declared
    in [TOOLS] and, besides them, [puppeteer_get_json], which [TOOLS]
    does not declare: the two sets are not equal. *)
Theorem dispatched_exceeds_declared (w : World) :
  (forall n : string,
      n ∈ dispatched w <-> n ∈ List.map name listTools \/ n = "puppeteer_get_json")
  /\ "puppeteer_get_json" ∈ dispatched w
  /\ "puppeteer_get_json" ∉ List.map name listTools.
Proof.
  split_and!.
  - intros n. unfold dispatched, listTools. cbn.
    rewrite !elem_of_cons, !elem_of_nil. tauto.
  - unfold dispatched. cbn. rewrite !elem_of_cons. tauto.
  - unfold listTools. cbn. rewrite !elem_of_cons, elem_of_nil.
    intros H. repeat destruct H as [H|H]; done.
Qed.

(** ** The resource catalog *)

Lemma captured_snoc captures c :
  captured (captures ++ [c]) = JsMap.set (fst c) (snd c) (captured captures).
Proof. unfold captured. by rewrite fold_left_app. Qed.

Lemma keys_captured_elem captures (k : option string) :
  k ∈ JsMap.keys (captured captures) <-> k ∈ List.map fst captures.
Proof.
  induction captures as [|c captures IH] using rev_ind.
  - done.
  - rewrite captured_snoc, keys_set, map_app, elem_of_app. cbn [List.map].
    rewrite list_elem_of_singleton.
    destruct (decide (fst c ∈ JsMap.keys (captured captures))) as [Hin|Hnin].
    + rewrite IH. split; [by left | intros [?| ->]; [done | by apply IH]].
    + rewrite elem_of_app, list_elem_of_singleton, IH. done.
Qed.

Lemma keys_captured captures :
  JsMap.keys (captured captures)
  = reverse (remove_dups (reverse (List.map fst captures))).
Proof.
  induction captures as [|c captures IH] using rev_ind.
  - done.
  - rewrite captured_snoc, keys_set, map_app, reverse_app.
    cbn [List.map]. rewrite reverse_singleton. cbn [app remove_dups].
    destruct (decide (fst c ∈ JsMap.keys (captured captures))) as [Hin|Hnin];
      destruct (decide_rel elem_of (fst c) (reverse (List.map fst captures)))
        as [Hin'|Hnin'].
    + done.
    + exfalso. apply Hnin'. rewrite elem_of_reverse. by apply keys_captured_elem.
    + exfalso. apply Hnin. apply keys_captured_elem. by rewrite <- elem_of_reverse.
    + by rewrite reverse_cons, IH.
Qed.

(** C7.  Whatever captures led to the screenshot map, the listing is the
    console-log descriptor followed by one descriptor per distinct
    stored name, in the order the names were first inserted; it has
    1 + (number of distinct names) entries, and each carries a URI, a
    media type and a display name. *)
Theorem listResources_spec (captures : list (option string * string)) (st : State) :
  let st' := with_screenshots (fun _ => captured captures) st in
  let names := reverse (remove_dups (reverse (List.map fst captures))) in
  listResources st'
  = {| uri := "console://logs"; res_mimeType := "text/plain";
       res_name := "Browser console logs" |}
    :: List.map (fun n => {| uri := "screenshot://" +:+ Js.str n;
                             res_mimeType := "image/png";
                             res_name := "Screenshot: " +:+ Js.str n |}) names
  /\ length (listResources st') = (1 + length (remove_dups (List.map fst captures)))%nat
  /\ NoDup names.
Proof.
  cbn zeta. unfold listResources. cbn [screenshots with_screenshots].
  rewrite keys_captured. split_and!.
  - done.
  - cbn [length]. rewrite length_map, length_reverse. f_equal.
    apply Permutation_length. apply NoDup_Permutation.
    + apply NoDup_remove_dups.
    + apply NoDup_remove_dups.
    + intros x. by rewrite !elem_of_remove_dups, elem_of_reverse.
  - rewrite reverse_Permutation. apply NoDup_remove_dups.
Qed.

(** ** Console capture *)

(** On a page with a single listener, a console message runs that
    listener once. *)
Lemma pageConsole_single p sessionId msgType msgText st :
  filter (fun h => fst h = p) (handlers st) = [(p, sessionId)] ->
  pageConsole p msgType msgText st = consoleListener sessionId msgType msgText st.
Proof.
  unfold pageConsole.
  assert (Hgen : forall hs st0 acc,
             filter (fun h : Page * option string => fst h = p) hs = acc ->
             fold_left (fun st' h =>
                          if decide (fst h = p)
                          then consoleListener (snd h) msgType msgText st' else st')
                       hs st0
             = fold_left (fun st' h => consoleListener (snd h) msgType msgText st')
                         acc st0).
  { induction hs as [|h hs IH]; intros st0 acc Hacc.
    - cbn in Hacc. by subst.
    - rewrite filter_cons in Hacc. cbn [fold_left].
      destruct (decide (fst h = p)) as [Heq|Hne]; subst acc.
      + cbn [fold_left]. by apply IH.
      + by apply IH. }
  intros Hone. by rewrite (Hgen _ _ _ Hone).
Qed.

(** ** Reading resources *)

Lemma append_nil_r (s : string) : s +:+ "" = s.
Proof.
  induction s as [|c s IH]; [done |].
  change (String c (s +:+ "") = String c s). by rewrite IH.
Qed.

Lemma append_assoc (s1 s2 s3 : string) : (s1 +:+ s2) +:+ s3 = s1 +:+ (s2 +:+ s3).
Proof.
  induction s1 as [|c s1 IH]; [done |].
  change (String c ((s1 +:+ s2) +:+ s3) = String c (s1 +:+ (s2 +:+ s3))).
  by rewrite IH.
Qed.

Lemma split_go_absent sep s :
  occurs sep s = false -> forall cur, Js.split_go sep 0 cur s = [cur +:+ s].
Proof.
  induction s as [|c s IH]; intros Habs cur.
  - cbn [Js.split_go]. by rewrite append_nil_r.
  - cbn [occurs] in Habs. apply orb_false_iff in Habs as [Hhere Hlater].
    cbn [Js.split_go]. rewrite Hhere, (IH Hlater), append_assoc. done.
Qed.

(** A name without [://] is what the read handler recovers from the URI
    the listing gives it. *)
Lemma split_screenshot_uri name :
  occurs "://" name = false ->
  Js.split ("screenshot://" +:+ name) "://" = ["screenshot"; name].
Proof.
  intros Habs. unfold Js.split. destruct name as [|c name]; [done |].
  change (Js.split_go "://" 0 "" ("screenshot://" +:+ String c name))
    with ("screenshot" :: Js.split_go "://" 0 "" (String c name)).
  by rewrite (split_go_absent _ _ Habs).
Qed.


Lemma readResource_screenshot st name payload :
  occurs "://" name = false ->
  JsMap.get (Some name) (screenshots st) = Some payload ->
  payload <> "" ->
  readResource st ("screenshot://" +:+ name)
  = Return (BlobResource ("screenshot://" +:+ name) "image/png" payload).
Proof.
  intros Habs Hget Hpayload. unfold readResource.
  change (String.eqb ("screenshot://" +:+ name) "console://logs") with false.
  change (Js.startsWith ("screenshot://" +:+ name) "screenshot://")
    with (String.prefix "" name).
  replace (String.prefix "" name) with true by (by destruct name).
  rewrite (split_screenshot_uri _ Habs). cbn [lookup list_lookup].
  rewrite Hget. cbn [Js.truthy].
  destruct (String.eqb_spec payload ""); done.
Qed.

Lemma readResource_unknown_name st name :
  occurs "://" name = false ->
  JsMap.get (Some name) (screenshots st) = None ->
  readResource st ("screenshot://" +:+ name)
  = Throw ("Resource not found: " +:+ ("screenshot://" +:+ name)).
Proof.
  intros Habs Hget. unfold readResource.
  change (String.eqb ("screenshot://" +:+ name) "console://logs") with false.
  change (Js.startsWith ("screenshot://" +:+ name) "screenshot://")
    with (String.prefix "" name).
  replace (String.prefix "" name) with true by (by destruct name).
  rewrite (split_screenshot_uri _ Habs). cbn [lookup list_lookup].
  by rewrite Hget.
Qed.

Lemma readResource_other st uri :
  uri <> "console://logs" ->
  Js.startsWith uri "screenshot://" = false ->
  readResource st uri = Throw ("Resource not found: " +:+ uri).
Proof.
  intros Hne Hpre. unfold readResource. rewrite Hpre.
  destruct (String.eqb_spec uri "console://logs"); done.
Qed.

(** C6.  After a screenshot was captured under the name [a://b], the
    listing offers the URI [screenshot://a://b], and reading that URI
    throws: the read handler takes the text between the first two
    [://] as the name, and looks up [a]. *)
Theorem read_listed_screenshot_throws :
  let st := snd (handleToolCall calm "puppeteer_screenshot"
                   (screenshotArgs "s1" "a://b" None None None) initial) in
  screenshots st = [(Some "a://b", "cGFnZQ==")]
  /\ List.map uri (listResources st) = ["console://logs"; "screenshot://a://b"]
  /\ Js.split "screenshot://a://b" "://" = ["screenshot"; "a"; "b"]
  /\ readResource st "screenshot://a://b"
     = Throw "Resource not found: screenshot://a://b".
Proof. vm_compute. done. Qed.

(** With [a] stored as well, the same read returns the payload of [a]. *)
Lemma read_shadowed_screenshot st :
  readResource
    (with_screenshots (fun _ => [(Some "a", "QQ=="); (Some "a://b", "Qg==")]) st)
    "screenshot://a://b"
  = Return (BlobResource "screenshot://a://b" "image/png" "QQ==").
Proof. reflexivity. Qed.

(** ** The handler, one statement at a time *)

Lemma get_case_None (w : World) (n : string) :
  n ∉ dispatched w -> JsMap.get n (cases w) = None.
Proof.
  unfold dispatched. generalize (cases w). intros m.
  unfold JsMap.keys. induction m as [|[k' v'] m IH]; cbn [JsMap.get List.map fst].
  - done.
  - intros Hn. apply not_elem_of_cons in Hn as [Hne Hn].
    destruct (decide (k' = n)) as [->|_]; [done | by apply IH].
Qed.

Lemma handleToolCall_unfold w n args st :
  handleToolCall w n args st
  = match resolveDefault w n args st with
    | (Return defaultSession, st1) =>
        match JsMap.get n (cases w) with
        | Some body => body args defaultSession st1
        | None => case_default n st1
        end
    | (Throw e, st1) => (Throw e, st1)
    end.
Proof.
  unfold handleToolCall, bind.
  destruct (resolveDefault w n args st) as [[ds|e] st1]; [|done].
  by destruct (JsMap.get n (cases w)).
Qed.

Lemma resolveDefault_registered w n args st session :
  n <> "puppeteer_parallel_sessions" ->
  browsers st !! arg_sessionId args = Some session ->
  resolveDefault w n args st = (Return (Some session), st).
Proof.
  intros Hn Hreg. unfold resolveDefault.
  destruct (String.eqb_spec n "puppeteer_parallel_sessions"); [done |].
  cbn [negb]. by rewrite Hreg.
Qed.

Lemma requested_snoc st c ok :
  requested (with_trace (fun tr => tr ++ [(c, ok)]) st)
  = (requested st + (if isConnect (c, ok) then 1 else 0))%nat.
Proof.
  unfold requested. cbn [trace with_trace].
  rewrite List.filter_app, length_app. cbn [List.filter].
  by destruct (isConnect (c, ok)).
Qed.

(** A session that can be created: the connection is opened and the
    browser has a page. *)
Lemma createNewBrowserSession_ok w sessionId st count :
  connect w (clock st) = Return tt ->
  pages w (S (clock st)) (requested st) = Return (S count) ->
  let p := {| pageBrowser := requested st; pageIndex := 0 |} in
  let session := {| browser := requested st; page := Some p |} in
  createNewBrowserSession w sessionId st
  = (Return session,
     with_handlers (fun hs => hs ++ [(p, sessionId)])
       (with_browsers <[sessionId := session]>
          (with_trace (fun tr => tr ++ [(Connect, true); (Pages (requested st), true)])
             st))).
Proof.
  intros Hconnect Hpages. cbn zeta.
  unfold createNewBrowserSession, bind, issueConnect, issue, request, bind, issue, settle.
  rewrite Hconnect. cbn.
  unfold clock in *. cbn [trace with_trace]. rewrite length_app. cbn [length].
  rewrite Nat.add_1_r, Hpages. cbn.
  unfold with_handlers, with_browsers, with_trace. cbn. rewrite <- app_assoc. done.
Qed.

Lemma get_case_screenshot w :
  JsMap.get "puppeteer_screenshot" (cases w) = Some (case_screenshot w).
Proof. done. Qed.

Lemma get_case_navigate w :
  JsMap.get "puppeteer_navigate" (cases w) = Some (case_navigate w).
Proof. done. Qed.

Lemma get_case_create_session w :
  JsMap.get "puppeteer_create_session" (cases w) = Some (case_create_session w).
Proof. done. Qed.

Lemma get_case_parallel_sessions w :
  JsMap.get "puppeteer_parallel_sessions" (cases w) = Some (case_parallel_sessions w).
Proof. done. Qed.

Lemma truthy_Some (s : string) : s <> "" -> Js.truthy (Some s) = true.
Proof. intros Hs. cbn. by destruct (String.eqb_spec s ""). Qed.

Ltac run_monad :=
  unfold page_setViewport, pageOf; unfold request;
  unfold try_catch, bind, issue, settle, modify, ret, throw;
  cbv beta iota zeta.

Ltac step :=
  match goal with
  | |- context [match ?o with Return _ => _ | Throw _ => _ end] =>
      lazymatch o with
      | context [match _ with _ => _ end] => fail
      | _ => destruct o as [?|?] eqn:?
      end; cbv beta iota zeta
  | |- context [if ?b then _ else _] =>
      lazymatch b with
      | context [match _ with _ => _ end] => fail
      | _ => destruct b eqn:?
      end; cbv beta iota zeta
  end.

Ltac state_simpl :=
  cbn [fst snd trace viewports screenshots consoleLogs notifications browsers
       handlers with_trace with_viewports with_screenshots with_notifications
       with_browsers with_handlers with_consoleLogs succeeded].

Lemma createNewBrowserSession_frame w sessionId st :
  let st' := snd (createNewBrowserSession w sessionId st) in
  screenshots st' = screenshots st /\ consoleLogs st' = consoleLogs st
  /\ notifications st' = notifications st /\ viewports st' = viewports st.
Proof.
  cbn zeta. unfold createNewBrowserSession, issueConnect, registerSession.
  run_monad.
  destruct (connect w (clock st)) as [[]|e]; cbv beta iota zeta; [| done].
  repeat step; [| done ..].
  destruct (firstPage _ _); done.
Qed.

Lemma resolveDefault_frame w n args st :
  let st' := snd (resolveDefault w n args st) in
  screenshots st' = screenshots st /\ consoleLogs st' = consoleLogs st
  /\ notifications st' = notifications st /\ viewports st' = viewports st.
Proof.
  cbn zeta. unfold resolveDefault.
  destruct (negb _); [| done].
  destruct (browsers st !! arg_sessionId args); [done |].
  unfold bind, ret.
  pose proof (createNewBrowserSession_frame w (arg_sessionId args) st) as Hframe.
  cbn zeta in Hframe.
  by destruct (createNewBrowserSession w (arg_sessionId args) st) as [[s|e] st'].
Qed.

(** ** Screenshots *)






(** The screenshot case keeps the screenshot map a map, and never
    stores an empty payload: what it stores passed the [!screenshot]
    test. *)
Lemma case_screenshot_wellformed w args defaultSession st :
  NoDup (JsMap.keys (screenshots st)) ->
  Forall (fun kv => snd kv <> "") (screenshots st) ->
  let st' := snd (case_screenshot w args defaultSession st) in
  NoDup (JsMap.keys (screenshots st'))
  /\ Forall (fun kv => snd kv <> "") (screenshots st').
Proof.
  intros Hkeys Hvalues. cbn zeta. unfold case_screenshot. run_monad.
  destruct defaultSession as [[b [p|]]|]; cbn [page]; cbv beta iota zeta;
    [| done | done].
  repeat step; state_simpl; try done.
  all: split; [by apply NoDup_keys_set |].
  all: apply (Forall_values_set (fun v => v <> "")); [done |].
  all: match goal with
       | H : Js.truthy ?o = true |- _ =>
           destruct o as [payload|]; [| discriminate H]; cbn in H |- *;
           intros ->; discriminate H
       end.
Qed.

(** ** Failures of the tool-specific action *)

(** A [try] whose handler returns never throws. *)
Lemma try_catch_returns {A} (m : M A) (handler : string -> A) st :
  exists a st', try_catch m (fun e => ret (handler e)) st = (Return a, st').
Proof.
  unfold try_catch, ret. destruct (m st) as [[a|e] st']; eauto.
Qed.

(** Every case of the [switch] other than navigation and screenshot
    wraps its action in a [try]; in each of them but the evaluation of
    a script, whose [catch] block may throw, it is such a [try]. *)
Lemma guarded_case_returns w n body args defaultSession st :
  (n, body) ∈ cases w ->
  n <> "puppeteer_navigate" ->
  n <> "puppeteer_screenshot" ->
  n <> "puppeteer_evaluate" ->
  exists r st', body args defaultSession st = (Return r, st').
Proof.
  intros Hin Hnav Hshot Heval. unfold cases in Hin.
  repeat (apply elem_of_cons in Hin as [Heq|Hin];
          [injection Heq as -> ->; try done; apply try_catch_returns |]).
  by apply elem_of_nil in Hin.
Qed.

Lemma navigate_failure_propagates w args session p st e :
  page session = Some p ->
  goto w (clock st) p (arg_url args) = Throw e ->
  fst (case_navigate w args (Some session) st) = Throw e.
Proof.
  intros Hpage Hgoto. unfold case_navigate. run_monad.
  by rewrite Hpage, Hgoto.
Qed.

Lemma setViewport_failure_propagates w args session p st e :
  page session = Some p ->
  setViewport w (clock st) p (default 800 (arg_width args))
              (default 600 (arg_height args)) = Throw e ->
  fst (case_screenshot w args (Some session) st) = Throw e.
Proof.
  intros Hpage Hview. unfold case_screenshot. run_monad.
  by rewrite Hpage, Hview.
Qed.

(** C1.  A navigation that the browser refuses, and a viewport that the
    browser refuses in a screenshot call, end [handleToolCall] with the
    browser's error thrown, not with a result envelope. *)
Theorem navigate_and_screenshot_throw :
  fst (handleToolCall picky "puppeteer_navigate" (navigateArgs "s1" "bad://") initial)
  = Throw "net::ERR_ABORTED at bad://"
  /\ fst (handleToolCall strict "puppeteer_screenshot"
            (screenshotArgs "s1" "home" None (Some (-1)) None) initial)
     = Throw "Protocol error (Emulation.setDeviceMetricsOverride): Invalid parameters".
Proof. split; reflexivity. Qed.

(** ** Unknown tools *)

(** C3.  For a name the [switch] has no case for, the call ends as the
    session resolution of its first statement does: when that returns,
    so when the session is registered or could be created, the result
    is the failure envelope [Unknown tool: name]; when creating the
    session throws, that error is thrown. *)
Theorem unknown_tool_spec w n args st :
  n ∉ dispatched w ->
  (forall session,
      browsers st !! arg_sessionId args = Some session ->
      handleToolCall w n args st
      = (Return {| toolResult := {| content := [TextContent ("Unknown tool: " +:+ n)];
                                    isError := true |} |}, st))
  /\ (forall defaultSession st1,
         resolveDefault w n args st = (Return defaultSession, st1) ->
         handleToolCall w n args st
         = (Return {| toolResult := {| content := [TextContent ("Unknown tool: " +:+ n)];
                                       isError := true |} |}, st1))
  /\ (forall e st1,
         resolveDefault w n args st = (Throw e, st1) ->
         handleToolCall w n args st = (Throw e, st1)).
Proof.
  intros Hunknown. rewrite handleToolCall_unfold, (get_case_None _ _ Hunknown).
  split_and!.
  - intros session Hreg. rewrite (resolveDefault_registered w n args st session); [done | | done].
    intros ->. apply Hunknown. unfold dispatched. cbn. rewrite !elem_of_cons. tauto.
  - by intros ds st1 ->.
  - by intros e st1 ->.
Qed.

(** [puppeteer_hover] is no tool of the server; called for the
    registered session [s1] it is answered by the envelope and nothing
    changes. *)
Lemma unknown_tool_spec_witness :
  ("puppeteer_hover" ∉ dispatched calm)
  /\ handleToolCall calm "puppeteer_hover" (noArgs (Some "s1")) oneSession
     = (Return {| toolResult :=
                    {| content := [TextContent "Unknown tool: puppeteer_hover"];
                       isError := true |} |}, oneSession).
Proof.
  assert (Hunknown : "puppeteer_hover" ∉ dispatched calm).
  { unfold dispatched. cbn. rewrite !not_elem_of_cons. split_and!; try done.
    apply not_elem_of_nil. }
  split; [exact Hunknown |].
  apply (proj1 (unknown_tool_spec calm "puppeteer_hover" (noArgs (Some "s1"))
                  oneSession Hunknown) session0).
  reflexivity.
Defined.

(** With the provider out of reach and no session registered, a call
    of an unknown tool throws. *)
Lemma unknown_tool_throws :
  handleToolCall unreachable "puppeteer_hover" (noArgs (Some "s1")) initial
  = (Throw "connect ECONNREFUSED",
     with_trace (fun _ => [(Connect, false)]) initial).
Proof. reflexivity. Qed.

(** ** Session resolution *)

Lemma opened_with_trace st (more : list (Call * bool)) :
  opened (with_trace (fun tr => tr ++ more) st)
  = (opened st + length (List.filter (fun e => isConnect e && snd e) more))%nat.
Proof. unfold opened. cbn [trace with_trace]. by rewrite List.filter_app, length_app. Qed.

(** A tool other than the bulk one, called with a [sessionId] that is
    not registered while the provider answers: one connection is opened,
    its first page gets the console listener, and the pair is registered
    under the [sessionId]. *)
Lemma resolveDefault_creates w n args st count :
  n <> "puppeteer_parallel_sessions" ->
  browsers st !! arg_sessionId args = None ->
  connect w (clock st) = Return tt ->
  pages w (S (clock st)) (requested st) = Return (S count) ->
  let p := {| pageBrowser := requested st; pageIndex := 0 |} in
  let session := {| browser := requested st; page := Some p |} in
  exists st',
    resolveDefault w n args st = (Return (Some session), st')
    /\ opened st' = S (opened st)
    /\ browsers st' = <[arg_sessionId args := session]> (browsers st)
    /\ handlers st' = handlers st ++ [(p, arg_sessionId args)].
Proof.
  intros Hn Hfresh Hconnect Hpages. cbn zeta. eexists. split.
  - unfold resolveDefault.
    destruct (String.eqb_spec n "puppeteer_parallel_sessions"); [done |].
    cbn [negb]. rewrite Hfresh. unfold bind.
    rewrite (createNewBrowserSession_ok w _ st count Hconnect Hpages). reflexivity.
  - split_and!; [| done | done].
    unfold opened. state_simpl. rewrite List.filter_app, length_app. cbn. lia.
Qed.

(** Once registered, the pair is what later calls get, with no request
    to the provider. *)
Lemma resolveDefault_reuses w n n' args st session st' :
  n <> "puppeteer_parallel_sessions" ->
  n' <> "puppeteer_parallel_sessions" ->
  resolveDefault w n args st = (Return (Some session), st') ->
  resolveDefault w n' args st' = (Return (Some session), st').
Proof.
  intros Hn Hn' Hfirst. apply resolveDefault_registered; [done |].
  unfold resolveDefault in Hfirst.
  destruct (String.eqb_spec n "puppeteer_parallel_sessions"); [done |].
  cbn [negb] in Hfirst.
  destruct (browsers st !! arg_sessionId args) as [s|] eqn:Hreg.
  - by injection Hfirst as -> ->.
  - revert Hfirst. unfold createNewBrowserSession, issueConnect, registerSession.
    run_monad. repeat step; try done.
    destruct (firstPage _ _) eqn:Hfirst; cbv beta iota zeta; [| done].
    intros [= <- <-]. state_simpl. apply lookup_insert_eq.
Qed.

(** The create-session tool with a [sessionId] that is not registered,
    while the provider answers both times it is asked: the handler's
    first statement and the tool's case each open a connection. *)
Lemma create_session_opens_two w args st count1 count2 :
  browsers st !! arg_sessionId args = None ->
  connect w (clock st) = Return tt ->
  pages w (S (clock st)) (requested st) = Return (S count1) ->
  connect w (S (S (clock st))) = Return tt ->
  pages w (S (S (S (clock st)))) (S (requested st)) = Return (S count2) ->
  let r := handleToolCall w "puppeteer_create_session" args st in
  fst r = Return (textResult "Created new browser session" false)
  /\ opened (snd r) = S (S (opened st))
  /\ browsers (snd r) !! arg_sessionId args
     = Some {| browser := S (requested st);
               page := Some {| pageBrowser := S (requested st); pageIndex := 0 |} |}.
Proof.
  intros Hfresh Hc1 Hp1 Hc2 Hp2. cbn zeta.
  set (st1 := with_handlers
                (fun hs => hs ++ [({| pageBrowser := requested st; pageIndex := 0 |},
                                   arg_sessionId args)])
                (with_browsers
                   <[arg_sessionId args :=
                       {| browser := requested st;
                          page := Some {| pageBrowser := requested st;
                                          pageIndex := 0 |} |}]>
                   (with_trace
                      (fun tr => tr ++ [(Connect, true); (Pages (requested st), true)])
                      st))).
  assert (Hclock : clock st1 = S (S (clock st))).
  { unfold clock. subst st1. state_simpl. rewrite length_app. cbn [length]. lia. }
  assert (Hrequested : requested st1 = S (requested st)).
  { unfold requested. subst st1. state_simpl.
    rewrite List.filter_app, length_app. cbn. lia. }
  assert (Hopened : opened st1 = S (opened st)).
  { unfold opened. subst st1. state_simpl.
    rewrite List.filter_app, length_app. cbn. lia. }
  rewrite <- Hclock in Hc2, Hp2. rewrite <- Hrequested in Hp2.
  assert (Hcall : handleToolCall w "puppeteer_create_session" args st
                  = case_create_session w args
                      (Some {| browser := requested st;
                               page := Some {| pageBrowser := requested st;
                                               pageIndex := 0 |} |}) st1).
  { rewrite handleToolCall_unfold, get_case_create_session.
    change (resolveDefault w "puppeteer_create_session" args st)
      with (match browsers st !! arg_sessionId args with
            | Some session => (Return (Some session), st)
            | None =>
                bind (createNewBrowserSession w (arg_sessionId args))
                     (fun session => ret (Some session)) st
            end).
    rewrite Hfresh. unfold bind.
    by rewrite (createNewBrowserSession_ok w _ st count1 Hc1 Hp1). }
  rewrite Hcall. unfold case_create_session, try_catch, bind.
  rewrite (createNewBrowserSession_ok w _ st1 count2 Hc2 Hp2).
  cbv beta iota zeta. unfold ret. state_simpl. split_and!.
  - done.
  - unfold opened in *. state_simpl.
    rewrite List.filter_app, length_app, Hopened. cbn. lia.
  - rewrite Hrequested. apply lookup_insert_eq.
Qed.

(** C2.  The create-session tool, called with a [sessionId] that is not
    registered, opens two connections: the first statement of the
    handler creates a session for the [sessionId], and the tool's own
    case creates another, which takes its place in the registry.  Both
    pages get a listener for the same [sessionId]. *)
Theorem create_session_connects_twice :
  let r := handleToolCall calm "puppeteer_create_session" (noArgs (Some "s1")) initial in
  browsers initial !! Some "s1" = None
  /\ fst r = Return (textResult "Created new browser session" false)
  /\ opened (snd r) = 2%nat
  /\ trace (snd r)
     = [(Connect, true); (Pages 0%nat, true); (Connect, true); (Pages 1%nat, true)]
  /\ browsers (snd r)
     = {[ Some "s1" := {| browser := 1%nat;
                          page := Some {| pageBrowser := 1%nat; pageIndex := 0 |} |} ]}
  /\ handlers (snd r)
     = [(page0, Some "s1"); ({| pageBrowser := 1%nat; pageIndex := 0 |}, Some "s1")].
Proof. cbn zeta. split_and!; reflexivity. Qed.

(** ** Bulk navigation *)

Ltac run_task :=
  unfold resume, resumeBody, registerSession;
  unfold try_catch, bind, issue, settle, modify, ret, throw;
  cbv beta iota zeta.

Ltac crunch :=
  repeat (progress (cbv beta iota zeta; cbn [page browser]; state_simpl)).

Lemma resume_rank w s t st :
  settled t = false -> (rank (fst (resume w s t st)) < rank t)%nat.
Proof.
  intros Hpending. destruct t as [b r|b r|p r|r|e|e]; try done; run_task.
  - destruct r as [[]|e]; cbn; lia.
  - destruct r as [count|e]; crunch; [| cbn; lia].
    destruct (firstPage b count); crunch; cbn; lia.
  - destruct r as [[]|e]; cbn; lia.
  - destruct r as [c|e]; cbn; lia.
Qed.

Lemma resume_opened w s t st : opened (snd (resume w s t st)) = opened st.
Proof.
  destruct t as [b r|b r|p r|r|e|e]; run_task; try done.
  - destruct r as [[]|e]; [| done]. crunch.
    rewrite opened_with_trace. cbn. lia.
  - destruct r as [count|e]; crunch; [| done].
    destruct (firstPage b count); crunch; [| done].
    unfold opened. crunch. rewrite List.filter_app, length_app. cbn. lia.
  - destruct r as [[]|e]; [| done]. crunch.
    rewrite opened_with_trace. cbn. lia.
  - by destruct r as [c|e].
Qed.


Lemma pending_le_rank ts : (pendingCount ts <= totalRank ts)%nat.
Proof.
  unfold pendingCount. induction ts as [|[s t] ts IH]; [done |].
  cbn [List.filter totalRank snd].
  destruct t; cbn [settled negb rank length]; lia.
Qed.

(** The event loop, for any property of tasks that a resumption keeps
    for the task it resumes and does not break for the others. *)
Section EventLoop.

Context (w : World) (P : SessionItem -> Task -> State -> Prop).

Hypothesis P_resume :
  forall s t st, P s t st -> P s (fst (resume w s t st)) (snd (resume w s t st)).

Hypothesis P_stable :
  forall s0 t0 s t st, P s t st -> P s t (snd (resume w s0 t0 st)).

Lemma resumeNth_spec k ts st :
  Forall (fun it => P (fst it) (snd it) st) ts ->
  (k < pendingCount ts)%nat ->
  let r := resumeNth w k ts st in
  Forall (fun it => P (fst it) (snd it) (snd r)) (fst r)
  /\ (totalRank (fst r) < totalRank ts)%nat
  /\ List.map fst (fst r) = List.map fst ts
  /\ exists s0 t0, snd r = snd (resume w s0 t0 st).
Proof.
  cbn zeta. revert k.
  induction ts as [|[s t] ts IH]; intros k Hall Hk;
    [unfold pendingCount in Hk; cbn in Hk; lia |].
  apply Forall_cons in Hall as [Hhead Htail]. cbn [fst snd] in Hhead.
  cbn [resumeNth]. unfold pendingCount in Hk. cbn [List.filter snd] in Hk.
  destruct (settled t) eqn:Hsettled; cbn [negb] in Hk.
  - destruct (IH k Htail Hk) as (Hall' & Hrank & Hitems & s0 & t0 & Hst).
    destruct (resumeNth w k ts st) as [ts' st']. cbn [fst snd] in *.
    split_and!.
    + apply Forall_cons. split; [| done]. cbn [fst snd]. rewrite Hst. by apply P_stable.
    + cbn [totalRank]. lia.
    + cbn [List.map fst]. by rewrite Hitems.
    + eauto.
  - destruct k as [|k'].
    + pose proof (P_resume s t st Hhead) as Hhead'.
      pose proof (resume_rank w s t st Hsettled) as Hrank.
      destruct (resume w s t st) as [t' st'] eqn:Hresume. cbn [fst snd] in *.
      split_and!.
      * apply Forall_cons. split; [done |].
        eapply Forall_impl; [exact Htail |]. intros [s1 t1] H1. cbn [fst snd] in *.
        replace st' with (snd (resume w s t st)) by (by rewrite Hresume).
        by apply P_stable.
      * cbn [totalRank]. lia.
      * done.
      * exists s, t. by rewrite Hresume.
    + cbn [length] in Hk. apply Nat.succ_lt_mono in Hk.
      destruct (IH k' Htail Hk) as (Hall' & Hrank & Hitems & s0 & t0 & Hst).
      destruct (resumeNth w k' ts st) as [ts' st']. cbn [fst snd] in *.
      split_and!.
      * apply Forall_cons. split; [| done]. cbn [fst snd]. rewrite Hst. by apply P_stable.
      * cbn [totalRank]. lia.
      * cbn [List.map fst]. by rewrite Hitems.
      * eauto.
Qed.

Lemma resumeNth_opened k ts st : opened (snd (resumeNth w k ts st)) = opened st.
Proof.
  revert k. induction ts as [|[s t] ts IH]; intros k; [done |].
  cbn [resumeNth]. destruct (settled t).
  - specialize (IH k). by destruct (resumeNth w k ts st).
  - destruct k as [|k'].
    + pose proof (resume_opened w s t st) as H. by destruct (resume w s t st).
    + specialize (IH k'). by destruct (resumeNth w k' ts st).
Qed.

(** With as many turns as the tasks' total rank, the loop ends with a
    rejection or with no task suspended. *)
Lemma runTasks_spec turns ts st :
  Forall (fun it => P (fst it) (snd it) st) ts ->
  (totalRank ts <= turns)%nat ->
  let r := runTasks w turns ts st in
  Forall (fun it => P (fst it) (snd it) (snd r)) (fst r)
  /\ (rejection (fst r) <> None \/ pendingCount (fst r) = 0%nat)
  /\ List.map fst (fst r) = List.map fst ts
  /\ opened (snd r) = opened st.
Proof.
  cbn zeta. revert ts st.
  induction turns as [|turns IH]; intros ts st Hall Hrank.
  - cbn [runTasks fst snd]. split_and!; try done. right.
    pose proof (pending_le_rank ts). lia.
  - cbn [runTasks].
    destruct (rejection ts) as [e|] eqn:Hrej.
    { cbn [fst snd]. split_and!; try done. left. by rewrite Hrej. }
    destruct (pendingCount ts) as [|n] eqn:Hpending.
    { cbn [fst snd]. split_and!; try done. by right. }
    set (k := (schedule w (clock st) (S turns) mod S n)%nat).
    assert (Hk : (k < pendingCount ts)%nat).
    { rewrite Hpending. apply Nat.mod_upper_bound. lia. }
    destruct (resumeNth_spec k ts st Hall Hk) as (Hall' & Hless & Hitems & _).
    pose proof (resumeNth_opened k ts st) as Hopened.
    destruct (resumeNth w k ts st) as [ts' st']. cbn [fst snd] in *.
    destruct (IH ts' st' Hall') as (Hall'' & Hend & Hitems' & Hopened'); [lia |].
    split_and!; [done | done | congruence | congruence].
Qed.

End EventLoop.

(** Starting the tasks never throws, and each starts at rank four. *)
Lemma startAll_returns w items st :
  exists ts0 st0,
    startAll w items st = (Return ts0, st0)
    /\ List.map fst ts0 = items
    /\ totalRank ts0 = (4 * length items)%nat.
Proof.
  revert st. induction items as [|s items IH]; intros st.
  - by exists [], st.
  - cbn [startAll]. unfold startTask, issueConnect. run_monad.
    match goal with
    | |- context [startAll w items ?st1] =>
        destruct (IH st1) as (ts0 & st0 & -> & Hitems & Hrank)
    end.
    eexists _, _. split; [reflexivity |]. cbn [List.map fst totalRank rank length].
    split; [by rewrite Hitems | lia].
Qed.

(** Whatever the world does, [Promise.all] settles within the turns
    [promiseAll] allows: the loop ends with a rejected task or with
    every task settled. *)
Lemma bulk_tasks_settle w items st ts0 st0 :
  startAll w items st = (Return ts0, st0) ->
  let ts := fst (runTasks w (4 * length items) ts0 st0) in
  rejection ts <> None \/ pendingCount ts = 0%nat.
Proof.
  intros Hstart. cbn zeta.
  destruct (startAll_returns w items st) as (ts0' & st0' & Hstart' & _ & Hrank).
  rewrite Hstart in Hstart'. injection Hstart' as <- <-.
  apply (runTasks_spec w (fun _ _ _ => True)); try done.
  - by apply Forall_forall.
  - lia.
Qed.




(** *** When every session can be created *)

Section SessionsCreated.

Context (w : World).

Hypothesis connected : forall t, connect w t = Return tt.

Hypothesis paged : forall t b, exists count, pages w t b = Return (S count).





End SessionsCreated.

(** *** When the provider cannot be reached *)

Lemma startAll_doomed w e items st :
  (forall t, connect w t = Throw e) ->
  exists ts0 st0,
    startAll w items st = (Return ts0, st0)
    /\ List.map fst ts0 = items
    /\ totalRank ts0 = (4 * length items)%nat
    /\ Forall (fun it => doomed e (snd it)) ts0.
Proof.
  intros Hdown. revert st. induction items as [|s items IH]; intros st.
  - exists [], st. by repeat split.
  - cbn [startAll]. unfold startTask, issueConnect. run_monad. rewrite Hdown.
    crunch.
    match goal with
    | |- context [startAll w items ?st1] =>
        destruct (IH st1) as (ts0 & st0 & -> & Hitems & Hrank & Hall)
    end.
    eexists _, _. split; [reflexivity |]. cbn [List.map fst totalRank rank length].
    split_and!; [by rewrite Hitems | lia | by apply Forall_cons].
Qed.

Lemma doomed_resume w e s t st : doomed e t -> doomed e (fst (resume w s t st)).
Proof.
  destruct t as [b r|b r|p r|r|e'|e']; cbn [doomed]; try done.
  intros ->. by run_task.
Qed.

Lemma doomed_rejection e ts :
  ts <> [] ->
  Forall (fun it : SessionItem * Task => doomed e (snd it)) ts ->
  rejection ts <> None \/ pendingCount ts = 0%nat ->
  rejection ts = Some e.
Proof.
  intros Hne Hall Hend. induction ts as [|[s t] ts IH]; [done |].
  apply Forall_cons in Hall as [Hhead Htail]. cbn [snd] in Hhead.
  destruct t as [b r|b r|p r|r|e'|e']; cbn [doomed] in Hhead; try done.
  - cbn [rejection] in *. unfold pendingCount in *. cbn [List.filter snd settled negb length] in Hend.
    destruct ts as [|it ts]; [destruct Hend; [done | lia] |].
    apply IH; [done | done |]. destruct Hend as [?|?]; [by left | lia].
  - cbn [rejection]. by subst.
Qed.

(** With the provider out of reach, the bulk tool answers a non-empty
    list with one envelope flagged as an error, whatever the schedule. *)
Lemma bulk_unreachable w args st items e :
  arg_sessions args = Some items ->
  items <> [] ->
  (forall t, connect w t = Throw e) ->
  fst (handleToolCall w "puppeteer_parallel_sessions" args st)
  = Return (textResult ("Failed to execute parallel sessions: " +:+ e) true).
Proof.
  intros Hitems Hne Hdown.
  rewrite handleToolCall_unfold, get_case_parallel_sessions.
  change (resolveDefault w "puppeteer_parallel_sessions" args st)
    with (Return (@None Session), st).
  cbv beta iota zeta.
  unfold case_parallel_sessions, promiseAll, settleAll. run_monad. rewrite Hitems.
  cbv beta iota zeta.
  destruct (startAll_doomed w e items st Hdown) as (ts0 & st0 & -> & Hfst & Hrank & Hall).
  destruct (runTasks_spec w (fun _ t _ => doomed e t)
              (fun s t st' => doomed_resume w e s t st') (fun _ _ _ _ _ H => H)
              (4 * length items) ts0 st0 Hall)
    as (Hall' & Hend & Hfst' & _); [lia |].
  destruct (runTasks w (4 * length items) ts0 st0) as [ts st']. cbn [fst snd] in *.
  rewrite (doomed_rejection e ts); [done | | done | done].
  intros ->. cbn in Hfst'. rewrite <- Hfst' in Hfst. by subst items.
Qed.




(** ** Page identifiers of Notion URLs *)

Lemma length_append (s1 s2 : string) :
  String.length (s1 +:+ s2) = (String.length s1 + String.length s2)%nat.
Proof.
  induction s1 as [|c s1 IH]; [done |].
  change (S (String.length (s1 +:+ s2)) = S (String.length s1 + String.length s2)).
  by rewrite IH.
Qed.

Lemma allAlnum_append (s1 s2 : string) :
  allAlnum (s1 +:+ s2) = allAlnum s1 && allAlnum s2.
Proof.
  induction s1 as [|c s1 IH]; [done |].
  change (Js.isAlnum c && allAlnum (s1 +:+ s2)
          = Js.isAlnum c && allAlnum s1 && allAlnum s2).
  by rewrite IH, andb_assoc.
Qed.

Lemma removeDashes_append (s1 s2 : string) :
  Js.removeDashes (s1 +:+ s2) = Js.removeDashes s1 +:+ Js.removeDashes s2.
Proof.
  induction s1 as [|c s1 IH]; [done |].
  change (Js.removeDashes (String c (s1 +:+ s2))
          = Js.removeDashes (String c s1) +:+ Js.removeDashes s2).
  cbn [Js.removeDashes]. rewrite IH. by destruct (Ascii.eqb c "-").
Qed.

Lemma alnum_not_dash (c : ascii) : Js.isAlnum c = true -> Ascii.eqb c "-" = false.
Proof.
  intros Hc. destruct (Ascii.eqb_spec c "-") as [->|]; [| done].
  by vm_compute in Hc.
Qed.

Lemma removeDashes_alnum (s : string) : allAlnum s = true -> Js.removeDashes s = s.
Proof.
  induction s as [|c s IH]; [done |]. cbn [allAlnum Js.removeDashes].
  intros [Hc Hs]%andb_true_iff. rewrite (alnum_not_dash c Hc). by rewrite IH.
Qed.

Lemma removeDashes_dashOrNot (d : bool) : Js.removeDashes (dashOrNot d) = "".
Proof. by destruct d. Qed.

(** What [alnums] takes is a prefix of its input, of the length asked
    for and alphanumeric; and such a prefix is what it takes. *)
Lemma alnums_sound n s m r :
  Js.alnums n s = Some (m, r) ->
  s = m +:+ r /\ String.length m = n /\ allAlnum m = true.
Proof.
  revert s m r. induction n as [|n IH]; intros s m r; cbn [Js.alnums].
  - by intros [= <- <-].
  - destruct s as [|c s]; [done |].
    destruct (Js.isAlnum c) eqn:Hc; [| done].
    destruct (Js.alnums n s) as [[m' r']|] eqn:Hrest; [| done].
    intros [= <- <-]. destruct (IH _ _ _ Hrest) as (-> & <- & Hm').
    cbn [String.length allAlnum]. by rewrite Hc, Hm'.
Qed.

Lemma alnums_complete m r :
  allAlnum m = true -> Js.alnums (String.length m) (m +:+ r) = Some (m, r).
Proof.
  induction m as [|c m IH]; [done |]. cbn [allAlnum String.length].
  intros [Hc Hm]%andb_true_iff.
  change (String c m +:+ r) with (String c (m +:+ r)).
  cbn [Js.alnums]. by rewrite Hc, (IH Hm).
Qed.

Lemma optDash_sound s d r :
  Js.optDash s = (d, r) -> s = d +:+ r /\ Js.removeDashes d = "".
Proof.
  unfold Js.optDash. destruct s as [|c s]; [by intros [= <- <-] |].
  destruct (Ascii.eqb_spec c "-") as [->|]; by intros [= <- <-].
Qed.

(** Before a non-empty alphanumeric text, [-?] takes the dash when it
    is there and nothing otherwise. *)
Lemma optDash_complete (d : bool) g r :
  allAlnum g = true -> g <> "" ->
  Js.optDash (dashOrNot d +:+ g +:+ r) = (dashOrNot d, g +:+ r).
Proof.
  intros Hg Hne. destruct d; [done |].
  destruct g as [|c g]; [done |]. cbn [allAlnum] in Hg.
  apply andb_true_iff in Hg as [Hc _].
  change (dashOrNot false +:+ String c g +:+ r) with (String c (g +:+ r)).
  unfold Js.optDash. by rewrite (alnum_not_dash c Hc).
Qed.

Lemma pageIdHere_sound s m :
  pageIdHere s = Some m ->
  (32 <= String.length s)%nat
  /\ String.length (Js.removeDashes m) = 32%nat
  /\ allAlnum (Js.removeDashes m) = true.
Proof.
  unfold pageIdHere.
  destruct (Js.alnums 8 s) as [[g1 s1]|] eqn:H1; [| done].
  destruct (Js.optDash s1) as [d1 s1'] eqn:D1.
  destruct (Js.alnums 4 s1') as [[g2 s2]|] eqn:H2; [| done].
  destruct (Js.optDash s2) as [d2 s2'] eqn:D2.
  destruct (Js.alnums 4 s2') as [[g3 s3]|] eqn:H3; [| done].
  destruct (Js.optDash s3) as [d3 s3'] eqn:D3.
  destruct (Js.alnums 4 s3') as [[g4 s4]|] eqn:H4; [| done].
  destruct (Js.optDash s4) as [d4 s4'] eqn:D4.
  destruct (Js.alnums 12 s4') as [[g5 s5]|] eqn:H5; [| done].
  intros [= <-].
  apply alnums_sound in H1 as (-> & L1 & A1), H2 as (-> & L2 & A2),
    H3 as (-> & L3 & A3), H4 as (-> & L4 & A4), H5 as (-> & L5 & A5).
  apply optDash_sound in D1 as (-> & R1), D2 as (-> & R2),
    D3 as (-> & R3), D4 as (-> & R4).
  rewrite !removeDashes_append, R1, R2, R3, R4.
  rewrite !(removeDashes_alnum _ A1), !(removeDashes_alnum _ A2),
    !(removeDashes_alnum _ A3), !(removeDashes_alnum _ A4), !(removeDashes_alnum _ A5).
  cbn [String.append]. rewrite !length_append, !allAlnum_append.
  rewrite A1, A2, A3, A4, A5, L1, L2, L3, L4, L5.
  split_and!; [lia | reflexivity | reflexivity].
Qed.

Lemma pageIdMatch_sound s m :
  pageIdMatch s = Some m ->
  (32 <= String.length s)%nat
  /\ String.length (Js.removeDashes m) = 32%nat
  /\ allAlnum (Js.removeDashes m) = true.
Proof.
  induction s as [|c s IH]; cbn [pageIdMatch].
  - destruct (pageIdHere "") eqn:Hhere; [| done].
    intros [= <-]. by apply pageIdHere_sound in Hhere.
  - destruct (pageIdHere (String c s)) eqn:Hhere.
    + intros [= <-]. by apply pageIdHere_sound in Hhere.
    + intros Hlater. destruct (IH Hlater) as (Hlen & ? & ?). cbn [String.length].
      split_and!; [lia | done | done].
Qed.

Lemma alnums_exact n m r :
  String.length m = n -> allAlnum m = true -> Js.alnums n (m +:+ r) = Some (m, r).
Proof. intros <-. apply alnums_complete. Qed.

Lemma alnum_group_nonempty g n : String.length g = S n -> g <> "".
Proof. by destruct g. Qed.

(** Five alphanumeric groups of 8, 4, 4, 4 and 12 characters, with or
    without a dash between them, are matched whole, whatever follows. *)
Lemma pageIdHere_complete g1 g2 g3 g4 g5 (d1 d2 d3 d4 : bool) rest :
  String.length g1 = 8%nat -> String.length g2 = 4%nat ->
  String.length g3 = 4%nat -> String.length g4 = 4%nat ->
  String.length g5 = 12%nat ->
  allAlnum g1 = true -> allAlnum g2 = true -> allAlnum g3 = true ->
  allAlnum g4 = true -> allAlnum g5 = true ->
  pageIdHere (g1 +:+ dashOrNot d1 +:+ g2 +:+ dashOrNot d2 +:+ g3 +:+ dashOrNot d3
              +:+ g4 +:+ dashOrNot d4 +:+ g5 +:+ rest)
  = Some (g1 +:+ dashOrNot d1 +:+ g2 +:+ dashOrNot d2 +:+ g3 +:+ dashOrNot d3
          +:+ g4 +:+ dashOrNot d4 +:+ g5).
Proof.
  intros L1 L2 L3 L4 L5 A1 A2 A3 A4 A5. unfold pageIdHere.
  rewrite (alnums_exact 8 g1 _ L1 A1). cbv beta iota.
  rewrite (optDash_complete d1 g2 _ A2 (alnum_group_nonempty _ _ L2)).
  rewrite (alnums_exact 4 g2 _ L2 A2). cbv beta iota.
  rewrite (optDash_complete d2 g3 _ A3 (alnum_group_nonempty _ _ L3)).
  rewrite (alnums_exact 4 g3 _ L3 A3). cbv beta iota.
  rewrite (optDash_complete d3 g4 _ A4 (alnum_group_nonempty _ _ L4)).
  rewrite (alnums_exact 4 g4 _ L4 A4). cbv beta iota.
  rewrite (optDash_complete d4 g5 _ A5 (alnum_group_nonempty _ _ L5)).
  by rewrite (alnums_exact 12 g5 _ L5 A5).
Qed.

Lemma string_split n (s : string) :
  (n <= String.length s)%nat ->
  exists a b, s = a +:+ b /\ String.length a = n.
Proof.
  revert s. induction n as [|n IH]; intros s Hn.
  - by exists "", s.
  - destruct s as [|c s]; cbn [String.length] in Hn; [lia |].
    destruct (IH s) as (a & b & -> & Ha); [lia |].
    exists (String c a), b. split; [done |]. cbn [String.length]. by rewrite Ha.
Qed.

Lemma pageIdHere_bare id :
  String.length id = 32%nat -> allAlnum id = true -> pageIdHere id = Some id.
Proof.
  intros Hlen Hid.
  destruct (string_split 8 id) as (g1 & r1 & -> & L1); [lia |].
  rewrite length_append, L1 in Hlen.
  destruct (string_split 4 r1) as (g2 & r2 & -> & L2); [lia |].
  rewrite length_append, L2 in Hlen.
  destruct (string_split 4 r2) as (g3 & r3 & -> & L3); [lia |].
  rewrite length_append, L3 in Hlen.
  destruct (string_split 4 r3) as (g4 & g5 & -> & L4); [lia |].
  rewrite length_append, L4 in Hlen.
  rewrite !allAlnum_append in Hid.
  apply andb_true_iff in Hid as [A1 Hid]. apply andb_true_iff in Hid as [A2 Hid].
  apply andb_true_iff in Hid as [A3 Hid]. apply andb_true_iff in Hid as [A4 A5].
  pose proof (pageIdHere_complete g1 g2 g3 g4 g5 false false false false ""
                L1 L2 L3 L4 ltac:(lia) A1 A2 A3 A4 A5) as Hmatch.
  cbn [dashOrNot] in Hmatch. rewrite append_nil_r in Hmatch. exact Hmatch.
Qed.

Lemma pageIdMatch_here s m : pageIdHere s = Some m -> pageIdMatch s = Some m.
Proof. intros Hhere. destruct s; cbn [pageIdMatch]; by rewrite Hhere. Qed.

(** The text before the identifier in a Notion URL holds no match. *)
Lemma pageIdMatch_notion_prefix s :
  pageIdMatch ("https://www.notion.so/" +:+ s) = pageIdMatch s.
Proof. reflexivity. Qed.

(** X1.  What [extractNotionPageId] returns is 32 alphanumeric
    characters, and is an identifier the function maps to itself. *)
Theorem extractNotionPageId_shape url id :
  extractNotionPageId url = Return id ->
  String.length id = 32%nat
  /\ allAlnum id = true
  /\ extractNotionPageId id = Return id.
Proof.
  unfold extractNotionPageId.
  destruct (pageIdMatch url) as [m|] eqn:Hmatch; [| done].
  intros [= <-]. destruct (pageIdMatch_sound _ _ Hmatch) as (_ & Hlen & Hid).
  split_and!; [done | done |].
  rewrite (pageIdMatch_here _ _ (pageIdHere_bare _ Hlen Hid)).
  by rewrite (removeDashes_alnum _ Hid).
Qed.

Lemma extractNotionPageId_shape_witness :
  extractNotionPageId "https://www.notion.so/Roadmap-598337872cf94fdf8782e53db20768a5?pvs=4"
  = Return "598337872cf94fdf8782e53db20768a5"
  /\ String.length "598337872cf94fdf8782e53db20768a5" = 32%nat
  /\ allAlnum "598337872cf94fdf8782e53db20768a5" = true
  /\ extractNotionPageId "598337872cf94fdf8782e53db20768a5"
     = Return "598337872cf94fdf8782e53db20768a5".
Proof.
  split; [reflexivity |].
  apply (extractNotionPageId_shape
           "https://www.notion.so/Roadmap-598337872cf94fdf8782e53db20768a5?pvs=4").
  reflexivity.
Defined.

(** X2.  A Notion URL that ends in an identifier written as five
    alphanumeric groups of 8, 4, 4, 4 and 12 characters, each dash
    between groups present or not, yields the 32 characters without the
    dashes; what follows the identifier is ignored. *)
Theorem extractNotionPageId_notion_url g1 g2 g3 g4 g5 (d1 d2 d3 d4 : bool) rest :
  String.length g1 = 8%nat -> String.length g2 = 4%nat ->
  String.length g3 = 4%nat -> String.length g4 = 4%nat ->
  String.length g5 = 12%nat ->
  allAlnum g1 = true -> allAlnum g2 = true -> allAlnum g3 = true ->
  allAlnum g4 = true -> allAlnum g5 = true ->
  extractNotionPageId
    ("https://www.notion.so/"
     +:+ g1 +:+ dashOrNot d1 +:+ g2 +:+ dashOrNot d2 +:+ g3 +:+ dashOrNot d3
     +:+ g4 +:+ dashOrNot d4 +:+ g5 +:+ rest)
  = Return (g1 +:+ g2 +:+ g3 +:+ g4 +:+ g5).
Proof.
  intros L1 L2 L3 L4 L5 A1 A2 A3 A4 A5. unfold extractNotionPageId.
  rewrite pageIdMatch_notion_prefix.
  rewrite (pageIdMatch_here _ _
             (pageIdHere_complete g1 g2 g3 g4 g5 d1 d2 d3 d4 rest
                L1 L2 L3 L4 L5 A1 A2 A3 A4 A5)).
  rewrite !removeDashes_append, !removeDashes_dashOrNot.
  rewrite !(removeDashes_alnum _ A1), !(removeDashes_alnum _ A2),
    !(removeDashes_alnum _ A3), !(removeDashes_alnum _ A4), !(removeDashes_alnum _ A5).
  done.
Qed.

Lemma extractNotionPageId_notion_url_witness :
  extractNotionPageId
    ("https://www.notion.so/"
     +:+ "59833787" +:+ dashOrNot true +:+ "2cf9" +:+ dashOrNot true +:+ "4fdf"
     +:+ dashOrNot false +:+ "8782" +:+ dashOrNot true +:+ "e53db20768a5" +:+ "?pvs=4")
  = Return ("59833787" +:+ "2cf9" +:+ "4fdf" +:+ "8782" +:+ "e53db20768a5").
Proof.
  apply (extractNotionPageId_notion_url
           "59833787" "2cf9" "4fdf" "8782" "e53db20768a5" true true false true "?pvs=4");
    reflexivity.
Defined.

(** X3.  A URL of fewer than 32 characters holds no identifier: the
    function throws. *)
Theorem extractNotionPageId_short url :
  (String.length url < 32)%nat ->
  extractNotionPageId url = Throw "Could not extract page ID from Notion URL".
Proof.
  intros Hshort. unfold extractNotionPageId.
  destruct (pageIdMatch url) as [m|] eqn:Hmatch; [| done].
  apply pageIdMatch_sound in Hmatch as (Hlen & _). lia.
Qed.

Lemma extractNotionPageId_short_witness :
  extractNotionPageId "https://www.notion.so/" = Throw "Could not extract page ID from Notion URL".
Proof. apply extractNotionPageId_short. cbn. lia. Defined.

(** ** Start-up validation *)

Lemma validate_all entries :
  validate entries = Return tt <-> Forall (fun e => Js.truthy (snd e) = true) entries.
Proof.
  induction entries as [|[n v] entries IH]; cbn [validate].
  - split; [constructor | done].
  - rewrite Forall_cons. cbn [snd]. destruct (Js.truthy v); [| by split; [| intros []]].
    rewrite IH. by split; [| intros []].
Qed.

Lemma validate_first before n v after :
  Forall (fun e => Js.truthy (snd e) = true) before ->
  Js.truthy v = false ->
  validate (before ++ (n, v) :: after)
  = Throw (n +:+ " environment variable is required").
Proof.
  intros Hbefore Hv. induction before as [|[n' v'] before IH]; cbn [validate app].
  - by rewrite Hv.
  - apply Forall_cons in Hbefore as [Hhead Hbefore]. cbn [snd] in Hhead.
    rewrite Hhead. by apply IH.
Qed.

(** X4.  The start-up check passes exactly when the three required
    variables are set to non-empty values; otherwise it throws, naming
    the first of them, in the order they are declared, that is unset or
    empty. *)
Theorem validateEnv_spec env :
  (validateEnv env = Return tt
   <-> Js.truthy (NOTION_API_KEY env) = true
       /\ Js.truthy (BROWSERBASE_API_KEY env) = true
       /\ Js.truthy (BROWSERBASE_PROJECT_ID env) = true)
  /\ (forall before n v after,
        requiredEnvVars env = before ++ (n, v) :: after ->
        Forall (fun e => Js.truthy (snd e) = true) before ->
        Js.truthy v = false ->
        validateEnv env = Throw (n +:+ " environment variable is required")).
Proof.
  split.
  - unfold validateEnv. rewrite validate_all. unfold requiredEnvVars.
    rewrite !Forall_cons. cbn [snd]. split.
    + by intros (? & ? & ? & _).
    + intros (? & ? & ?). by repeat split.
  - intros before n v after Hsplit Hbefore Hv. unfold validateEnv.
    rewrite Hsplit. by apply validate_first.
Qed.

(** ** The properties of a database entry *)

Lemma get_setProperty_ne key value o (k : string) :
  key <> k -> JsMap.get k (setProperty key value o) = JsMap.get k o.
Proof.
  intros Hne. unfold setProperty. destruct (_ && _); [done |]. by apply get_set_ne.
Qed.

Lemma get_setProperty_eq key value o :
  key <> "__proto__" -> JsMap.get key (setProperty key value o) = Some value.
Proof.
  intros Hne. unfold setProperty.
  destruct (String.eqb_spec key "__proto__") as [|_]; [done |]. apply get_set_eq.
Qed.

Lemma get_setProperty_proto key value o :
  JsMap.get "__proto__" o = None ->
  JsMap.get "__proto__" (setProperty key value o) = None.
Proof.
  intros Habsent. unfold setProperty.
  destruct (String.eqb_spec key "__proto__") as [->|Hne]; cbn [andb].
  - rewrite Habsent. rewrite bool_decide_eq_false_2; [done |]. by intros [v Hv].
  - by rewrite get_set_ne.
Qed.

Lemma NoDup_keys_setProperty key value (o : list (string * Json)) :
  NoDup (JsMap.keys o) -> NoDup (JsMap.keys (setProperty key value o)).
Proof.
  intros Hkeys. unfold setProperty. destruct (_ && _); [done |]. by apply NoDup_keys_set.
Qed.

Lemma assign_snoc target source kv :
  assign target (source ++ [kv]) = setProperty (fst kv) (snd kv) (assign target source).
Proof. unfold assign. by rewrite fold_left_app. Qed.

Lemma NoDup_keys_assign target source :
  NoDup (JsMap.keys target) -> NoDup (JsMap.keys (assign target source)).
Proof.
  intros Hkeys. induction source as [|kv source IH] using rev_ind; [done |].
  rewrite assign_snoc. by apply NoDup_keys_setProperty.
Qed.

(** [Object.assign] gives a target without an own [__proto__] none. *)
Lemma get_assign_proto target source :
  JsMap.get "__proto__" target = None ->
  JsMap.get "__proto__" (assign target source) = None.
Proof.
  intros Habsent. induction source as [|kv source IH] using rev_ind; [done |].
  rewrite assign_snoc. by apply get_setProperty_proto.
Qed.

(** After [Object.assign(target, source)] a key other than [__proto__]
    holds the last value [source] gives it, and otherwise what [target]
    held. *)
Lemma get_assign target source (k : string) :
  k <> "__proto__" ->
  JsMap.get k (assign target source)
  = match JsMap.get k (reverse source) with
    | Some v => Some v
    | None => JsMap.get k target
    end.
Proof.
  intros Hk. induction source as [|[k' v'] source IH] using rev_ind.
  - done.
  - rewrite assign_snoc, reverse_app. cbn [reverse rev_append app JsMap.get fst snd].
    destruct (decide (k' = k)) as [->|Hne].
    + by apply get_setProperty_eq.
    + by rewrite get_setProperty_ne.
Qed.

Lemma get_list_to_map (o : list (string * Json)) (k : string) :
  JsMap.get k o = (list_to_map o : gmap string Json) !! k.
Proof.
  induction o as [|[k' v'] o IH]; [done |]. cbn [JsMap.get list_to_map foldr].
  destruct (decide (k' = k)) as [->|Hne].
  - by rewrite lookup_insert_eq.
  - by rewrite lookup_insert_ne.
Qed.

Lemma ownProperties_Permutation o : ownProperties o ≡ₚ o.
Proof.
  unfold ownProperties. rewrite merge_sort_Permutation. apply filter_app_complement.
Qed.

(** Listing the properties in the object's order changes no lookup. *)
Lemma get_ownProperties o (k : string) :
  NoDup (JsMap.keys o) -> JsMap.get k (ownProperties o) = JsMap.get k o.
Proof.
  intros Hkeys. rewrite !get_list_to_map. f_equal.
  symmetry. apply list_to_map_proper; [exact Hkeys |].
  symmetry. apply ownProperties_Permutation.
Qed.

(** X5.  The properties sent for a new database entry have pairwise
    distinct keys and no key [__proto__].  A key given in
    [args.properties], other than [__proto__], holds the value given for
    it there (the last one, should the list repeat the key), also when
    the key is [Name] or [Tags]; any other key is [Name], holding the
    title, or [Tags], present only for a non-empty tag list. *)
Theorem databaseProperties_lookup args :
  NoDup (JsMap.keys (databaseProperties args))
  /\ forall k : string,
      JsMap.get k (databaseProperties args)
      = if decide (k = "__proto__")
        then None
        else
          match
            match arg_properties args with
            | Some extra => JsMap.get k (reverse extra)
            | None => None
            end
          with
          | Some v => Some v
          | None =>
              if decide (k = "Name")
              then Some (JObj [("title",
                                JArr [JObj [("text",
                                             JObj [("content",
                                                    jsonOfString (arg_title args))])]])])
              else if decide (k = "Tags")
              then match arg_tags args with
                   | Some (tag :: tags) =>
                       Some (JObj [("multi_select",
                                    JArr (List.map (fun t => JObj [("name", JStr t)])
                                                   (tag :: tags)))])
                   | _ => None
                   end
              else None
          end.
Proof.
  unfold databaseProperties. cbv zeta.
  set (named := [("Name",
                  JObj [("title",
                         JArr [JObj [("text",
                                      JObj [("content",
                                             jsonOfString (arg_title args))])]])])]).
  set (tagged := match arg_tags args with
                 | Some (tag :: tags) =>
                     named ++ [("Tags",
                                JObj [("multi_select",
                                       JArr (List.map (fun t => JObj [("name", JStr t)])
                                                      (tag :: tags)))])]
                 | _ => named
                 end).
  assert (Hkeys : NoDup (JsMap.keys tagged)).
  { subst tagged named.
    destruct (arg_tags args) as [[|tag tags]|]; cbn; try apply NoDup_singleton.
    apply NoDup_cons. split; [| apply NoDup_singleton].
    intros Hin. apply elem_of_cons in Hin as [Hin|Hin]; [discriminate Hin |].
    by apply elem_of_nil in Hin. }
  assert (Hbase : forall k : string,
    JsMap.get k tagged
    = if decide (k = "Name")
      then Some (JObj [("title",
                        JArr [JObj [("text",
                                     JObj [("content", jsonOfString (arg_title args))])]])])
      else if decide (k = "Tags")
      then match arg_tags args with
           | Some (tag :: tags) =>
               Some (JObj [("multi_select",
                            JArr (List.map (fun t => JObj [("name", JStr t)])
                                           (tag :: tags)))])
           | _ => None
           end
      else None).
  { intros k. subst tagged named.
    destruct (arg_tags args) as [[|tag tags]|]; cbn [app JsMap.get];
      repeat (destruct (decide _) as [?|?]; subst; try done). }
  assert (Hproto : JsMap.get "__proto__" tagged = None) by (by rewrite Hbase).
  set (created := match arg_properties args with
                  | Some extra => assign tagged extra
                  | None => tagged
                  end).
  assert (Hcreated : NoDup (JsMap.keys created)).
  { subst created. destruct (arg_properties args); [by apply NoDup_keys_assign | done]. }
  split.
  - unfold JsMap.keys. rewrite ownProperties_Permutation. exact Hcreated.
  - intros k. rewrite (get_ownProperties _ _ Hcreated). subst created.
    destruct (decide (k = "__proto__")) as [->|Hk].
    + destruct (arg_properties args); [by apply get_assign_proto | done].
    + destruct (arg_properties args) as [extra|].
      * rewrite (get_assign _ _ _ Hk). destruct (JsMap.get k (reverse extra)); [done |].
        apply Hbase.
      * apply Hbase.
Qed.

(** ** Tools that answer with an envelope *)

Lemma get_case_Some (w : World) (n : string) :
  n ∈ dispatched w ->
  exists body, JsMap.get n (cases w) = Some body /\ (n, body) ∈ cases w.
Proof.
  unfold dispatched, JsMap.keys. generalize (cases w). intros m.
  induction m as [|[k' v'] m IH]; cbn [JsMap.get List.map fst].
  - by intros ?%elem_of_nil.
  - intros Hin. destruct (decide (k' = n)) as [->|Hne].
    + exists v'. split; [done | left].
    + apply elem_of_cons in Hin as [->|Hin]; [done |].
      destruct (IH Hin) as (body & Hget & Hbody). exists body.
      split; [done | by right].
Qed.

(** X6.  Once the session of the call is resolved, every tool of the
    [switch] other than navigation and screenshot answers with a result
    envelope however its requests end, fulfilled or rejected with an
    [Error], with one exception, the request whose rejection carries a
    value of the caller's: the evaluation tool throws, and throws the
    [TypeError] of reading [message], exactly when the script it was
    given threw [null] or [undefined]. *)
Theorem tools_with_try_return w n args st defaultSession st1 :
  n ∈ dispatched w ->
  n <> "puppeteer_navigate" ->
  n <> "puppeteer_screenshot" ->
  resolveDefault w n args st = (Return defaultSession, st1) ->
  match fst (handleToolCall w n args st) with
  | Return _ =>
      n = "puppeteer_evaluate" ->
      forall session p reason,
        defaultSession = Some session -> page session = Some p ->
        evaluateScript w (clock st1) p (arg_script args) <> ScriptThrewNullish reason
  | Throw e =>
      n = "puppeteer_evaluate"
      /\ exists session p reason,
           defaultSession = Some session /\ page session = Some p
           /\ evaluateScript w (clock st1) p (arg_script args)
              = ScriptThrewNullish reason
           /\ e = typeErrorOn reason "message"
  end.
Proof.
  intros Hin Hnav Hshot Hresolve.
  destruct (get_case_Some w n Hin) as (body & Hget & Hbody).
  rewrite handleToolCall_unfold, Hresolve.
  destruct (decide (n = "puppeteer_evaluate")) as [->|Heval].
  - change (JsMap.get "puppeteer_evaluate" (cases w)) with (Some (case_evaluate w)).
    cbv beta iota zeta. unfold case_evaluate, issueScript. run_monad.
    destruct defaultSession as [[b [p|]]|]; cbn [page]; cbv beta iota zeta;
      cbn [fst]; try (intros _ session q reason [= <-] Hq; by cbn in Hq);
      try (by intros _ session q reason [=]).
    destruct (evaluateScript w (clock st1) p (arg_script args)) as [result logs|e|reason]
      eqn:Hscript; cbv beta iota zeta; cbn [fst].
    + intros _ session q reason [= <-] [= <-]. by rewrite Hscript.
    + intros _ session q reason [= <-] [= <-]. by rewrite Hscript.
    + split; [done |]. by exists {| browser := b; page := Some p |}, p, reason.
  - rewrite Hget.
    destruct (guarded_case_returns w n body args defaultSession st1 Hbody Hnav Hshot Heval)
      as (r & st' & ->).
    cbn [fst]. by intros ->.
Qed.

(** A script that throws [null]: the handler throws out of its
    [catch] block. *)
Lemma tools_with_try_return_witness :
  fst (handleToolCall throwsNull "puppeteer_evaluate" (noArgs (Some "s1")) oneSession)
  = Throw "Cannot read properties of null (reading 'message')"
  /\ "puppeteer_evaluate" = "puppeteer_evaluate"
  /\ exists session p reason,
       Some session0 = Some session /\ page session = Some p
       /\ evaluateScript throwsNull (clock oneSession) p (arg_script (noArgs (Some "s1")))
          = ScriptThrewNullish reason
       /\ "Cannot read properties of null (reading 'message')"
          = typeErrorOn reason "message".
Proof.
  split; [reflexivity |].
  apply (tools_with_try_return throwsNull "puppeteer_evaluate" (noArgs (Some "s1"))
           oneSession (Some session0) oneSession).
  - unfold dispatched. cbn. rewrite !elem_of_cons. tauto.
  - intros H; discriminate H.
  - intros H; discriminate H.
  - reflexivity.
Defined.

(** X7.  The bulk tool never throws: with no list, an empty list, or
    items whose sessions cannot be created, it still answers with an
    envelope. *)
Theorem bulk_never_throws w args st :
  exists r st',
    handleToolCall w "puppeteer_parallel_sessions" args st = (Return r, st').
Proof.
  rewrite handleToolCall_unfold, get_case_parallel_sessions.
  change (resolveDefault w "puppeteer_parallel_sessions" args st)
    with (Return (@None Session), st).
  cbv beta iota zeta. apply try_catch_returns.
Qed.

(** ** Sessions that cannot be created *)

(** X8.  For every tool but the bulk one, the create-session tool and
    the Notion tools included, a call whose [sessionId] is not
    registered while the connection fails throws the connection error:
    the only request made is the connection attempt, and nothing else
    of the state changes. *)
Theorem unreachable_session_throws w n args st e :
  n <> "puppeteer_parallel_sessions" ->
  browsers st !! arg_sessionId args = None ->
  connect w (clock st) = Throw e ->
  handleToolCall w n args st
  = (Throw e, with_trace (fun tr => tr ++ [(Connect, false)]) st).
Proof.
  intros Hn Hfresh Hdown. rewrite handleToolCall_unfold. unfold resolveDefault.
  destruct (String.eqb_spec n "puppeteer_parallel_sessions"); [done |].
  cbn [negb]. rewrite Hfresh.
  unfold createNewBrowserSession, issueConnect. run_monad. by rewrite Hdown.
Qed.

Lemma unreachable_session_throws_witness :
  handleToolCall unreachable "notion_read_comments" (noArgs (Some "s1")) initial
  = (Throw "connect ECONNREFUSED",
     with_trace (fun tr => tr ++ [(Connect, false)]) initial).
Proof.
  apply (unreachable_session_throws unreachable "notion_read_comments");
    [intros H; discriminate H | reflexivity | reflexivity].
Defined.

(** X9.  When the session is registered and a new connection fails,
    the create-session tool answers with the failure envelope
    [Failed to create browser session: ...] and the registered session
    stays as it was. *)
Theorem create_session_failure_keeps_session w args st session e :
  browsers st !! arg_sessionId args = Some session ->
  connect w (clock st) = Throw e ->
  handleToolCall w "puppeteer_create_session" args st
  = (Return {| toolResult :=
                 {| content := [TextContent ("Failed to create browser session: " +:+ e)];
                    isError := true |} |},
     with_trace (fun tr => tr ++ [(Connect, false)]) st)
  /\ browsers (with_trace (fun tr => tr ++ [(Connect, false)]) st) !! arg_sessionId args
     = Some session.
Proof.
  intros Hreg Hdown. split; [| done].
  rewrite handleToolCall_unfold, get_case_create_session.
  rewrite (resolveDefault_registered w _ args st session); [| done | done].
  unfold case_create_session, createNewBrowserSession, issueConnect. run_monad.
  by rewrite Hdown.
Qed.

Lemma create_session_failure_keeps_session_witness :
  handleToolCall unreachable "puppeteer_create_session" (noArgs (Some "s1")) oneSession
  = (Return {| toolResult :=
                 {| content := [TextContent ("Failed to create browser session: "
                                             +:+ "connect ECONNREFUSED")];
                    isError := true |} |},
     with_trace (fun tr => tr ++ [(Connect, false)]) oneSession)
  /\ browsers (with_trace (fun tr => tr ++ [(Connect, false)]) oneSession)
       !! arg_sessionId (noArgs (Some "s1"))
     = Some session0.
Proof.
  apply (create_session_failure_keeps_session unreachable (noArgs (Some "s1"))
           oneSession session0 "connect ECONNREFUSED"); reflexivity.
Defined.

(** X10.  A browser that reports no page: the call that creates the
    session throws the [TypeError] of [page.on], yet the pair, with no
    page, is registered and no listener is installed; a later
    navigation under the same [sessionId] finds that pair and throws
    the [TypeError] of [page.goto] without any request. *)
Theorem pageless_session_is_registered w n args args' st :
  n <> "puppeteer_parallel_sessions" ->
  browsers st !! arg_sessionId args = None ->
  connect w (clock st) = Return tt ->
  pages w (S (clock st)) (requested st) = Return O ->
  arg_sessionId args' = arg_sessionId args ->
  let r := handleToolCall w n args st in
  fst r = Throw "Cannot read properties of undefined (reading 'on')"
  /\ browsers (snd r) !! arg_sessionId args
     = Some {| browser := requested st; page := None |}
  /\ handlers (snd r) = handlers st
  /\ handleToolCall w "puppeteer_navigate" args' (snd r)
     = (Throw "Cannot read properties of undefined (reading 'goto')", snd r).
Proof.
  intros Hn Hfresh Hconnect Hpages Hsame. cbn zeta.
  assert (Hcall : handleToolCall w n args st
                  = (Throw (typeError "on"),
                     with_browsers <[arg_sessionId args :=
                                       {| browser := requested st; page := None |}]>
                       (with_trace (fun tr => tr ++ [(Connect, true);
                                                     (Pages (requested st), true)]) st))).
  { rewrite handleToolCall_unfold. unfold resolveDefault.
    destruct (String.eqb_spec n "puppeteer_parallel_sessions"); [done |].
    cbn [negb]. rewrite Hfresh.
    unfold createNewBrowserSession, issueConnect, registerSession. run_monad.
    rewrite Hconnect. crunch. unfold clock in *. state_simpl.
    rewrite length_app, Nat.add_1_r. cbn [length]. rewrite Hpages. crunch.
    cbn [firstPage]. crunch. unfold with_browsers, with_trace. cbn.
    by rewrite <- app_assoc. }
  rewrite Hcall. state_simpl. split_and!; [done | apply lookup_insert_eq | done |].
  rewrite handleToolCall_unfold, get_case_navigate.
  rewrite (resolveDefault_registered w _ args' _ {| browser := requested st; page := None |});
    [done | done |].
  state_simpl. rewrite Hsame. apply lookup_insert_eq.
Qed.

Lemma pageless_session_is_registered_witness :
  let r := handleToolCall pageless "puppeteer_click" (noArgs (Some "s1")) initial in
  fst r = Throw "Cannot read properties of undefined (reading 'on')"
  /\ browsers (snd r) !! Some "s1" = Some {| browser := 0%nat; page := None |}
  /\ handlers (snd r) = []
  /\ handleToolCall pageless "puppeteer_navigate" (navigateArgs "s1" "https://x") (snd r)
     = (Throw "Cannot read properties of undefined (reading 'goto')", snd r).
Proof.
  cbv zeta.
  apply (pageless_session_is_registered pageless "puppeteer_click" (noArgs (Some "s1"))
           (navigateArgs "s1" "https://x") initial);
    [intros H; discriminate H | reflexivity ..].
Defined.

(** ** Captures and the resource catalog *)

(** What a screenshot without selector that succeeds answers and
    stores. *)
Lemma screenshot_call w args st session p st1 data :
  resolveDefault w "puppeteer_screenshot" args st = (Return (Some session), st1) ->
  page session = Some p ->
  setViewport w (clock st1) p (default 800 (arg_width args))
              (default 600 (arg_height args)) = Return tt ->
  Js.truthy (arg_selector args) = false ->
  pageScreenshot w (S (clock st1)) p = Return data ->
  data <> "" ->
  handleToolCall w "puppeteer_screenshot" args st
  = (Return {| toolResult :=
                 {| content :=
                      [TextContent ("Screenshot '" +:+ Js.str (arg_name args)
                                    +:+ "' taken at "
                                    +:+ Js.num (default 800 (arg_width args))
                                    +:+ "x"
                                    +:+ Js.num (default 600 (arg_height args)));
                       ImageContent data "image/png"];
                    isError := false |} |},
     with_notifications (fun sent => sent ++ [ResourcesListChanged])
       (with_screenshots (JsMap.set (arg_name args) data)
          (with_trace (fun tr => tr ++ [(PageScreenshot p, true)])
             (with_viewports
                <[p := (default 800 (arg_width args),
                        default 600 (arg_height args))]>
                (with_trace
                   (fun tr => tr ++ [(SetViewport p
                                        (default 800 (arg_width args))
                                        (default 600 (arg_height args)),
                                      true)]) st1))))).
Proof.
  intros Hresolve Hpage Hview Hsel Hshot Hdata.
  rewrite handleToolCall_unfold, Hresolve, get_case_screenshot.
  unfold case_screenshot. run_monad. rewrite Hpage. cbv beta iota zeta.
  rewrite Hview. cbv beta iota zeta. state_simpl. rewrite Hsel.
  unfold clock in *. state_simpl. rewrite length_app, Nat.add_1_r. cbn [length].
  rewrite Hshot. cbv beta iota zeta. state_simpl.
  rewrite (truthy_Some _ Hdata). done.
Qed.

(** X11.  A screenshot without selector, of a viewport whose sides are
    safe integers, that succeeds stores the payload under the given
    name, where it replaces what the name held and leaves the other
    names and their order alone, sends one resource-list-changed
    notification, and answers with the text, which gives the sides in
    decimal, and the image. *)
Theorem screenshot_stores_capture w args st session p st1 data :
  resolveDefault w "puppeteer_screenshot" args st = (Return (Some session), st1) ->
  page session = Some p ->
  setViewport w (clock st1) p (default 800 (arg_width args))
              (default 600 (arg_height args)) = Return tt ->
  Js.truthy (arg_selector args) = false ->
  pageScreenshot w (S (clock st1)) p = Return data ->
  data <> "" ->
  Js.isSafeInteger (default 800 (arg_width args)) = true ->
  Js.isSafeInteger (default 600 (arg_height args)) = true ->
  let r := handleToolCall w "puppeteer_screenshot" args st in
  fst r = Return {| toolResult :=
                      {| content :=
                           [TextContent ("Screenshot '" +:+ Js.str (arg_name args)
                                         +:+ "' taken at "
                                         +:+ Js.num (default 800 (arg_width args))
                                         +:+ "x"
                                         +:+ Js.num (default 600 (arg_height args)));
                            ImageContent data "image/png"];
                         isError := false |} |}
  /\ screenshots (snd r) = JsMap.set (arg_name args) data (screenshots st)
  /\ JsMap.get (arg_name args) (screenshots (snd r)) = Some data
  /\ (forall other, other <> arg_name args ->
        JsMap.get other (screenshots (snd r)) = JsMap.get other (screenshots st))
  /\ JsMap.keys (screenshots (snd r))
     = (if decide (arg_name args ∈ JsMap.keys (screenshots st))
        then JsMap.keys (screenshots st)
        else JsMap.keys (screenshots st) ++ [arg_name args])
  /\ notifications (snd r) = notifications st ++ [ResourcesListChanged].
Proof.
  intros Hresolve Hpage Hview Hsel Hshot Hdata _ _. cbn zeta.
  pose proof (resolveDefault_frame w "puppeteer_screenshot" args st) as Hframe.
  cbn zeta in Hframe. rewrite Hresolve in Hframe. cbn [snd] in Hframe.
  destruct Hframe as (Hshots & _ & Hnotes & _).
  rewrite (screenshot_call w args st session p st1 data
             Hresolve Hpage Hview Hsel Hshot Hdata).
  state_simpl. rewrite Hshots, Hnotes.
  split_and!; [done | done | apply get_set_eq | | apply keys_set | done].
  intros other Hother. by apply get_set_ne.
Qed.

Lemma screenshot_stores_capture_witness :
  let r := handleToolCall calm "puppeteer_screenshot" homeArgs oneSession in
  fst r = Return {| toolResult :=
                      {| content :=
                           [TextContent ("Screenshot '" +:+ "home" +:+ "' taken at "
                                         +:+ Js.num 800 +:+ "x" +:+ Js.num 600);
                            ImageContent "cGFnZQ==" "image/png"];
                         isError := false |} |}
  /\ screenshots (snd r) = JsMap.set (Some "home") "cGFnZQ==" (screenshots oneSession)
  /\ JsMap.get (Some "home") (screenshots (snd r)) = Some "cGFnZQ=="
  /\ (forall other, other <> Some "home" ->
        JsMap.get other (screenshots (snd r)) = JsMap.get other (screenshots oneSession))
  /\ JsMap.keys (screenshots (snd r))
     = (if decide (Some "home" ∈ JsMap.keys (screenshots oneSession))
        then JsMap.keys (screenshots oneSession)
        else JsMap.keys (screenshots oneSession) ++ [Some "home"])
  /\ notifications (snd r) = notifications oneSession ++ [ResourcesListChanged].
Proof.
  cbv zeta.
  apply (screenshot_stores_capture calm homeArgs oneSession session0 page0 oneSession
           "cGFnZQ=="); try reflexivity.
  intros H; discriminate H.
Defined.

(** X12.  A screenshot captured under a name without [://] can be read
    back: right after the call the listing offers its URI, and reading
    that URI returns the payload just captured. *)
Theorem screenshot_then_read w args st session p st1 data name :
  resolveDefault w "puppeteer_screenshot" args st = (Return (Some session), st1) ->
  page session = Some p ->
  setViewport w (clock st1) p (default 800 (arg_width args))
              (default 600 (arg_height args)) = Return tt ->
  Js.truthy (arg_selector args) = false ->
  pageScreenshot w (S (clock st1)) p = Return data ->
  data <> "" ->
  arg_name args = Some name ->
  occurs "://" name = false ->
  let st' := snd (handleToolCall w "puppeteer_screenshot" args st) in
  {| uri := "screenshot://" +:+ name; res_mimeType := "image/png";
     res_name := "Screenshot: " +:+ name |} ∈ listResources st'
  /\ readResource st' ("screenshot://" +:+ name)
     = Return (BlobResource ("screenshot://" +:+ name) "image/png" data).
Proof.
  intros Hresolve Hpage Hview Hsel Hshot Hdata Hname Habsent. cbn zeta.
  pose proof (resolveDefault_frame w "puppeteer_screenshot" args st) as Hframe.
  cbn zeta in Hframe. rewrite Hresolve in Hframe. cbn [snd] in Hframe.
  destruct Hframe as (Hshots & _).
  assert (Hstored : screenshots (snd (handleToolCall w "puppeteer_screenshot" args st))
                    = JsMap.set (arg_name args) data (screenshots st)).
  { rewrite (screenshot_call w args st session p st1 data
               Hresolve Hpage Hview Hsel Hshot Hdata).
    state_simpl. by rewrite Hshots. }
  pose proof (get_set_eq (screenshots st) (arg_name args) data) as Hget.
  pose proof (keys_set (screenshots st) (arg_name args) data) as Hkeys.
  rewrite <- Hstored in Hget, Hkeys.
  rewrite Hname in Hget, Hkeys. split.
  - unfold listResources. right.
    apply (list_elem_of_fmap_2 (fun n => {| uri := "screenshot://" +:+ Js.str n;
                                  res_mimeType := "image/png";
                                  res_name := "Screenshot: " +:+ Js.str n |})
             _ (Some name)).
    rewrite Hkeys. case_decide; [done |]. apply elem_of_app. right. by left.
  - by apply readResource_screenshot.
Qed.

Lemma screenshot_then_read_witness :
  let st' := snd (handleToolCall calm "puppeteer_screenshot" homeArgs oneSession) in
  {| uri := "screenshot://" +:+ "home"; res_mimeType := "image/png";
     res_name := "Screenshot: " +:+ "home" |} ∈ listResources st'
  /\ readResource st' ("screenshot://" +:+ "home")
     = Return (BlobResource ("screenshot://" +:+ "home") "image/png" "cGFnZQ==").
Proof.
  cbv zeta.
  apply (screenshot_then_read calm homeArgs oneSession session0 page0 oneSession
           "cGFnZQ==" "home"); try reflexivity.
  intros H; discriminate H.
Defined.

(** X13.  An empty selector is no selector: the screenshot tool and the
    content tool treat [selector: ""] exactly as a payload without
    [selector], so the first captures the viewport and the second
    extracts from every element. *)
Theorem empty_selector_is_no_selector w args st :
  handleToolCall w "puppeteer_screenshot" (withSelector (Some "") args) st
  = handleToolCall w "puppeteer_screenshot" (withSelector None args) st
  /\ handleToolCall w "puppeteer_get_content" (withSelector (Some "") args) st
     = handleToolCall w "puppeteer_get_content" (withSelector None args) st.
Proof. split; reflexivity. Qed.

(** X14.  Every listed resource can be read when the stored names are
    strings without [://] and the stored payloads are not empty: the
    console log as text, each screenshot as the payload the map holds
    for its name. *)
Theorem listed_resources_readable st r :
  Forall (fun kv => exists name, fst kv = Some name /\ occurs "://" name = false)
         (screenshots st) ->
  Forall (fun kv => snd kv <> "") (screenshots st) ->
  r ∈ listResources st ->
  (uri r = "console://logs"
   /\ readResource st (uri r)
      = Return (TextResource "console://logs" "text/plain"
                  (Js.join Js.newline (consoleLogs st))))
  \/ (exists name payload,
        uri r = "screenshot://" +:+ name
        /\ JsMap.get (Some name) (screenshots st) = Some payload
        /\ readResource st (uri r)
           = Return (BlobResource ("screenshot://" +:+ name) "image/png" payload)).
Proof.
  intros Hnames Hpayloads Hin. unfold listResources in Hin.
  apply elem_of_cons in Hin as [->|Hin]; [by left |]. right.
  apply list_elem_of_fmap in Hin as (key & -> & Hkey).
  unfold JsMap.keys in Hkey. apply list_elem_of_fmap in Hkey as ([k v] & -> & Hkv).
  cbn [fst uri].
  pose proof (proj1 (Forall_forall _ _) Hnames _ Hkv) as (name & Hname & Habsent).
  cbn [fst] in Hname. subst k. cbn [Js.str].
  assert (Hstored : exists payload,
             JsMap.get (Some name) (screenshots st) = Some payload /\ payload <> "").
  { clear Hnames. induction (screenshots st) as [|[k' v'] m IH]; [by apply elem_of_nil in Hkv |].
    apply Forall_cons in Hpayloads as [Hhead Htail]. cbn [JsMap.get].
    destruct (decide (k' = Some name)) as [->|Hne]; [by exists v' |].
    apply elem_of_cons in Hkv as [[= <- <-]|Hkv]; [done |]. by apply IH. }
  destruct Hstored as (payload & Hget & Hpayload).
  exists name, payload. split_and!; [done | done |].
  by apply readResource_screenshot.
Qed.

Lemma listed_resources_readable_witness :
  let st := snd (handleToolCall calm "puppeteer_screenshot" homeArgs oneSession) in
  (uri {| uri := "screenshot://home"; res_mimeType := "image/png";
          res_name := "Screenshot: home" |} = "console://logs"
   /\ readResource st "screenshot://home"
      = Return (TextResource "console://logs" "text/plain"
                  (Js.join Js.newline (consoleLogs st))))
  \/ (exists name payload,
        "screenshot://home" = "screenshot://" +:+ name
        /\ JsMap.get (Some name) (screenshots st) = Some payload
        /\ readResource st "screenshot://home"
           = Return (BlobResource ("screenshot://" +:+ name) "image/png" payload)).
Proof.
  cbv zeta.
  apply (listed_resources_readable
           (snd (handleToolCall calm "puppeteer_screenshot" homeArgs oneSession))
           {| uri := "screenshot://home"; res_mimeType := "image/png";
              res_name := "Screenshot: home" |}).
  - repeat constructor. by exists "home".
  - repeat constructor. intros H; discriminate H.
  - right. left.
Defined.

(** ** Edges of the bulk tool *)

(** X15.  The bulk tool called with an empty list answers with a
    success envelope holding the empty array, and called without a list
    with the failure envelope of the [TypeError]; in both cases it makes
    no request and changes nothing. *)
Theorem bulk_without_items w args st :
  (arg_sessions args = Some [] ->
   handleToolCall w "puppeteer_parallel_sessions" args st
   = (Return {| toolResult :=
                  {| content := [TextContent ("Parallel sessions results:"
                                              +:+ Js.newline +:+ "[]")];
                     isError := false |} |}, st))
  /\ (arg_sessions args = None ->
      handleToolCall w "puppeteer_parallel_sessions" args st
      = (Return {| toolResult :=
                     {| content :=
                          [TextContent
                             ("Failed to execute parallel sessions: "
                              +:+ "Cannot read properties of undefined (reading 'length')")];
                        isError := true |} |}, st)).
Proof.
  split; intros Hitems;
    rewrite handleToolCall_unfold, get_case_parallel_sessions;
    change (resolveDefault w "puppeteer_parallel_sessions" args st)
      with (Return (@None Session), st);
    cbv beta iota zeta; unfold case_parallel_sessions, promiseAll, settleAll; run_monad;
    by rewrite Hitems.
Qed.

Lemma bulk_without_items_witness :
  handleToolCall calm "puppeteer_parallel_sessions" (bulkArgs []) oneSession
  = (Return {| toolResult :=
                 {| content := [TextContent ("Parallel sessions results:"
                                             +:+ Js.newline +:+ "[]")];
                    isError := false |} |}, oneSession)
  /\ handleToolCall calm "puppeteer_parallel_sessions" (noArgs None) oneSession
     = (Return {| toolResult :=
                    {| content :=
                         [TextContent
                            ("Failed to execute parallel sessions: "
                             +:+ "Cannot read properties of undefined (reading 'length')")];
                       isError := true |} |}, oneSession).
Proof.
  split.
  - apply (proj1 (bulk_without_items calm (bulkArgs []) oneSession)). reflexivity.
  - apply (proj2 (bulk_without_items calm (noArgs None) oneSession)). reflexivity.
Defined.

(** ** Notion tools *)

(** X16.  With neither a [pageUrl] argument nor the [NOTION_PAGE_URL]
    variable, the read-page tool takes the built-in default URL, which
    holds no identifier: once the session is resolved the tool answers
    with the failure envelope and sends nothing to Notion. *)
Theorem notion_read_page_default_fails w args st defaultSession st1 :
  resolveDefault w "notion_read_page" args st = (Return defaultSession, st1) ->
  Js.truthy (arg_pageUrl args) = false ->
  Js.truthy (env_NOTION_PAGE_URL w) = false ->
  handleToolCall w "notion_read_page" args st
  = (Return {| toolResult :=
                 {| content :=
                      [TextContent ("Failed to read page: "
                                    +:+ "Could not extract page ID from Notion URL")];
                    isError := true |} |}, st1).
Proof.
  intros Hresolve Hurl Henv. rewrite handleToolCall_unfold, Hresolve.
  change (JsMap.get "notion_read_page" (cases w)) with (Some (case_notion_read_page w)).
  cbv beta iota zeta. unfold case_notion_read_page, NOTION_PAGE_URL, Js.or_else.
  rewrite Hurl, Henv. by run_monad.
Qed.

Lemma notion_read_page_default_fails_witness :
  handleToolCall calm "notion_read_page" (noArgs (Some "s1")) oneSession
  = (Return {| toolResult :=
                 {| content :=
                      [TextContent ("Failed to read page: "
                                    +:+ "Could not extract page ID from Notion URL")];
                    isError := true |} |}, oneSession).
Proof.
  apply (notion_read_page_default_fails calm (noArgs (Some "s1")) oneSession
           (Some session0) oneSession); reflexivity.
Defined.

(** X17.  The update-page tool does what the append-content tool does:
    both send the same single request, which appends one paragraph to
    the page, and leave the same state; their answers differ only in
    the wording, never in the failure flag. *)
Theorem notion_update_is_append w args st :
  let update := handleToolCall w "notion_update_page" args st in
  let append := handleToolCall w "notion_append_content" args st in
  snd update = snd append
  /\ match fst update, fst append with
     | Return r1, Return r2 =>
         isError (toolResult r1) = isError (toolResult r2)
     | Throw e1, Throw e2 => e1 = e2
     | _, _ => False
     end
  /\ (forall defaultSession st1,
        resolveDefault w "notion_update_page" args st = (Return defaultSession, st1) ->
        exists ok,
          trace (snd update)
          = trace st1 ++ [(AppendChildren (arg_pageId args) (arg_content args), ok)]).
Proof.
  cbn zeta. rewrite !handleToolCall_unfold.
  change (JsMap.get "notion_update_page" (cases w))
    with (Some (case_notion_update_page w)).
  change (JsMap.get "notion_append_content" (cases w))
    with (Some (case_notion_append_content w)).
  change (resolveDefault w "notion_append_content" args st)
    with (resolveDefault w "notion_update_page" args st).
  destruct (resolveDefault w "notion_update_page" args st) as [[ds|e] st1];
    cbv beta iota zeta; [| by split_and!].
  unfold case_notion_update_page, case_notion_append_content. run_monad.
  destruct (appendChildren w (clock st1) (arg_pageId args) (arg_content args))
    as [[]|e]; cbv beta iota zeta; state_simpl;
    (split_and!; [done | done |]); intros ds' st1' [= <- <-]; by eexists.
Qed.

(** ** What tool calls leave of the state *)

(** A relation between the state before and the state after that holds
    of every step of the handler holds of the handler.  The steps are:
    no change, a request, a session creation and the bulk tool's
    [Promise.all]. *)
Section Preservation.

Context (w : World) (R : State -> State -> Prop).

Hypothesis R_refl : forall st, R st st.

Hypothesis R_trans : forall st1 st2 st3, R st1 st2 -> R st2 st3 -> R st1 st3.

Hypothesis R_request :
  forall st c ok, R st (with_trace (fun tr => tr ++ [(c, ok)]) st).

Lemma preserves_ret {A} (a : A) : preserves R (ret a).
Proof. intros st. apply R_refl. Qed.

Lemma preserves_throw {A} (e : string) : preserves R (@throw A e).
Proof. intros st. apply R_refl. Qed.

Lemma preserves_bind {A B} (m : M A) (k : A -> M B) :
  preserves R m -> (forall a, preserves R (k a)) -> preserves R (bind m k).
Proof.
  intros Hm Hk st. unfold bind. specialize (Hm st).
  destruct (m st) as [[a|e] st']; cbn [snd] in *; [| done].
  eapply R_trans; [exact Hm | apply Hk].
Qed.

Lemma preserves_try_catch {A} (m : M A) (handler : string -> M A) :
  preserves R m -> (forall e, preserves R (handler e)) ->
  preserves R (try_catch m handler).
Proof.
  intros Hm Hh st. unfold try_catch. specialize (Hm st).
  destruct (m st) as [[a|e] st']; cbn [snd] in *; [done |].
  eapply R_trans; [exact Hm | apply Hh].
Qed.

Lemma preserves_settle {A} (r : Completion A) : preserves R (settle r).
Proof. destruct r; [apply preserves_ret | apply preserves_throw]. Qed.

Lemma preserves_request {A} (c : Call) (answer : Time -> Completion A) :
  preserves R (request c answer).
Proof.
  apply preserves_bind; [| intros r; apply preserves_settle].
  intros st. apply R_request.
Qed.

Lemma preserves_pageOf defaultSession method :
  preserves R (pageOf defaultSession method).
Proof.
  unfold pageOf. destruct defaultSession as [[b [p|]]|]; cbn [page];
    [apply preserves_ret | apply preserves_throw ..].
Qed.

Lemma preserves_issue {A} (c : Call) (answer : Time -> Completion A) :
  preserves R (issue c answer).
Proof. intros st. apply R_request. Qed.

Lemma preserves_issueScript p script : preserves R (issueScript w p script).
Proof. intros st. apply R_request. Qed.

Lemma preserves_issueConnect : preserves R (issueConnect w).
Proof.
  intros st. unfold issueConnect.
  pose proof (preserves_issue Connect (connect w) st) as Hissue.
  by destruct (issue Connect (connect w) st) as [[r|e] st'].
Qed.

(** *** From the steps to the handler *)

Section Steps.

Hypothesis R_create :
  forall sessionId, preserves R (createNewBrowserSession w sessionId).

Hypothesis R_bulk : forall items, preserves R (promiseAll w items).

Lemma preserves_resolveDefault n args : preserves R (resolveDefault w n args).
Proof.
  intros st. unfold resolveDefault. destruct (negb _); [| apply R_refl].
  destruct (browsers st !! arg_sessionId args); [apply R_refl |].
  apply preserves_bind; [apply R_create | intros s; apply preserves_ret].
Qed.

Ltac preserve :=
  repeat first
    [ apply preserves_ret
    | apply preserves_throw
    | apply preserves_request
    | apply preserves_settle
    | apply preserves_pageOf
    | apply preserves_issueScript
    | apply R_create
    | apply R_bulk
    | (apply preserves_bind; [| intros ?])
    | (apply preserves_try_catch; [| intros ?])
    | match goal with
      | |- preserves R (match ?x with _ => _ end) => destruct x
      end ].

(** Every case of the [switch] but the screenshot one. *)
Lemma other_cases_preserve n body args defaultSession :
  (n, body) ∈ cases w ->
  n <> "puppeteer_screenshot" ->
  preserves R (body args defaultSession).
Proof.
  intros Hin Hshot. unfold cases in Hin.
  repeat (apply elem_of_cons in Hin as [Heq|Hin];
          [injection Heq as -> ->; try done;
           cbv delta [case_create_session case_navigate case_click case_fill
                      case_evaluate case_get_json case_get_content
                      case_parallel_sessions case_notion_read_page
                      case_notion_update_page case_notion_append_content
                      case_notion_read_comments case_notion_add_comment
                      case_notion_add_to_database];
           cbv beta zeta; preserve |]).
  by apply elem_of_nil in Hin.
Qed.

Lemma handleToolCall_preserves_other n args :
  n <> "puppeteer_screenshot" -> preserves R (handleToolCall w n args).
Proof.
  intros Hshot. unfold handleToolCall.
  apply preserves_bind; [apply preserves_resolveDefault | intros ds].
  destruct (JsMap.get n (cases w)) as [body|] eqn:Hget.
  - apply (other_cases_preserve n); [| done].
    clear -Hget. revert Hget. generalize (cases w). intros m.
    induction m as [|[k' v'] m IH]; cbn [JsMap.get]; [done |].
    destruct (decide (k' = n)) as [->|Hne].
    + intros [= ->]. left.
    + intros Hget. right. by apply IH.
  - apply preserves_ret.
Qed.

(** The screenshot case sets the viewport and, when it has a payload
    that is not empty, stores it and notifies. *)
Hypothesis R_viewport :
  forall st p width height, R st (with_viewports <[p := (width, height)]> st).

Hypothesis R_store :
  forall st name data,
    data <> "" ->
    R st (with_notifications (fun sent => sent ++ [ResourcesListChanged])
            (with_screenshots (JsMap.set name data) st)).

Lemma screenshot_case_preserves args defaultSession :
  preserves R (case_screenshot w args defaultSession).
Proof.
  unfold case_screenshot. cbv zeta.
  apply preserves_bind; [apply preserves_pageOf | intros p].
  apply preserves_bind.
  { unfold page_setViewport. apply preserves_bind; [apply preserves_request |].
    intros _ st. apply R_viewport. }
  intros _. apply preserves_bind.
  { destruct (Js.truthy (arg_selector args)); preserve. }
  intros [data|]; cbn [Js.truthy]; [| apply preserves_ret].
  destruct (String.eqb_spec data "") as [->|Hdata]; cbn [negb];
    [apply preserves_ret |].
  intros st. unfold bind, modify, ret. cbn [snd Js.str]. by apply R_store.
Qed.

Lemma handleToolCall_preserves n args : preserves R (handleToolCall w n args).
Proof.
  destruct (decide (n = "puppeteer_screenshot")) as [->|Hn];
    [| by apply handleToolCall_preserves_other].
  unfold handleToolCall.
  apply preserves_bind; [apply preserves_resolveDefault | intros ds].
  rewrite get_case_screenshot. apply screenshot_case_preserves.
Qed.

End Steps.

(** *** Session creation and the bulk tool, from registration *)

Section Registering.

Hypothesis R_register :
  forall sessionId b count, preserves R (registerSession sessionId b count).

Lemma createNewBrowserSession_preserves sessionId :
  preserves R (createNewBrowserSession w sessionId).
Proof.
  unfold createNewBrowserSession.
  apply preserves_bind; [apply preserves_issueConnect | intros c].
  apply preserves_bind; [apply preserves_settle | intros _].
  apply preserves_bind; [apply preserves_request | intros count].
  apply R_register.
Qed.

Lemma resumeBody_preserves s t : preserves R (resumeBody w s t).
Proof.
  destruct t as [b r|b r|p r|r|e|e]; cbn [resumeBody].
  - apply preserves_bind; [apply preserves_settle | intros _].
    apply preserves_bind; [apply preserves_issue | intros r'; apply preserves_ret].
  - apply preserves_bind; [apply preserves_settle | intros count].
    apply preserves_bind; [apply R_register | intros session].
    destruct (page session); [| apply preserves_ret].
    apply preserves_bind; [apply preserves_issue | intros r'; apply preserves_ret].
  - apply preserves_try_catch; [| intros e; apply preserves_ret].
    apply preserves_bind; [apply preserves_settle | intros _].
    apply preserves_bind; [apply preserves_issue | intros r'; apply preserves_ret].
  - apply preserves_try_catch; [| intros e; apply preserves_ret].
    apply preserves_bind; [apply preserves_settle | intros c; apply preserves_ret].
  - apply preserves_ret.
  - apply preserves_ret.
Qed.

Lemma resume_preserves s t st : R st (snd (resume w s t st)).
Proof.
  unfold resume. pose proof (resumeBody_preserves s t st) as Hbody.
  by destruct (resumeBody w s t st) as [[t'|e] st'].
Qed.

Lemma resumeNth_preserves k ts st : R st (snd (resumeNth w k ts st)).
Proof.
  revert k. induction ts as [|[s t] ts IH]; intros k; [apply R_refl |].
  cbn [resumeNth]. destruct (settled t).
  - specialize (IH k). by destruct (resumeNth w k ts st).
  - destruct k as [|k'].
    + pose proof (resume_preserves s t st). by destruct (resume w s t st).
    + specialize (IH k'). by destruct (resumeNth w k' ts st).
Qed.

Lemma runTasks_preserves turns ts st : R st (snd (runTasks w turns ts st)).
Proof.
  revert ts st. induction turns as [|turns IH]; intros ts st; [apply R_refl |].
  cbn [runTasks]. destruct (rejection ts); [apply R_refl |].
  destruct (pendingCount ts) as [|n]; [apply R_refl |].
  pose proof (resumeNth_preserves
                (schedule w (clock st) (S turns) mod S n)%nat ts st) as Hstep.
  destruct (resumeNth w _ ts st) as [ts' st']. cbn [snd] in Hstep.
  eapply R_trans; [exact Hstep | apply IH].
Qed.

Lemma startAll_preserves items : preserves R (startAll w items).
Proof.
  induction items as [|s items IH]; cbn [startAll]; [apply preserves_ret |].
  apply preserves_bind.
  { unfold startTask. apply preserves_bind; [apply preserves_issueConnect |].
    intros c. apply preserves_ret. }
  intros t. apply preserves_bind; [exact IH | intros ts; apply preserves_ret].
Qed.

Lemma settleAll_preserves items : preserves R (settleAll w items).
Proof.
  intros st. unfold settleAll. pose proof (startAll_preserves items st) as Hstart.
  destruct (startAll w items st) as [[ts0|e] st0]; cbn [snd] in Hstart; [| done].
  pose proof (runTasks_preserves (4 * length items) ts0 st0) as Hrun.
  destruct (runTasks w (4 * length items) ts0 st0) as [ts st']. cbn [snd] in *.
  by eapply R_trans.
Qed.

Lemma promiseAll_preserves items : preserves R (promiseAll w items).
Proof.
  unfold promiseAll. apply preserves_bind; [apply settleAll_preserves | intros ts].
  destruct (rejection ts); [apply preserves_throw | apply preserves_ret].
Qed.

End Registering.

End Preservation.

(** *** The relations the handler keeps *)

Lemma Extends_refl st : Extends st st.
Proof.
  unfold Extends. split_and!; try done.
  - exists []. by rewrite app_nil_r.
  - exists []. by rewrite app_nil_r.
Qed.

Lemma Extends_trans st1 st2 st3 : Extends st1 st2 -> Extends st2 st3 -> Extends st1 st3.
Proof.
  intros (L1 & N1 & B1 & (a1 & H1 & F1) & (m1 & T1))
         (L2 & N2 & B2 & (a2 & H2 & F2) & (m2 & T2)).
  unfold Extends. split_and!.
  - congruence.
  - congruence.
  - auto.
  - exists (a1 ++ a2). split; [by rewrite H2, H1, app_assoc |].
    apply Forall_app. split; [| done].
    eapply Forall_impl; [exact F1 |]. intros h. apply B2.
  - exists (m1 ++ m2). by rewrite T2, T1, app_assoc.
Qed.

Lemma Extends_request st c ok :
  Extends st (with_trace (fun tr => tr ++ [(c, ok)]) st).
Proof.
  unfold Extends. state_simpl. split_and!; try done.
  - exists []. by rewrite app_nil_r.
  - by eexists.
Qed.

Lemma Extends_register sessionId b count :
  preserves Extends (registerSession sessionId b count).
Proof.
  intros st. unfold registerSession. run_monad.
  destruct (firstPage b count) as [p|]; crunch; unfold Extends; state_simpl.
  - split_and!; try done.
    + intros k Hk. apply lookup_insert_is_Some'. by right.
    + eexists. split; [done |]. repeat constructor. cbn [snd].
      apply lookup_insert_is_Some'. by left.
    + exists []. by rewrite app_nil_r.
  - split_and!; try done.
    + intros k Hk. apply lookup_insert_is_Some'. by right.
    + exists []. by rewrite app_nil_r.
    + exists []. by rewrite app_nil_r.
Qed.

Lemma Extends_viewport st p width height :
  Extends st (with_viewports <[p := (width, height)]> st).
Proof.
  unfold Extends. state_simpl. split_and!; try done.
  - exists []. by rewrite app_nil_r.
  - exists []. by rewrite app_nil_r.
Qed.

Lemma Extends_store st name data :
  Extends st (with_notifications (fun sent => sent ++ [ResourcesListChanged])
                (with_screenshots (JsMap.set name data) st)).
Proof.
  unfold Extends. state_simpl. split_and!; try done.
  - rewrite List.filter_app. cbn. by rewrite app_nil_r.
  - exists []. by rewrite app_nil_r.
  - exists []. by rewrite app_nil_r.
Qed.

Lemma handleToolCall_Extends w n args : preserves Extends (handleToolCall w n args).
Proof.
  apply (handleToolCall_preserves w Extends Extends_refl Extends_trans Extends_request).
  - intros sessionId.
    apply (createNewBrowserSession_preserves w Extends Extends_refl Extends_trans
             Extends_request Extends_register).
  - intros items.
    apply (promiseAll_preserves w Extends Extends_refl Extends_trans
             Extends_request Extends_register).
  - apply Extends_viewport.
  - intros st name data _. apply Extends_store.
Qed.

(** X18.  No tool call, whatever the tool, the arguments and the
    answers of the providers, and whether it returns or throws, writes
    the console log or sends a console notification, removes a session
    from the registry, removes a listener or installs one for a
    [sessionId] that is not registered, or forgets a request it made. *)
Theorem tool_call_extends_state w n args st :
  let st' := snd (handleToolCall w n args st) in
  consoleLogs st' = consoleLogs st
  /\ List.filter isCloudMessage (notifications st')
     = List.filter isCloudMessage (notifications st)
  /\ (forall k, is_Some (browsers st !! k) -> is_Some (browsers st' !! k))
  /\ (exists added,
        handlers st' = handlers st ++ added
        /\ Forall (fun h => is_Some (browsers st' !! snd h)) added)
  /\ (exists more, trace st' = trace st ++ more).
Proof. exact (handleToolCall_Extends w n args st). Qed.







(** *** Invariants of every run *)

Lemma runProcess_snoc w events e :
  runProcess w (events ++ [e]) = step w (runProcess w events) e.
Proof. unfold runProcess. by rewrite fold_left_app. Qed.

Lemma runProcess_app w events more :
  runProcess w (events ++ more) = fold_left (step w) more (runProcess w events).
Proof. unfold runProcess. by rewrite fold_left_app. Qed.

(** What holds of a fresh server and is kept by a tool call, by a
    console message and by the resumption of a task holds of every
    state a run reaches. *)
Lemma run_invariant (Q : State -> Prop) w events :
  Q initial ->
  (forall n args st, Q st -> Q (snd (handleToolCall w n args st))) ->
  (forall p msgType msgText st, Q st -> Q (pageConsole p msgType msgText st)) ->
  (forall k ts st, Q st -> Q (snd (resumeNth w k ts st))) ->
  Q (run w events).
Proof.
  intros Hinitial Hcall Hconsole Hresume. unfold run.
  induction events as [|e events IH] using rev_ind; [done |].
  rewrite runProcess_snoc. destruct e as [n arguments|p msgType msgText|k]; cbn [step].
  - cbn [memory]. unfold callTool. by apply Hcall.
  - cbn [memory]. by apply Hconsole.
  - specialize (Hresume k (suspended (runProcess w events)) _ IH).
    by destruct (resumeNth w k _ _) as [ts st].
Qed.

Lemma resumeNth_Extends w k ts st : Extends st (snd (resumeNth w k ts st)).
Proof.
  apply (resumeNth_preserves w Extends Extends_refl Extends_trans
           Extends_request Extends_register).
Qed.

(** A property of states that the listener keeps is kept by a console
    message, whatever listeners the page has. *)
Lemma pageConsole_keeps (Q : State -> Prop) p msgType msgText st :
  (forall sessionId st0,
      Q st0 -> handlers st0 = handlers st -> (p, sessionId) ∈ handlers st ->
      Q (consoleListener sessionId msgType msgText st0)) ->
  Q st -> Q (pageConsole p msgType msgText st).
Proof.
  unfold pageConsole. intros Hkeep.
  assert (Hgen : forall hs st0,
             (forall h, h ∈ hs -> h ∈ handlers st) ->
             Q st0 -> handlers st0 = handlers st ->
             Q (fold_left
                  (fun st' h =>
                     if decide (fst h = p)
                     then consoleListener (snd h) msgType msgText st' else st')
                  hs st0)).
  { induction hs as [|[p' sid] hs IH]; intros st0 Hsub HQ Hsame; [done |].
    cbn [fold_left fst snd]. apply IH.
    - intros h Hh. apply Hsub. by right.
    - destruct (decide (p' = p)) as [->|]; [| done].
      apply Hkeep; [done | done |]. apply Hsub. left.
    - by destruct (decide (p' = p)). }
  intros HQ. by apply Hgen.
Qed.

Lemma pageConsole_frame p msgType msgText st :
  browsers (pageConsole p msgType msgText st) = browsers st
  /\ handlers (pageConsole p msgType msgText st) = handlers st
  /\ screenshots (pageConsole p msgType msgText st) = screenshots st.
Proof.
  apply (pageConsole_keeps
           (fun st' => browsers st' = browsers st /\ handlers st' = handlers st
                       /\ screenshots st' = screenshots st)); [| done].
  by intros sid st0 (? & ? & ?) _ _.
Qed.

(** X20.  In every state a run of tool calls, console messages and
    resumptions of suspended tasks can reach, the console notifications
    sent are the console log, line for line and in order: no log line
    went unannounced and no announced line is missing from the log. *)
Theorem run_logs_notified w events :
  List.map CloudMessage (consoleLogs (run w events))
  = List.filter isCloudMessage (notifications (run w events)).
Proof.
  apply (run_invariant
           (fun st => List.map CloudMessage (consoleLogs st)
                      = List.filter isCloudMessage (notifications st))).
  - done.
  - intros n args st Hst.
    by destruct (handleToolCall_Extends w n args st) as (-> & -> & _).
  - intros p msgType msgText st Hst.
    apply (pageConsole_keeps
             (fun st => List.map CloudMessage (consoleLogs st)
                        = List.filter isCloudMessage (notifications st))); [| done].
    intros sid st0 Hst0 _ _. unfold consoleListener. state_simpl.
    rewrite map_app, List.filter_app, Hst0. done.
  - intros k ts st Hst.
    by destruct (resumeNth_Extends w k ts st) as (-> & -> & _).
Qed.

(** What a step that extends the state keeps. *)
Lemma Extends_attributable st st' :
  Extends st st' ->
  listenersRegistered st /\ logAttributable st ->
  listenersRegistered st' /\ logAttributable st'.
Proof.
  intros (Hlogs & _ & Hkeys & (added & Hadded & Hnew) & _) [Hreg Hlog].
  unfold listenersRegistered, logAttributable in *. rewrite Hlogs, Hadded. split.
  - apply Forall_app. split; [| done].
    eapply Forall_impl; [exact Hreg |]. intros h. apply Hkeys.
  - eapply Forall_impl; [exact Hlog |].
    intros entry (h & ty & tx & Hh & ->). exists h, ty, tx.
    split; [| done]. apply elem_of_app. by left.
Qed.

(** X21.  In every reachable state each listener was installed for a
    [sessionId] that is in the registry, and each line of the console
    log has the form [[Session id][level] text] for the [sessionId] of
    an installed listener: every log line names a registered session.
    The reachable states include those the tasks of a rejected bulk
    call bring about when they run on after the answer. *)
Theorem run_log_names_registered_sessions w events :
  let st := run w events in
  Forall (fun h => is_Some (browsers st !! snd h)) (handlers st)
  /\ Forall (fun entry =>
               exists h msgType msgText,
                 h ∈ handlers st
                 /\ is_Some (browsers st !! snd h)
                 /\ entry = "[Session " +:+ Js.str (snd h) +:+ "][" +:+ msgType
                            +:+ "] " +:+ msgText)
            (consoleLogs st).
Proof.
  cbn zeta.
  assert (Hinv : listenersRegistered (run w events) /\ logAttributable (run w events)).
  { apply (run_invariant (fun st => listenersRegistered st /\ logAttributable st)).
    - by split; constructor.
    - intros n args st. apply Extends_attributable, handleToolCall_Extends.
    - intros p msgType msgText st Hst.
      apply (pageConsole_keeps
               (fun st => listenersRegistered st /\ logAttributable st)); [| done].
      intros sid st0 [Hreg0 Hlog0] Hsame Hin.
      unfold listenersRegistered, logAttributable, consoleListener in *. state_simpl.
      split; [done |]. apply Forall_app. split; [done |].
      repeat constructor. exists (p, sid), msgType, msgText. by rewrite Hsame.
    - intros k ts st. apply Extends_attributable, resumeNth_Extends. }
  destruct Hinv as [Hreg Hlog]. split; [exact Hreg |].
  eapply Forall_impl; [exact Hlog |].
  intros entry (h & ty & tx & Hh & ->). exists h, ty, tx. split_and!; [done | | done].
  by apply (proj1 (Forall_forall _ _) Hreg).
Qed.

Lemma keepsCatalog_same st st' :
  screenshots st' = screenshots st -> keepsCatalog st st'.
Proof. unfold keepsCatalog, catalogWellFormed. by intros ->. Qed.

Lemma keepsCatalog_trans st1 st2 st3 :
  keepsCatalog st1 st2 -> keepsCatalog st2 st3 -> keepsCatalog st1 st3.
Proof. unfold keepsCatalog. auto. Qed.

Lemma keepsCatalog_register sessionId b count :
  preserves keepsCatalog (registerSession sessionId b count).
Proof.
  intros st. apply keepsCatalog_same. unfold registerSession. run_monad.
  by destruct (firstPage b count) as [p|]; crunch.
Qed.

Lemma keepsCatalog_store st name data :
  data <> "" ->
  keepsCatalog st (with_notifications (fun sent => sent ++ [ResourcesListChanged])
                     (with_screenshots (JsMap.set name data) st)).
Proof.
  intros Hdata [Hkeys Hpayloads]. unfold catalogWellFormed. state_simpl. split.
  - by apply NoDup_keys_set.
  - by apply (Forall_values_set (fun v => v <> "")).
Qed.

Lemma handleToolCall_keepsCatalog w n args :
  preserves keepsCatalog (handleToolCall w n args).
Proof.
  assert (Hrefl : forall st, keepsCatalog st st) by (intros st; by apply keepsCatalog_same).
  assert (Hreq : forall st c ok, keepsCatalog st (with_trace (fun tr => tr ++ [(c, ok)]) st))
    by (intros st c ok; by apply keepsCatalog_same).
  apply (handleToolCall_preserves w keepsCatalog Hrefl keepsCatalog_trans Hreq).
  - intros sessionId.
    apply (createNewBrowserSession_preserves w keepsCatalog Hrefl keepsCatalog_trans
             Hreq keepsCatalog_register).
  - intros items.
    apply (promiseAll_preserves w keepsCatalog Hrefl keepsCatalog_trans
             Hreq keepsCatalog_register).
  - intros st p width height. by apply keepsCatalog_same.
  - apply keepsCatalog_store.
Qed.

(** X22.  In every reachable state the screenshot map holds each name
    once and holds no empty payload, so that the listing names every
    stored screenshot once and no listed screenshot is refused for an
    empty payload. *)
Theorem run_catalog_well_formed w events :
  let st := run w events in
  NoDup (JsMap.keys (screenshots st))
  /\ Forall (fun kv => snd kv <> "") (screenshots st)
  /\ length (listResources st) = S (length (screenshots st)).
Proof.
  cbn zeta.
  assert (Hinv : catalogWellFormed (run w events)).
  { apply (run_invariant catalogWellFormed).
    - by split; constructor.
    - intros n args st. apply handleToolCall_keepsCatalog.
    - intros p msgType msgText st. unfold catalogWellFormed.
      by rewrite (proj2 (proj2 (pageConsole_frame p msgType msgText st))).
    - intros k ts st.
      apply (resumeNth_preserves w keepsCatalog); [| exact keepsCatalog_trans | |].
      + intros st0. by apply keepsCatalog_same.
      + intros st0 c ok. by apply keepsCatalog_same.
      + exact keepsCatalog_register. }
  destruct Hinv as [Hkeys Hpayloads]. split_and!; [done | done |].
  unfold listResources, JsMap.keys. cbn [length]. by rewrite !length_map.
Qed.

(** *** One listener a page *)

Lemma requested_request st c ok :
  requested (with_trace (fun tr => tr ++ [(c, ok)]) st)
  = (requested st + (if isConnect (c, ok) then 1 else 0))%nat.
Proof.
  unfold requested. state_simpl. rewrite List.filter_app, length_app. cbn.
  by destruct (isConnect (c, ok)).
Qed.

Lemma Fresh_same st st' :
  handlers st' = handlers st -> (requested st <= requested st')%nat -> Fresh st st'.
Proof.
  intros Hh Hr. split; [done |]. exists []. unfold listenerBrowsers.
  rewrite Hh, app_nil_r. split_and!; [done | constructor | constructor].
Qed.

Lemma Fresh_refl st : Fresh st st.
Proof. by apply Fresh_same. Qed.

Lemma Fresh_trans st1 st2 st3 : Fresh st1 st2 -> Fresh st2 st3 -> Fresh st1 st3.
Proof.
  intros (Hr1 & a1 & H1 & N1 & F1) (Hr2 & a2 & H2 & N2 & F2).
  split; [lia |]. exists (a1 ++ a2). split_and!.
  - by rewrite H2, H1, app_assoc.
  - apply NoDup_app. split_and!; [done | | done].
    intros b Hb1 Hb2.
    pose proof (proj1 (Forall_forall _ _) F1 b Hb1) as Hlt1.
    pose proof (proj1 (Forall_forall _ _) F2 b Hb2) as Hlt2.
    cbn beta in Hlt1, Hlt2. lia.
  - apply Forall_app. split.
    + eapply Forall_impl; [exact F1 |]. intros b Hb. cbn beta in *. lia.
    + eapply Forall_impl; [exact F2 |]. intros b Hb. cbn beta in *. lia.
Qed.

Lemma Fresh_request st c ok : Fresh st (with_trace (fun tr => tr ++ [(c, ok)]) st).
Proof. apply Fresh_same; [done |]. rewrite requested_request. lia. Qed.

Lemma firstPage_browser b count p : firstPage b count = Some p -> pageBrowser p = b.
Proof. destruct count; [done |]. by intros [= <-]. Qed.

Ltac count_requests :=
  unfold requested; crunch; rewrite ?List.filter_app, ?length_app; cbn; lia.

Lemma Fresh_create w sessionId : preserves Fresh (createNewBrowserSession w sessionId).
Proof.
  intros st. unfold createNewBrowserSession, issueConnect, registerSession. run_monad.
  destruct (connect w (clock st)) as [[]|e]; cbv beta iota zeta.
  - state_simpl.
    match goal with
    | |- context [pages w ?t ?b] => destruct (pages w t b) as [count|e]
    end; crunch.
    + destruct (firstPage (requested st) count) as [p|] eqn:Hpage; crunch.
      * split; [count_requests |].
        exists [requested st]. unfold listenerBrowsers. state_simpl.
        rewrite map_app. cbn [List.map fst].
        rewrite (firstPage_browser _ _ _ Hpage).
        split_and!; [done | apply NoDup_singleton |].
        repeat constructor; count_requests.
      * apply Fresh_same; [done | count_requests].
    + apply Fresh_same; [done | count_requests].
  - apply Fresh_same; [done | count_requests].
Qed.

Lemma resume_awaited w s t st :
  requested (snd (resume w s t st)) = requested st
  /\ exists added,
       listenerBrowsers (snd (resume w s t st)) = listenerBrowsers st ++ added
       /\ added ++ awaited (fst (resume w s t st)) ⊆+ awaited t.
Proof.
  assert (Hnil : forall l : list Browser, l = l ++ []) by (intros l; by rewrite app_nil_r).
  destruct t as [b r|b r|p r|r|e|e]; run_task.
  - destruct r as [[]|e]; crunch.
    + split; [count_requests |]. exists []. split; [apply Hnil | done].
    + split; [done |]. exists []. split; [apply Hnil |]. apply submseteq_nil_l.
  - destruct r as [count|e]; crunch.
    + destruct (firstPage b count) as [p|] eqn:Hpage; crunch.
      * split; [count_requests |].
        exists [b]. unfold listenerBrowsers. state_simpl.
        rewrite map_app. cbn [List.map fst app awaited].
        by rewrite (firstPage_browser _ _ _ Hpage).
      * split; [done |]. exists []. split; [apply Hnil |]. apply submseteq_nil_l.
    + split; [done |]. exists []. split; [apply Hnil |]. apply submseteq_nil_l.
  - destruct r as [[]|e]; crunch.
    + split; [count_requests |]. exists []. split; [apply Hnil | done].
    + split; [done |]. exists []. split; [apply Hnil | done].
  - destruct r as [c|e]; crunch; (split; [done |]; exists []; split; [apply Hnil | done]).
  - crunch. split; [done |]. exists []. split; [apply Hnil | done].
  - crunch. split; [done |]. exists []. split; [apply Hnil | done].
Qed.

Lemma awaited_settled t : settled t = true -> awaited t = [].
Proof. by destruct t. Qed.

Lemma resumeNth_awaited w k ts st :
  requested (snd (resumeNth w k ts st)) = requested st
  /\ exists added,
       listenerBrowsers (snd (resumeNth w k ts st)) = listenerBrowsers st ++ added
       /\ added ++ awaitedAll (fst (resumeNth w k ts st)) ⊆+ awaitedAll ts.
Proof.
  revert k. induction ts as [|[s t] ts IH]; intros k.
  - cbn [resumeNth fst snd]. split; [done |]. exists []. by rewrite app_nil_r.
  - cbn [resumeNth]. unfold awaitedAll. cbn [flat_map snd]. fold (awaitedAll ts).
    destruct (settled t) eqn:Hsettled.
    + destruct (IH k) as (Hr & added & Hh & Hsub).
      destruct (resumeNth w k ts st) as [ts' st']. cbn [fst snd flat_map] in *.
      split; [done |]. exists added. split; [done |].
      rewrite (awaited_settled t Hsettled). exact Hsub.
    + destruct k as [|k'].
      * destruct (resume_awaited w s t st) as (Hr & added & Hh & Hsub).
        destruct (resume w s t st) as [t' st']. cbn [fst snd flat_map] in *.
        split; [done |]. exists added. split; [done |].
        fold (awaitedAll ts). rewrite app_assoc. by apply submseteq_app.
      * destruct (IH k') as (Hr & added & Hh & Hsub).
        destruct (resumeNth w k' ts st) as [ts' st']. cbn [fst snd flat_map] in *.
        split; [done |]. exists added. split; [done |].
        fold (awaitedAll ts').
        rewrite app_assoc, (Permutation_app_comm added), <- app_assoc.
        by apply submseteq_app.
Qed.

Lemma runTasks_awaited w turns ts st :
  requested (snd (runTasks w turns ts st)) = requested st
  /\ exists added,
       listenerBrowsers (snd (runTasks w turns ts st)) = listenerBrowsers st ++ added
       /\ added ++ awaitedAll (fst (runTasks w turns ts st)) ⊆+ awaitedAll ts.
Proof.
  assert (Hstop : forall ts st,
             requested st = requested st
             /\ exists added,
                  listenerBrowsers st = listenerBrowsers st ++ added
                  /\ added ++ awaitedAll ts ⊆+ awaitedAll ts).
  { intros ts0 st0. split; [done |]. exists []. by rewrite app_nil_r. }
  revert ts st. induction turns as [|turns IH]; intros ts st; [apply Hstop |].
  cbn [runTasks]. destruct (rejection ts); [apply Hstop |].
  destruct (pendingCount ts) as [|n]; [apply Hstop |].
  set (k := (schedule w (clock st) (S turns) mod S n)%nat). clearbody k.
  destruct (resumeNth_awaited w k ts st) as (Hr & a1 & Hh & Hsub).
  destruct (resumeNth w k ts st) as [ts' st']. cbn [fst snd] in *.
  destruct (IH ts' st') as (Hr' & a2 & Hh' & Hsub').
  split; [congruence |]. exists (a1 ++ a2). split; [by rewrite Hh', Hh, app_assoc |].
  etrans; [| exact Hsub]. rewrite <- app_assoc. by apply submseteq_app.
Qed.

Lemma startAll_awaited w items st ts0 st0 :
  startAll w items st = (Return ts0, st0) ->
  handlers st0 = handlers st
  /\ requested st0 = (requested st + length items)%nat
  /\ awaitedAll ts0 = seq (requested st) (length items).
Proof.
  revert st ts0 st0. induction items as [|s items IH]; intros st ts0 st0.
  - cbn [startAll]. unfold ret. intros [= <- <-]. cbn. split_and!; [done | lia | done].
  - cbn [startAll]. unfold startTask, issueConnect. run_monad.
    match goal with
    | |- context [startAll w items ?st1] =>
        destruct (startAll w items st1) as [[ts1|e] st1'] eqn:Hrest; [| done];
        destruct (IH _ _ _ Hrest) as (Hh & Hr & Ha)
    end.
    intros [= <- <-]. rewrite requested_request in Hr, Ha. cbn in Hr, Ha.
    state_simpl. split_and!.
    + exact Hh.
    + rewrite Hr. cbn [length]. lia.
    + unfold awaitedAll. cbn [flat_map snd awaited app length seq].
      fold (awaitedAll ts1). rewrite Ha. f_equal. f_equal. lia.
Qed.

Lemma NoDup_submultiset {A} (l k : list A) : l ⊆+ k -> NoDup k -> NoDup l.
Proof.
  intros Hsub Hk. apply submseteq_Permutation in Hsub as [k' Hp].
  rewrite Hp in Hk. by apply NoDup_app in Hk as [? _].
Qed.

(** The tasks of a bulk call at the moment its [Promise.all] settles:
    each connection requested for an item has, in all, at most one
    listener or one task that will still install one. *)
Lemma settleAll_awaited w items st :
  exists ts st',
    settleAll w items st = (Return ts, st')
    /\ requested st' = (requested st + length items)%nat
    /\ exists added,
         listenerBrowsers st' = listenerBrowsers st ++ added
         /\ added ++ awaitedAll ts ⊆+ seq (requested st) (length items).
Proof.
  unfold settleAll.
  destruct (startAll_returns w items st) as (ts0 & st0 & Hstart & _).
  rewrite Hstart. destruct (startAll_awaited w items st ts0 st0 Hstart) as (Hh & Hr & Ha).
  destruct (runTasks_awaited w (4 * length items) ts0 st0) as (Hr' & added & Hh' & Hsub).
  destruct (runTasks w (4 * length items) ts0 st0) as [ts st'].
  cbn [fst snd] in *. exists ts, st'. split_and!; [done | lia |].
  exists added. split; [| by rewrite <- Ha].
  rewrite Hh'. unfold listenerBrowsers. by rewrite Hh.
Qed.

Lemma Fresh_bulk w items : preserves Fresh (promiseAll w items).
Proof.
  intros st. unfold promiseAll, bind.
  destruct (settleAll_awaited w items st) as (ts & st' & -> & Hr & added & Hh & Hsub).
  assert (HF : Fresh st st').
  { split; [lia |]. exists added. split_and!.
    - done.
    - eapply NoDup_submultiset; [| apply (NoDup_seq (requested st) (length items))].
      etrans; [| exact Hsub]. by apply submseteq_inserts_r.
    - apply Forall_forall. intros b Hb.
      assert (Hin : b ∈ seq (requested st) (length items)).
      { eapply elem_of_submseteq; [| exact Hsub]. apply elem_of_app. by left. }
      apply elem_of_seq in Hin. lia. }
  by destruct (rejection ts).
Qed.

Lemma handleToolCall_Fresh w n args : preserves Fresh (handleToolCall w n args).
Proof.
  apply (handleToolCall_preserves w Fresh Fresh_refl Fresh_trans Fresh_request).
  - apply Fresh_create.
  - apply Fresh_bulk.
  - intros st p width height. by apply Fresh_same.
  - intros st name data _. by apply Fresh_same.
Qed.

(** The state in which a bulk call answers is the state in which its
    [Promise.all] settled, so the tasks [abandoned] gives are the tasks
    of the call. *)
Lemma bulk_call_state w args st items :
  arg_sessions args = Some items ->
  snd (handleToolCall w "puppeteer_parallel_sessions" args st)
  = snd (settleAll w items st).
Proof.
  intros Hitems. rewrite handleToolCall_unfold, get_case_parallel_sessions.
  change (resolveDefault w "puppeteer_parallel_sessions" args st)
    with (Return (@None Session), st).
  cbv beta iota zeta. unfold case_parallel_sessions, promiseAll. run_monad.
  rewrite Hitems. cbv beta iota zeta.
  destruct (settleAll w items st) as [[ts|e] st']; cbv beta iota zeta; [| done].
  by destruct (rejection ts).
Qed.

Lemma awaitedAll_suspended ts :
  awaitedAll (List.filter (fun it => negb (settled (snd it))) ts) = awaitedAll ts.
Proof.
  unfold awaitedAll. induction ts as [|[s t] ts IH]; [done |].
  cbn [List.filter flat_map snd].
  destruct (settled t) eqn:Hsettled; cbn [negb flat_map snd].
  - by rewrite (awaited_settled t Hsettled).
  - by rewrite IH.
Qed.

(** What a tool call adds: listeners, and suspended tasks that will
    install one, all on connections requested during the call, each
    connection at most once. *)
Lemma toolCall_adds w n args st :
  let st' := snd (handleToolCall w n args st) in
  (requested st <= requested st')%nat
  /\ exists added,
       listenerBrowsers st' = listenerBrowsers st ++ added
       /\ NoDup (added ++ awaitedAll (abandoned w n args st))
       /\ Forall (fun b => (requested st <= b < requested st')%nat)
                 (added ++ awaitedAll (abandoned w n args st)).
Proof.
  cbn zeta. unfold abandoned.
  destruct (String.eqb_spec n "puppeteer_parallel_sessions") as [->|Hn];
    [destruct (arg_sessions args) as [items|] eqn:Hitems |].
  - rewrite (bulk_call_state w args st items Hitems).
    destruct (settleAll_awaited w items st) as (ts & st' & -> & Hr & added & Hh & Hsub).
    cbn [snd]. rewrite awaitedAll_suspended. split; [lia |].
    exists added. split_and!; [done | |].
    + eapply NoDup_submultiset; [exact Hsub | apply NoDup_seq].
    + apply Forall_forall. intros b Hb.
      assert (Hin : b ∈ seq (requested st) (length items))
        by (eapply elem_of_submseteq; eauto).
      apply elem_of_seq in Hin. lia.
  - destruct (handleToolCall_Fresh w "puppeteer_parallel_sessions" args st)
      as (Hr & added & Hh & Hnd & Hb).
    split; [done |]. exists added. cbn [awaitedAll flat_map]. by rewrite app_nil_r.
  - destruct (handleToolCall_Fresh w n args st) as (Hr & added & Hh & Hnd & Hb).
    split; [done |]. exists added. cbn [awaitedAll flat_map]. by rewrite app_nil_r.
Qed.

Lemma awaitedAll_app ts ts' : awaitedAll (ts ++ ts') = awaitedAll ts ++ awaitedAll ts'.
Proof. unfold awaitedAll. by rewrite flat_map_app. Qed.

Lemma pageConsole_trace p msgType msgText st :
  handlers (pageConsole p msgType msgText st) = handlers st
  /\ trace (pageConsole p msgType msgText st) = trace st.
Proof.
  apply (pageConsole_keeps
           (fun st' => handlers st' = handlers st /\ trace st' = trace st)); [| done].
  by intros sid st0 (? & ?) _ _.
Qed.

Lemma runProcess_listenersApart w events : listenersApart (runProcess w events).
Proof.
  induction events as [|e events IH] using rev_ind; [by split; constructor |].
  rewrite runProcess_snoc. destruct (runProcess w events) as [st ts].
  destruct IH as [Hdistinct Hbound]. cbn [memory suspended] in *.
  destruct e as [n arguments|p msgType msgText|k]; cbn [step]; unfold listenersApart;
    cbn [memory suspended].
  - unfold callTool. set (args := default (noArgs None) arguments).
    destruct (toolCall_adds w n args st) as (Hr & added & Hh & Hnd & Hb).
    rewrite Hh, awaitedAll_app.
    set (new := awaitedAll (abandoned w n args st)) in *.
    assert (Hperm : (listenerBrowsers st ++ added) ++ awaitedAll ts ++ new
                    ≡ₚ (listenerBrowsers st ++ awaitedAll ts) ++ (added ++ new)).
    { rewrite <- !app_assoc. apply Permutation_app_head.
      rewrite !app_assoc. apply Permutation_app_tail. apply Permutation_app_comm. }
    rewrite Hperm. split.
    + apply NoDup_app. split_and!; [done | | done].
      intros b Hb1 Hb2.
      pose proof (proj1 (Forall_forall _ _) Hbound b Hb1) as Hlt1.
      pose proof (proj1 (Forall_forall _ _) Hb b Hb2) as Hlt2.
      cbn beta in Hlt1, Hlt2. lia.
    + apply Forall_app. split.
      * eapply Forall_impl; [exact Hbound |]. intros b Hlt. cbn beta in *. lia.
      * eapply Forall_impl; [exact Hb |]. intros b Hlt. cbn beta in *. lia.
  - destruct (pageConsole_trace p msgType msgText st) as [Hh Ht].
    unfold listenerBrowsers, requested. by rewrite Hh, Ht.
  - destruct (resumeNth_awaited w k ts st) as (Hr & added & Hh & Hsub).
    destruct (resumeNth w k ts st) as [ts' st']. cbn [fst snd memory suspended] in *.
    assert (Hall : (listenerBrowsers st ++ added) ++ awaitedAll ts'
                   ⊆+ listenerBrowsers st ++ awaitedAll ts).
    { rewrite <- app_assoc. by apply submseteq_skips_l. }
    rewrite Hh, Hr. split.
    + by eapply NoDup_submultiset.
    + apply Forall_forall. intros b Hb.
      apply (proj1 (Forall_forall _ _) Hbound). by eapply elem_of_submseteq.
Qed.

Lemma run_pages_distinct w events : NoDup (List.map fst (handlers (run w events))).
Proof.
  destruct (runProcess_listenersApart w events) as [Hdistinct _].
  apply NoDup_app in Hdistinct as (Hdistinct & _ & _).
  unfold listenerBrowsers in Hdistinct. fold (run w events) in Hdistinct.
  rewrite <- (map_map fst pageBrowser) in Hdistinct.
  by apply (NoDup_fmap_1 pageBrowser) in Hdistinct.
Qed.

Lemma filter_other_pages (hs : list (Page * option string)) p :
  p ∉ List.map fst hs -> filter (fun h => fst h = p) hs = [].
Proof.
  induction hs as [|[p' sid'] hs IH]; intros Hnot; [done |].
  cbn [List.map fst] in Hnot. apply not_elem_of_cons in Hnot as [Hne Hnot].
  rewrite filter_cons. cbn [fst]. destruct (decide (p' = p)); [done |]. by apply IH.
Qed.

Lemma filter_own_page (hs : list (Page * option string)) p sessionId :
  NoDup (List.map fst hs) -> (p, sessionId) ∈ hs ->
  filter (fun h => fst h = p) hs = [(p, sessionId)].
Proof.
  induction hs as [|[p' sid'] hs IH]; intros Hnd Hin; [by apply elem_of_nil in Hin |].
  cbn [List.map fst] in Hnd. apply NoDup_cons in Hnd as [Hfirst Hrest].
  rewrite filter_cons. cbn [fst].
  apply elem_of_cons in Hin as [[= <- <-]|Hin].
  - destruct (decide (p = p)); [| done]. f_equal. by apply filter_other_pages.
  - destruct (decide (p' = p)) as [->|Hne]; [| by apply IH].
    exfalso. apply Hfirst. apply list_elem_of_fmap. by exists (p, sessionId).
Qed.

(** A console message after a run, on a page that has a listener: that
    listener runs, once. *)
Lemma run_console w events p sessionId msgType msgText :
  (p, sessionId) ∈ handlers (run w events) ->
  run w (events ++ [ConsoleMessage p msgType msgText])
  = consoleListener sessionId msgType msgText (run w events).
Proof.
  intros Hin. unfold run at 1. rewrite runProcess_snoc. cbn [step memory].
  fold (run w events). apply pageConsole_single.
  apply filter_own_page; [apply run_pages_distinct | done].
Qed.

(** X23.  In every reachable state no two listeners are on the same
    page: whatever tools were called, with whatever answers of the
    providers, in whatever order the event loop ran the bulk tool's
    tasks, and whenever the tasks that a rejected bulk call left
    suspended ran on, each connection's page received at most one
    listener. *)
Theorem run_one_listener_per_page w events :
  NoDup (List.map fst (handlers (run w events))).
Proof. apply run_pages_distinct. Qed.

(** X24.  In a reachable state a console message on a page that has a
    listener appends one line to the console log and sends one
    notification, both [[Session id][level] text] with the [sessionId]
    of that listener, and changes nothing else. *)
Theorem run_console_message_logs_once w events p sessionId msgType msgText :
  (p, sessionId) ∈ handlers (run w events) ->
  let st := run w events in
  let st' := run w (events ++ [ConsoleMessage p msgType msgText]) in
  let entry := "[Session " +:+ Js.str sessionId +:+ "][" +:+ msgType +:+ "] "
               +:+ msgText in
  consoleLogs st' = consoleLogs st ++ [entry]
  /\ notifications st' = notifications st ++ [CloudMessage entry]
  /\ browsers st' = browsers st /\ handlers st' = handlers st
  /\ screenshots st' = screenshots st /\ viewports st' = viewports st
  /\ trace st' = trace st.
Proof.
  intros Hin. cbn zeta. rewrite (run_console w events p sessionId _ _ Hin).
  by unfold consoleListener.
Qed.

(** The bulk call of [flaky] answers while the task of item [a] still
    awaits its connection; the task runs on, registers [a] and installs
    its listener on the page of the first connection, and a message of
    that page is then logged for [a]. *)
Lemma run_console_message_logs_once_witness :
  let events := [ToolCall "puppeteer_parallel_sessions" (Some (bulkArgs twoItems));
                 Resumption 0; Resumption 0] in
  let st := run flaky events in
  let st' := run flaky (events ++ [ConsoleMessage page0 "log" "hello"]) in
  let entry := "[Session " +:+ Js.str (Some "a") +:+ "][" +:+ "log" +:+ "] "
               +:+ "hello" in
  (page0, Some "a") ∈ handlers st
  /\ consoleLogs st' = consoleLogs st ++ [entry]
  /\ notifications st' = notifications st ++ [CloudMessage entry]
  /\ browsers st' = browsers st /\ handlers st' = handlers st
  /\ screenshots st' = screenshots st /\ viewports st' = viewports st
  /\ trace st' = trace st.
Proof.
  cbv zeta.
  assert (Hin : (page0, Some "a")
                ∈ handlers (run flaky
                              [ToolCall "puppeteer_parallel_sessions"
                                 (Some (bulkArgs twoItems));
                               Resumption 0; Resumption 0]))
    by (vm_compute; left).
  split; [exact Hin |].
  exact (run_console_message_logs_once flaky _ page0 (Some "a") "log" "hello" Hin).
Defined.

(** *** Console capture *)









(** *** Filling a field *)

(** X26.  The fill tool types only into a field it has waited for: when
    the wait fails nothing is typed, the answer is the failure envelope
    with the selector and the error, and the only request made is the
    wait; when the wait succeeds the typing request follows it at once
    and the failure flag tells whether the typing failed. *)
Theorem fill_waits_before_typing w args st session p st1 :
  resolveDefault w "puppeteer_fill" args st = (Return (Some session), st1) ->
  page session = Some p ->
  let r := handleToolCall w "puppeteer_fill" args st in
  match waitForSelector w (clock st1) p (arg_selector args) with
  | Throw e =>
      r = (Return (textResult ("Failed to fill " +:+ Js.str (arg_selector args)
                               +:+ ": " +:+ e) true),
           with_trace (fun tr => tr ++ [(WaitForSelector p (arg_selector args), false)])
             st1)
  | Return _ =>
      exists typed response,
        r = (Return response,
             with_trace (fun tr => tr ++ [(TypeText p (arg_selector args) (arg_value args),
                                           typed)])
               (with_trace (fun tr => tr ++ [(WaitForSelector p (arg_selector args), true)])
                  st1))
        /\ isError (toolResult response) = negb typed
  end.
Proof.
  intros Hresolve Hpage. cbn zeta. rewrite handleToolCall_unfold, Hresolve.
  change (JsMap.get "puppeteer_fill" (cases w)) with (Some (case_fill w)).
  cbv beta iota zeta. unfold case_fill. run_monad. rewrite Hpage. cbv beta iota zeta.
  destruct (waitForSelector w (clock st1) p (arg_selector args)) as [[]|e];
    cbv beta iota zeta; [| done].
  match goal with
  | |- context [typeText w ?t p (arg_selector args) (arg_value args)] =>
      destruct (typeText w t p (arg_selector args) (arg_value args)) as [[]|e]
  end; cbv beta iota zeta; state_simpl.
  - by eexists true, _.
  - by eexists false, _.
Qed.

Lemma fill_waits_before_typing_witness :
  handleToolCall blank "puppeteer_fill" fillArgs oneSession
  = (Return (textResult ("Failed to fill " +:+ "#q" +:+ ": "
                         +:+ "Waiting for selector failed: timeout") true),
     with_trace (fun tr => tr ++ [(WaitForSelector page0 (Some "#q"), false)]) oneSession).
Proof.
  exact (fill_waits_before_typing blank fillArgs oneSession session0 page0 oneSession
           eq_refl eq_refl).
Defined.

(** *** The declared tools *)

(** X27.  The tool list is well formed: no name is declared twice, and
    every required field of a tool is one of its declared properties. *)
Theorem tools_well_formed :
  NoDup (List.map name listTools)
  /\ Forall (fun t => Forall (fun field => field ∈ inputProperties t) (required t))
            listTools.
Proof.
  split.
  - apply (bool_decide_unpack (NoDup (List.map name listTools))). by vm_compute.
  - unfold listTools, TOOLS. repeat constructor; cbn; rewrite ?elem_of_cons; tauto.
Qed.
